(** * Network index of a Nomad node: ports in use and port offers

    A shallow embedding of [nomad/structs/network.go] (the [NetworkIndex],
    its intake of reservations and allocations, the two dynamic-port
    selectors and the two offer engines), followed by the properties that
    the specification of the index states about them.

    Conventions of the embedding:
    - a Go [int] is a [Z]; the places where the source does arithmetic on
      it wrap at 64 bits ([int_add], [int_sub]) and the conversion
      [uint(x)] is [uint];
    - a function that returns [(T, error)] returns a [result T]; a run-time
      panic of the Go code (index out of range, [rand.Intn] of a
      non-positive bound, slicing out of bounds) is the third outcome
      [Panic];
    - the index is threaded explicitly: every method takes the index and
      returns the index it leaves behind;
    - [math/rand] is a list of raw draws consumed from the left;
    - a pointer is the value it points to (no nil element in a slice of
      pointers), and a Go map that is only read at keys is a [gmap]. *)

From Stdlib Require Import ZArith Lia List Permutation Ascii.
From stdpp Require Import base tactics option list list_numbers strings gmap pretty.

Local Open Scope string_scope.
Local Open Scope list_scope.
Local Open Scope Z_scope.

(** ** Outcomes *)

Inductive result (A : Type) : Type :=
| Ok (a : A)
| Err (msg : string)
| Panic.
Arguments Ok {A} a.
Arguments Err {A} msg.
Arguments Panic {A}.

(** ** Machine integers *)

Definition int_wrap (x : Z) : Z := (x + 2 ^ 63) mod 2 ^ 64 - 2 ^ 63.
Definition int_add (a b : Z) : Z := int_wrap (a + b).
Definition int_sub (a b : Z) : Z := int_wrap (a - b).
Definition uint (x : Z) : Z := x mod 2 ^ 64.

(** A value the Go type [int] can hold and that is not negative. *)
Definition nonneg_int (x : Z) : Prop := 0 <= x < 2 ^ 63.

(** ** Constants (network.go, lines 12-27) *)

Definition DefaultMinDynamicPort : Z := 20000.
Definition DefaultMaxDynamicPort : Z := 32000.
Definition maxRandPortAttempts : Z := 20.
Definition MaxValidPort : Z := 65536.

(** ** Random numbers *)

Definition Rng := list Z.

(** [rand.Intn(n)]: some value of [0, n); panics when [n <= 0]. *)
Definition rand_Intn (n : Z) (rng : Rng) : result Z * Rng :=
  if n <=? 0 then (Panic, rng)
  else match rng with
       | [] => (Ok 0, [])
       | r :: rng' => (Ok (r mod n), rng')
       end.

(** ** Bitmap *)

Module Bitmap.

(** Modelled from the spec: the type [Bitmap] of bitmap.go, which is not
    among the sources. The spec gives it exactly [MaxValidPort] bits and
    the operations new, set, check, copy, clear-all and indexes-in-range.
    The dense representation chosen here is one integer whose binary
    digits are the bits. *)
Definition t := Z.

Definition Size : Z := MaxValidPort.

(** Modelled from the spec: [NewBitmap] of bitmap.go, which allocates
    zeroed bit storage. *)
Definition NewBitmap (size : Z) : t := 0.

Definition in_range (i : Z) : bool := (0 <=? i) && (i <? Size).

(** Modelled from the spec: [Bitmap.Check] of bitmap.go, membership of a
    port number in the set. A number that is not an index of the bitmap
    is not a member. *)
Definition Check (b : t) (i : Z) : bool := in_range i && Z.testbit b i.

(** Modelled from the spec: [Bitmap.Set] of bitmap.go, whose precondition
    is that the index is in range. [None] is the violated precondition:
    the Go code indexes its byte slice out of range and panics. *)
Definition Set_ (b : t) (i : Z) : option t :=
  if in_range i then Some (Z.setbit b i) else None.

(** Modelled from the spec: [Bitmap.Clear] of bitmap.go, which zeroes
    every bit. *)
Definition Clear (b : t) : t := 0.

(** Modelled from the spec: [Bitmap.Copy] of bitmap.go, a deep copy. *)
Definition Copy (b : t) : t := b.

(** Modelled from the spec: [Bitmap.IndexesInRange] of bitmap.go, which
    returns, in ascending order, every index of the bitmap in [from, to],
    both bounds included, whose bit equals [set]. *)
Definition IndexesInRange (b : t) (set : bool) (from to : Z) : list Z :=
  let hi := Z.min to (Size - 1) in
  filter (λ i, Bool.eqb (Check b i) set) (seqZ from (hi - from + 1)).

End Bitmap.

(** The bitmap that a nil or absent [Bitmap] stands for. *)
Definition check_opt (used : option Bitmap.t) (p : Z) : bool :=
  match used with
  | Some b => Bitmap.Check b p
  | None => false
  end.

(** ** Data model (the structs the index reads; structs.go) *)

Module Port.
Record t := mk { Label : string; Value : Z; To : Z; HostNetwork : string }.
End Port.

Module AllocatedPortMapping.
Record t := mk { Label : string; Value : Z; To : Z; HostIP : string }.
End AllocatedPortMapping.

Abbreviation AllocatedPorts := (list AllocatedPortMapping.t).

Module NetworkResource.
Record t := mk {
    Mode : string;
    Device : string;
    CIDR : string;
    IP : string;
    MBits : Z;
    DNS : option (list string);
    ReservedPorts : list Port.t;
    DynamicPorts : list Port.t
  }.
End NetworkResource.

Module NodeNetworkAddress.
Record t := mk { Alias : string; Address : string; ReservedPorts : string }.
End NodeNetworkAddress.

Module NodeNetworkResource.
Record t := mk { Mode : string; Addresses : list NodeNetworkAddress.t }.
End NodeNetworkResource.

Module NetworkIndex.
Record t := mk {
    TaskNetworks : list NetworkResource.t;
    GroupNetworks : list NodeNetworkResource.t;
    HostNetworks : gmap string (list NodeNetworkAddress.t);
    UsedPorts : gmap string Bitmap.t;
    AvailBandwidth : gmap string Z;
    UsedBandwidth : gmap string Z;
    MinDynamicPort : Z;
    MaxDynamicPort : Z
  }.

Definition with_TaskNetworks (v : list NetworkResource.t) (i : t) : t :=
    mk v (GroupNetworks i) (HostNetworks i) (UsedPorts i)
       (AvailBandwidth i) (UsedBandwidth i) (MinDynamicPort i) (MaxDynamicPort i).
Definition with_HostNetworks (v : gmap string (list NodeNetworkAddress.t)) (i : t) : t :=
    mk (TaskNetworks i) (GroupNetworks i) v (UsedPorts i)
       (AvailBandwidth i) (UsedBandwidth i) (MinDynamicPort i) (MaxDynamicPort i).
Definition with_UsedPorts (v : gmap string Bitmap.t) (i : t) : t :=
    mk (TaskNetworks i) (GroupNetworks i) (HostNetworks i) v
       (AvailBandwidth i) (UsedBandwidth i) (MinDynamicPort i) (MaxDynamicPort i).
Definition with_AvailBandwidth (v : gmap string Z) (i : t) : t :=
    mk (TaskNetworks i) (GroupNetworks i) (HostNetworks i) (UsedPorts i)
       v (UsedBandwidth i) (MinDynamicPort i) (MaxDynamicPort i).
Definition with_UsedBandwidth (v : gmap string Z) (i : t) : t :=
    mk (TaskNetworks i) (GroupNetworks i) (HostNetworks i) (UsedPorts i)
       (AvailBandwidth i) v (MinDynamicPort i) (MaxDynamicPort i).
Definition with_MinDynamicPort (v : Z) (i : t) : t :=
    mk (TaskNetworks i) (GroupNetworks i) (HostNetworks i) (UsedPorts i)
       (AvailBandwidth i) (UsedBandwidth i) v (MaxDynamicPort i).
Definition with_MaxDynamicPort (v : Z) (i : t) : t :=
    mk (TaskNetworks i) (GroupNetworks i) (HostNetworks i) (UsedPorts i)
       (AvailBandwidth i) (UsedBandwidth i) (MinDynamicPort i) v.
End NetworkIndex.

(** [NewNetworkIndex] (lines 72-81). *)
Definition NewNetworkIndex : NetworkIndex.t :=
  NetworkIndex.mk [] [] ∅ ∅ ∅ ∅ DefaultMinDynamicPort DefaultMaxDynamicPort.

(** Reading a Go map of ints at a key that may be absent gives 0; reading a
    map of slices gives the empty slice. *)
Definition bandwidth (m : gmap string Z) (device : string) : Z :=
  default 0 (m !! device).
Definition addresses (idx : NetworkIndex.t) (alias : string) : list NodeNetworkAddress.t :=
  default [] (NetworkIndex.HostNetworks idx !! alias).

(** ** The used ports of an address *)

(** [getUsedPortsFor] (lines 83-97). When the address has no bitmap yet,
    one is taken from the pool and cleared, or a new one is made; the two
    branches store the same all-zero bitmap ([Clear_is_new] below), so the
    pool is not part of the state. Bitmaps are values here: the slice
    [used] that the Go code keeps writing through is the bitmap stored
    under [ip], and [store_used] writes it back. *)
Definition getUsedPortsFor (idx : NetworkIndex.t) (ip : string) : Bitmap.t * NetworkIndex.t :=
  match NetworkIndex.UsedPorts idx !! ip with
  | Some used => (used, idx)
  | None =>
      let used := Bitmap.NewBitmap MaxValidPort in
      (used, NetworkIndex.with_UsedPorts (<[ip := used]> (NetworkIndex.UsedPorts idx)) idx)
  end.

Definition store_used (idx : NetworkIndex.t) (ip : string) (used : Bitmap.t) : NetworkIndex.t :=
  NetworkIndex.with_UsedPorts (<[ip := used]> (NetworkIndex.UsedPorts idx)) idx.

(** [Release] (lines 176-180) hands every bitmap of the index to the pool
    and leaves the index as it is, the map [UsedPorts] included; with the
    pool outside the state nothing is left of it. *)
Definition Release (idx : NetworkIndex.t) : NetworkIndex.t := idx.

(** What is observed of the used ports: [used_ports[ip].check(p)], an
    absent entry being the empty set. *)
Definition port_used (idx : NetworkIndex.t) (ip : string) (p : Z) : bool :=
  check_opt (NetworkIndex.UsedPorts idx !! ip) p.

(** ** Intake of reservations *)

(** [fmt.Sprintf] of the messages of this file: [%d] is the decimal
    numeral, [%v] of a slice of strings is the bracketed, space-separated
    list. *)
Definition fmt_d (v : Z) : string := pretty v.
Definition fmt_strings (r : list string) : string := "[" +:+ String.concat " " r +:+ "]".

Definition invalid_port (v : Z) : bool := (v <? 0) || (v >=? MaxValidPort).

(** How a loop with a [return] in its body ends. *)
Inductive flow (S R : Type) : Type :=
| Next (s : S)
| Return (r : R)
| Panicked.
Arguments Next {S R} s.
Arguments Return {S R} r.
Arguments Panicked {S R}.

(** The body of [AddReserved] for one slice of ports (lines 408-420):
    [used] is the bitmap of [n.IP], the other two are the named results. *)
Fixpoint AddReserved_ports (ports : list Port.t)
    (used : Bitmap.t) (collide : bool) (reasons : list string)
  : Bitmap.t * flow (bool * list string) (bool * list string) :=
  match ports with
  | [] => (used, Next (collide, reasons))
  | port :: rest =>
      let v := Port.Value port in
      if invalid_port v then
        (used, Return (true, ["invalid port " +:+ fmt_d v]))
      else if Bitmap.Check used (uint v) then
        AddReserved_ports rest used true
          (reasons ++ ["port " +:+ fmt_d v +:+ " already in use"])
      else
        match Bitmap.Set_ used (uint v) with
        | Some used' => AddReserved_ports rest used' collide reasons
        | None => (used, Panicked)
        end
  end.

(** [AddReserved] (lines 403-426). *)
Definition AddReserved (idx : NetworkIndex.t) (n : NetworkResource.t)
  : result (bool * list string) * NetworkIndex.t :=
  let ip := NetworkResource.IP n in
  let '(used, idx) := getUsedPortsFor idx ip in
  match AddReserved_ports (NetworkResource.ReservedPorts n) used false [] with
  | (used, Next (collide, reasons)) =>
      match AddReserved_ports (NetworkResource.DynamicPorts n) used collide reasons with
      | (used, Next (collide, reasons)) =>
          let idx := store_used idx ip used in
          let dev := NetworkResource.Device n in
          let bw := int_add (bandwidth (NetworkIndex.UsedBandwidth idx) dev)
                            (NetworkResource.MBits n) in
          (Ok (collide, reasons),
           NetworkIndex.with_UsedBandwidth (<[dev := bw]> (NetworkIndex.UsedBandwidth idx)) idx)
      | (used, Return r) => (Ok r, store_used idx ip used)
      | (used, Panicked) => (Panic, store_used idx ip used)
      end
  | (used, Return r) => (Ok r, store_used idx ip used)
  | (used, Panicked) => (Panic, store_used idx ip used)
  end.

(** [AddReservedPorts] (lines 428-444), from the point where the named
    results are [collide] and [reasons]. *)
Fixpoint AddReservedPorts_from (ports : AllocatedPorts)
    (collide : bool) (reasons : list string) (idx : NetworkIndex.t)
  : result (bool * list string) * NetworkIndex.t :=
  match ports with
  | [] => (Ok (collide, reasons), idx)
  | port :: rest =>
      let ip := AllocatedPortMapping.HostIP port in
      let v := AllocatedPortMapping.Value port in
      let '(used, idx) := getUsedPortsFor idx ip in
      if invalid_port v then
        (Ok (true, ["invalid port " +:+ fmt_d v]), idx)
      else if Bitmap.Check used (uint v) then
        AddReservedPorts_from rest true
          (reasons ++ ["port " +:+ fmt_d v +:+ " already in use"]) idx
      else
        match Bitmap.Set_ used (uint v) with
        | Some used' => AddReservedPorts_from rest collide reasons (store_used idx ip used')
        | None => (Panic, idx)
        end
  end.

Definition AddReservedPorts (idx : NetworkIndex.t) (ports : AllocatedPorts)
  : result (bool * list string) * NetworkIndex.t :=
  AddReservedPorts_from ports false [] idx.

(** ** Intake of allocations *)

Module Resources.
Record t := mk { Networks : list NetworkResource.t }.
End Resources.

Module AllocatedTaskResources.
Record t := mk { Networks : list NetworkResource.t }.
End AllocatedTaskResources.

Module AllocatedSharedResources.
Record t := mk { Networks : list NetworkResource.t; Ports : AllocatedPorts }.
End AllocatedSharedResources.

(** A Go map that the code ranges over is the list of its entries in the
    order of that iteration (which Go leaves unspecified). *)
Module AllocatedResources.
Record t := mk {
  Tasks : list (string * AllocatedTaskResources.t);
  Shared : AllocatedSharedResources.t
}.
End AllocatedResources.

Module Allocation.
Record t := mk {
  ID : string;
  DesiredStatus : string;
  ClientStatus : string;
  AllocatedResources : option AllocatedResources.t;
  TaskResources : list (string * Resources.t)
}.
End Allocation.

(** The loop over [Shared.Networks] (lines 365-370). *)
Fixpoint AddAllocs_networks (id : string) (networks : list NetworkResource.t)
    (collide : bool) (reason : string) (idx : NetworkIndex.t)
  : result (bool * string) * NetworkIndex.t :=
  match networks with
  | [] => (Ok (collide, reason), idx)
  | network :: rest =>
      match AddReserved idx network with
      | (Ok (c, r), idx) =>
          if c then
            AddAllocs_networks id rest true
              ("collision when reserving port for network " +:+ NetworkResource.IP network
               +:+ " in alloc " +:+ id +:+ ": " +:+ fmt_strings r) idx
          else AddAllocs_networks id rest collide reason idx
      | (_, idx) => (Panic, idx)
      end
  end.

(** The loops over the tasks of an allocation (lines 373-382 and, with the
    prefix "(deprecated) ", lines 386-395): only the first network of a
    task counts. *)
Fixpoint AddAllocs_tasks (prefix id : string) (tasks : list (string * list NetworkResource.t))
    (collide : bool) (reason : string) (idx : NetworkIndex.t)
  : result (bool * string) * NetworkIndex.t :=
  match tasks with
  | [] => (Ok (collide, reason), idx)
  | (task, networks) :: rest =>
      match networks with
      | [] => AddAllocs_tasks prefix id rest collide reason idx
      | n :: _ =>
          match AddReserved idx n with
          | (Ok (c, r), idx) =>
              if c then
                AddAllocs_tasks prefix id rest true
                  (prefix +:+ "collision when reserving port for network "
                   +:+ NetworkResource.IP n +:+ " in task " +:+ task
                   +:+ " of alloc " +:+ id +:+ ": " +:+ fmt_strings r) idx
              else AddAllocs_tasks prefix id rest collide reason idx
          | (_, idx) => (Panic, idx)
          end
      end
  end.

(** The body of the loop of [AddAllocs] for an allocation that is not
    terminal (lines 354-396). *)
Definition AddAllocs_alloc (alloc : Allocation.t)
    (collide : bool) (reason : string) (idx : NetworkIndex.t)
  : result (bool * string) * NetworkIndex.t :=
  let id := Allocation.ID alloc in
  match Allocation.AllocatedResources alloc with
  | Some ar =>
      let shared := AllocatedResources.Shared ar in
      if (0 <? Z.of_nat (length (AllocatedSharedResources.Ports shared))) then
        match AddReservedPorts idx (AllocatedSharedResources.Ports shared) with
        | (Ok (c, r), idx) =>
            if c then
              (Ok (true, "collision when reserving port for alloc " +:+ id
                         +:+ ": " +:+ fmt_strings r), idx)
            else (Ok (collide, reason), idx)
        | (_, idx) => (Panic, idx)
        end
      else
        match AddAllocs_networks id (AllocatedSharedResources.Networks shared)
                collide reason idx with
        | (Ok (collide, reason), idx) =>
            AddAllocs_tasks "" id
              (map (λ tr, (tr.1, AllocatedTaskResources.Networks tr.2))
                   (AllocatedResources.Tasks ar))
              collide reason idx
        | other => other
        end
  | None =>
      AddAllocs_tasks "(deprecated) " id
        (map (λ tr, (tr.1, Resources.Networks tr.2)) (Allocation.TaskResources alloc))
        collide reason idx
  end.

(** ** The description of a node *)

Module NodeResources.
Record t := mk {
  Networks : list NetworkResource.t;
  NodeNetworks : list NodeNetworkResource.t;
  MinDynamicPort : Z;
  MaxDynamicPort : Z
}.
End NodeResources.

Module NodeReservedResources.
Record t := mk { ReservedHostPorts : string }.
End NodeReservedResources.

Module Node.
Record t := mk {
  NodeResources : option NodeResources.t;
  Resources : option Resources.t;
  ReservedResources : option NodeReservedResources.t;
  Reserved : option Resources.t
}.
End Node.

(** [for _, p := range ports { used.Set(p) }]; [None] when a [Set] panics. *)
Fixpoint set_all (used : Bitmap.t) (ports : list Z) : option Bitmap.t :=
  match ports with
  | [] => Some used
  | p :: rest =>
      match Bitmap.Set_ used p with
      | Some used' => set_all used' rest
      | None => None
      end
  end.

(** One slice of ports of a legacy reserved network (lines 254-264). Note
    the guard: [MaxValidPort] itself passes it. *)
Fixpoint SetNode_legacy_ports (ports : list Port.t) (used : Bitmap.t) (globalResPorts : list Z)
  : Bitmap.t * flow (list Z) string :=
  match ports with
  | [] => (used, Next globalResPorts)
  | p :: rest =>
      let v := Port.Value p in
      if (v >? MaxValidPort) || (v <? 0) then
        (used, Return ("invalid port " +:+ fmt_d v +:+ " for reserved_ports"))
      else
        match Bitmap.Set_ used (uint v) with
        | Some used' => SetNode_legacy_ports rest used' (globalResPorts ++ [uint v])
        | None => (used, Panicked)
        end
  end.

(** The loop over [node.Reserved.Networks] (lines 251-271). *)
Fixpoint SetNode_legacy (networks : list NetworkResource.t) (globalResPorts : list Z)
    (idx : NetworkIndex.t) : flow (list Z) string * NetworkIndex.t :=
  match networks with
  | [] => (Next globalResPorts, idx)
  | n :: rest =>
      let ip := NetworkResource.IP n in
      let '(used, idx) := getUsedPortsFor idx ip in
      match SetNode_legacy_ports (NetworkResource.ReservedPorts n) used globalResPorts with
      | (used, Next globalResPorts) =>
          match SetNode_legacy_ports (NetworkResource.DynamicPorts n) used globalResPorts with
          | (used, Next globalResPorts) =>
              let idx := store_used idx ip used in
              let dev := NetworkResource.Device n in
              let idx :=
                if String.eqb dev "" then idx
                else
                  let bw := int_add (bandwidth (NetworkIndex.UsedBandwidth idx) dev)
                                    (NetworkResource.MBits n) in
                  NetworkIndex.with_UsedBandwidth
                    (<[dev := bw]> (NetworkIndex.UsedBandwidth idx)) idx in
              SetNode_legacy rest globalResPorts idx
          | (used, other) => (other, store_used idx ip used)
          end
      | (used, other) => (other, store_used idx ip used)
      end
  end.

(** The loop over the task networks (lines 277-288). *)
Fixpoint SetNode_taskNetworks (taskNetworks : list NetworkResource.t) (globalResPorts : list Z)
    (idx : NetworkIndex.t) : result unit * NetworkIndex.t :=
  match taskNetworks with
  | [] => (Ok tt, idx)
  | n :: rest =>
      let dev := NetworkResource.Device n in
      if String.eqb dev "" then SetNode_taskNetworks rest globalResPorts idx
      else
        let idx := NetworkIndex.with_TaskNetworks (NetworkIndex.TaskNetworks idx ++ [n]) idx in
        let idx := NetworkIndex.with_AvailBandwidth
                     (<[dev := NetworkResource.MBits n]> (NetworkIndex.AvailBandwidth idx)) idx in
        let ip := NetworkResource.IP n in
        let '(used, idx) := getUsedPortsFor idx ip in
        match set_all used globalResPorts with
        | Some used => SetNode_taskNetworks rest globalResPorts (store_used idx ip used)
        | None => (Panic, idx)
        end
  end.

(** ** Selection of dynamic ports *)

(** [isPortReserved] (lines 752-759). *)
Fixpoint isPortReserved (haystack : list Z) (needle : Z) : bool :=
  match haystack with
  | [] => false
  | item :: rest => if item =? needle then true else isPortReserved rest needle
  end.

(** The label [PICK] of [getDynamicPortsStochastic] (lines 729-745):
    [left] attempts remain, that is [attempts = maxRandPortAttempts - left]
    on entry. *)
Fixpoint stochastic_pick (left : nat) (nodeUsed : option Bitmap.t)
    (minDynamicPort maxDynamicPort : Z) (reserved dynamic : list Z) (rng : Rng)
  : result Z * Rng :=
  match left with
  | O => (Err "stochastic dynamic port selection failed", rng)
  | S left' =>
      match rand_Intn (int_sub maxDynamicPort minDynamicPort) rng with
      | (Ok r, rng) =>
          let randPort := int_add minDynamicPort r in
          if check_opt nodeUsed (uint randPort) then
            stochastic_pick left' nodeUsed minDynamicPort maxDynamicPort reserved dynamic rng
          else if isPortReserved reserved randPort || isPortReserved dynamic randPort then
            stochastic_pick left' nodeUsed minDynamicPort maxDynamicPort reserved dynamic rng
          else (Ok randPort, rng)
      | (_, rng) => (Panic, rng)
      end
  end.

(** The loop [for i := 0; i < count; i++], with [todo = count - i]. *)
Fixpoint stochastic_loop (todo : nat) (nodeUsed : option Bitmap.t)
    (minDynamicPort maxDynamicPort : Z) (reserved dynamic : list Z) (rng : Rng)
  : result (list Z) * Rng :=
  match todo with
  | O => (Ok dynamic, rng)
  | S todo' =>
      match stochastic_pick (Z.to_nat maxRandPortAttempts) nodeUsed
              minDynamicPort maxDynamicPort reserved dynamic rng with
      | (Ok randPort, rng) =>
          stochastic_loop todo' nodeUsed minDynamicPort maxDynamicPort
            reserved (dynamic ++ [randPort]) rng
      | (Err e, rng) => (Err e, rng)
      | (Panic, rng) => (Panic, rng)
      end
  end.

(** [getDynamicPortsStochastic] (lines 721-749). *)
Definition getDynamicPortsStochastic (nodeUsed : option Bitmap.t)
    (minDynamicPort maxDynamicPort : Z) (reservedPorts : list Port.t) (count : Z) (rng : Rng)
  : result (list Z) * Rng :=
  let reserved := map Port.Value reservedPorts in
  stochastic_loop (Z.to_nat count) nodeUsed minDynamicPort maxDynamicPort reserved [] rng.

(** The swap loop of [getDynamicPortsPrecise] (lines 708-711): [i] is the
    loop index and [todo = numDyn - i]. An index outside the slice
    panics. *)
Fixpoint precise_shuffle (todo : nat) (i : nat) (numAvailable : Z)
    (availablePorts : list Z) (rng : Rng) : result (list Z) * Rng :=
  match todo with
  | O => (Ok availablePorts, rng)
  | S todo' =>
      match rand_Intn numAvailable rng with
      | (Ok j, rng) =>
          match availablePorts !! i, availablePorts !! Z.to_nat j with
          | Some xi, Some xj =>
              precise_shuffle todo' (S i) numAvailable
                (<[Z.to_nat j := xi]> (<[i := xj]> availablePorts)) rng
          | _, _ => (Panic, rng)
          end
      | (_, rng) => (Panic, rng)
      end
  end.

(** [getDynamicPortsPrecise] (lines 679-714). [Copy] and [NewBitmap] do
    not fail in the bitmap of the spec, so the two early returns of an
    error of theirs have no counterpart. *)
Definition getDynamicPortsPrecise (nodeUsed : option Bitmap.t)
    (minDynamicPort maxDynamicPort : Z) (reserved : list Port.t) (numDyn : Z) (rng : Rng)
  : result (list Z) * Rng :=
  let usedSet :=
    match nodeUsed with
    | Some b => Bitmap.Copy b
    | None => Bitmap.NewBitmap MaxValidPort
    end in
  match set_all usedSet (map (λ port, uint (Port.Value port)) reserved) with
  | None => (Panic, rng)
  | Some usedSet =>
      let availablePorts :=
        Bitmap.IndexesInRange usedSet false (uint minDynamicPort) (uint maxDynamicPort) in
      if Z.of_nat (length availablePorts) <? numDyn then
        (Err "dynamic port selection failed", rng)
      else
        let numAvailable := Z.of_nat (length availablePorts) in
        match precise_shuffle (Z.to_nat numDyn) 0 numAvailable availablePorts rng with
        | (Ok availablePorts, rng) =>
            if numDyn <? 0 then (Panic, rng)
            else (Ok (take (Z.to_nat numDyn) availablePorts), rng)
        | other => other
        end
  end.

(** ** Offers for a group network ask *)

(** The inner loop of the reserved branch of [AssignPorts] (lines
    516-543): every path through its body leaves the loop, so only the
    first address is ever looked at. *)
Definition AssignPorts_reserved_port (port : Port.t) (idx : NetworkIndex.t)
  : result AllocatedPortMapping.t * NetworkIndex.t :=
  match addresses idx (Port.HostNetwork port) with
  | addr :: _ =>
      let '(used, idx) := getUsedPortsFor idx (NodeNetworkAddress.Address addr) in
      if invalid_port (Port.Value port) then
        (Err ("invalid port " +:+ fmt_d (Port.Value port) +:+ " (out of range)"), idx)
      else if Bitmap.Check used (uint (Port.Value port)) then
        (Err ("reserved port collision " +:+ Port.Label port +:+ "="
              +:+ fmt_d (Port.Value port)), idx)
      else
        (Ok (AllocatedPortMapping.mk (Port.Label port) (Port.Value port) (Port.To port)
               (NodeNetworkAddress.Address addr)), idx)
  | [] =>
      (Err ("no addresses available for " +:+ Port.HostNetwork port +:+ " network"), idx)
  end.

(** The loop over [ask.ReservedPorts] (lines 509-546). *)
Fixpoint AssignPorts_reserved (ports : list Port.t)
    (offer : AllocatedPorts) (reservedIdx : gmap string (list Port.t)) (idx : NetworkIndex.t)
  : result (AllocatedPorts * gmap string (list Port.t)) * NetworkIndex.t :=
  match ports with
  | [] => (Ok (offer, reservedIdx), idx)
  | port :: rest =>
      let hn := Port.HostNetwork port in
      let reservedIdx := <[hn := default [] (reservedIdx !! hn) ++ [port]]> reservedIdx in
      match AssignPorts_reserved_port port idx with
      | (Ok allocPort, idx) => AssignPorts_reserved rest (offer ++ [allocPort]) reservedIdx idx
      | (Err e, idx) => (Err e, idx)
      | (Panic, idx) => (Panic, idx)
      end
  end.

(** The inner loop of the dynamic branch (lines 551-584), from the point
    where [addrErr] has the value given; [None] is the nil error. *)
Fixpoint AssignPorts_dynamic_port (addrs : list NodeNetworkAddress.t) (addrErr : option string)
    (port : Port.t) (reserved : list Port.t) (idx : NetworkIndex.t) (rng : Rng)
  : result AllocatedPortMapping.t * NetworkIndex.t * Rng :=
  match addrs with
  | [] =>
      match addrErr with
      | Some e => (Err e, idx, rng)
      | None =>
          (Err ("no addresses available for " +:+ Port.HostNetwork port +:+ " network"),
           idx, rng)
      end
  | addr :: rest =>
      let '(used, idx) := getUsedPortsFor idx (NodeNetworkAddress.Address addr) in
      let minP := NetworkIndex.MinDynamicPort idx in
      let maxP := NetworkIndex.MaxDynamicPort idx in
      let emit (dynPorts : list Z) (rng : Rng) :=
        match dynPorts with
        | v :: _ =>
            let to := if Port.To port =? -1 then v else Port.To port in
            (Ok (AllocatedPortMapping.mk (Port.Label port) v to
                   (NodeNetworkAddress.Address addr)), idx, rng)
        | [] => (Panic, idx, rng)
        end in
      match getDynamicPortsStochastic (Some used) minP maxP reserved 1 rng with
      | (Ok dynPorts, rng) => emit dynPorts rng
      | (Panic, rng) => (Panic, idx, rng)
      | (Err _, rng) =>
          match getDynamicPortsPrecise (Some used) minP maxP reserved 1 rng with
          | (Ok dynPorts, rng) => emit dynPorts rng
          | (Panic, rng) => (Panic, idx, rng)
          | (Err e, rng) => AssignPorts_dynamic_port rest (Some e) port reserved idx rng
          end
      end
  end.

(** The loop over [ask.DynamicPorts] (lines 548-586). *)
Fixpoint AssignPorts_dynamic (ports : list Port.t)
    (offer : AllocatedPorts) (reservedIdx : gmap string (list Port.t))
    (idx : NetworkIndex.t) (rng : Rng)
  : result AllocatedPorts * NetworkIndex.t * Rng :=
  match ports with
  | [] => (Ok offer, idx, rng)
  | port :: rest =>
      let hn := Port.HostNetwork port in
      match AssignPorts_dynamic_port (addresses idx hn) None port
              (default [] (reservedIdx !! hn)) idx rng with
      | (Ok allocPort, idx, rng) =>
          AssignPorts_dynamic rest (offer ++ [allocPort]) reservedIdx idx rng
      | (Err e, idx, rng) => (Err e, idx, rng)
      | (Panic, idx, rng) => (Panic, idx, rng)
      end
  end.

(** [AssignPorts] (lines 503-589). *)
Definition AssignPorts (idx : NetworkIndex.t) (ask : NetworkResource.t) (rng : Rng)
  : result AllocatedPorts * NetworkIndex.t * Rng :=
  match AssignPorts_reserved (NetworkResource.ReservedPorts ask) [] ∅ idx with
  | (Ok (offer, reservedIdx), idx) =>
      AssignPorts_dynamic (NetworkResource.DynamicPorts ask) offer reservedIdx idx rng
  | (Err e, idx) => (Err e, idx, rng)
  | (Panic, idx) => (Panic, idx, rng)
  end.

(** ** The methods that call out of the file

    [ParsePortRanges] (funcs.go), [Allocation.TerminalStatus] (structs.go)
    and the functions of Go's [net] package are not among the sources; the
    methods that call them are stated for any such functions. *)

Definition IP := list Z.

Module IPNet.
Record t := mk { IP : list Z; Mask : list Z }.
End IPNet.

(** [%q] of [fmt] on a string is [strconv.Quote]: the string between
    double quotes, where a double quote and a backslash get a backslash
    before them, the control characters are written [\a], [\b], [\f],
    [\n], [\r], [\t], [\v] or, for the others and for DEL, [\x] and two
    lower-case hexadecimal digits, and every other ASCII character stands
    for itself. On bytes from 128 on Go decodes UTF-8 and asks
    [unicode.IsPrint]; they are kept here, which is what Go does with the
    printable characters, and what is said below about the text of a
    message that holds a quoted string is said for ASCII strings
    ([is_ascii]). *)
Definition byte_value (c : ascii) : Z := Z.of_N (N_of_ascii c).

Definition lowerhex (d : Z) : ascii :=
  ascii_of_N (Z.to_N (if d <? 10 then 48 + d else 87 + d)).

Definition quote_byte (c : ascii) : string :=
  let n := byte_value c in
  let escaped (e : ascii) := String "092"%char (String e "") in
  if n =? 34 then escaped "034"%char
  else if n =? 92 then escaped "092"%char
  else if n =? 7 then escaped "a"%char
  else if n =? 8 then escaped "b"%char
  else if n =? 12 then escaped "f"%char
  else if n =? 10 then escaped "n"%char
  else if n =? 13 then escaped "r"%char
  else if n =? 9 then escaped "t"%char
  else if n =? 11 then escaped "v"%char
  else if (n <? 32) || (n =? 127) then
    String "092"%char
      (String "x"%char (String (lowerhex (n / 16)) (String (lowerhex (n mod 16)) "")))
  else String c "".

Fixpoint quote_bytes (s : string) : string :=
  match s with
  | EmptyString => ""
  | String c rest => quote_byte c +:+ quote_bytes rest
  end.

Definition fmt_q (s : string) : string :=
  String "034"%char (quote_bytes s +:+ String "034"%char "").

(** The string holds ASCII characters only. *)
Fixpoint is_ascii (s : string) : bool :=
  match s with
  | EmptyString => true
  | String c rest => (byte_value c <? 128) && is_ascii rest
  end.

Section Index.

Variable ParsePortRanges : string → result (list Z).
Variable TerminalStatus : Allocation.t → bool.
Variable net_ParseCIDR : string → option (IP * IPNet.t).
Variable net_IP_Mask : IP → list Z → IP.
Variable net_IPNet_Contains : IPNet.t → IP → bool.
Variable net_IP_String : IP → string.

(** The loop over the addresses of the node networks (lines 296-326). The
    outer loop does nothing but run the inner one, so the addresses come
    here as one list. *)
Fixpoint SetNode_addresses (addrs : list NodeNetworkAddress.t) (globalResPorts : list Z)
    (idx : NetworkIndex.t) : result unit * NetworkIndex.t :=
  match addrs with
  | [] => (Ok tt, idx)
  | a :: rest =>
      let alias := NodeNetworkAddress.Alias a in
      let idx := NetworkIndex.with_HostNetworks
                   (<[alias := addresses idx alias ++ [a]]> (NetworkIndex.HostNetworks idx)) idx in
      let ip := NodeNetworkAddress.Address a in
      let '(used, idx) := getUsedPortsFor idx ip in
      match set_all used globalResPorts with
      | None => (Panic, idx)
      | Some used =>
          if String.eqb (NodeNetworkAddress.ReservedPorts a) "" then
            SetNode_addresses rest globalResPorts (store_used idx ip used)
          else
            match ParsePortRanges (NodeNetworkAddress.ReservedPorts a) with
            | Ok rp =>
                match set_all used (map uint rp) with
                | Some used => SetNode_addresses rest globalResPorts (store_used idx ip used)
                | None => (Panic, store_used idx ip used)
                end
            | Err e =>
                (Err ("error parsing reserved_ports for network " +:+ fmt_q alias +:+ ": " +:+ e),
                 store_used idx ip used)
            | Panic => (Panic, store_used idx ip used)
            end
      end
  end.

(** [SetNode] (lines 210-338). *)
Definition SetNode (idx : NetworkIndex.t) (node : Node.t) : result unit * NetworkIndex.t :=
  let legacyNetworks :=
    match Node.Resources node with
    | Some r => Resources.Networks r
    | None => []
    end in
  let taskNetworks :=
    match Node.NodeResources node with
    | Some nr =>
        match NodeResources.Networks nr with
        | [] => legacyNetworks
        | networks => networks
        end
    | None => legacyNetworks
    end in
  let legacyReserved (idx : NetworkIndex.t) :=
    match Node.Reserved node with
    | Some r => SetNode_legacy (Resources.Networks r) [] idx
    | None => (Next [], idx)
    end in
  let reserved :=
    match Node.ReservedResources node with
    | Some rr =>
        if String.eqb (NodeReservedResources.ReservedHostPorts rr) "" then legacyReserved idx
        else
          match ParsePortRanges (NodeReservedResources.ReservedHostPorts rr) with
          | Ok resPorts => (Next (map uint resPorts), idx)
          | Err e => (Return ("error parsing reserved_ports: " +:+ e), idx)
          | Panic => (Panicked, idx)
          end
    | None => legacyReserved idx
    end in
  match reserved with
  | (Return e, idx) => (Err e, idx)
  | (Panicked, idx) => (Panic, idx)
  | (Next globalResPorts, idx) =>
      match SetNode_taskNetworks taskNetworks globalResPorts idx with
      | (Ok _, idx) =>
          let nodeNetworks :=
            match Node.NodeResources node with
            | Some nr => NodeResources.NodeNetworks nr
            | None => []
            end in
          match SetNode_addresses (flat_map NodeNetworkResource.Addresses nodeNetworks)
                  globalResPorts idx with
          | (Ok _, idx) =>
              let idx :=
                match Node.NodeResources node with
                | Some nr =>
                    if NodeResources.MinDynamicPort nr >? 0
                    then NetworkIndex.with_MinDynamicPort (NodeResources.MinDynamicPort nr) idx
                    else idx
                | None => idx
                end in
              let idx :=
                match Node.NodeResources node with
                | Some nr =>
                    if NodeResources.MaxDynamicPort nr >? 0
                    then NetworkIndex.with_MaxDynamicPort (NodeResources.MaxDynamicPort nr) idx
                    else idx
                | None => idx
                end in
              (Ok tt, idx)
          | other => other
          end
      | other => other
      end
  end.

(** What the scheduler does to an index between two rounds of a
    preemption: only [UsedPorts] is cleared (comment above [SetNode]). *)
Definition clear_used_ports (idx : NetworkIndex.t) : NetworkIndex.t :=
  NetworkIndex.with_UsedPorts ∅ idx.

(** [AddAllocs] (lines 347-399), from the point where the named results
    are [collide] and [reason]. *)
Fixpoint AddAllocs_from (allocs : list Allocation.t)
    (collide : bool) (reason : string) (idx : NetworkIndex.t)
  : result (bool * string) * NetworkIndex.t :=
  match allocs with
  | [] => (Ok (collide, reason), idx)
  | alloc :: rest =>
      if TerminalStatus alloc then AddAllocs_from rest collide reason idx
      else
        match AddAllocs_alloc alloc collide reason idx with
        | (Ok (collide, reason), idx) => AddAllocs_from rest collide reason idx
        | other => other
        end
  end.

Definition AddAllocs (idx : NetworkIndex.t) (allocs : list Allocation.t)
  : result (bool * string) * NetworkIndex.t :=
  AddAllocs_from allocs false "" idx.

(** ** Offers for a task network ask *)

(** [incIP] (lines 483-497) on the octets from right to left. *)
Fixpoint incIP_rev (octets : list Z) : list Z :=
  match octets with
  | [] => []
  | o :: rest =>
      let o' := (o + 1) mod 256 in
      if o' >? 0 then o' :: rest else o' :: incIP_rev rest
  end.

Definition incIP (ip : IP) : IP := rev (incIP_rev (rev ip)).

(** The loop over the addresses of one network (lines 475-479). [S] is
    what the callback closes over. The loop ends when the address leaves
    the network, which the embedding cannot see: [fuel] bounds the number
    of addresses tried and [None] means that it ran out. *)
Fixpoint yieldIP_addresses {S : Type} (fuel : nat)
    (cb : NetworkResource.t → IP → S → result bool * S)
    (n : NetworkResource.t) (ipnet : IPNet.t) (ip : IP) (s : S)
  : option (result bool * S) :=
  match fuel with
  | O => None
  | Datatypes.S fuel' =>
      if net_IPNet_Contains ipnet ip then
        match cb n ip s with
        | (Ok true, s) => Some (Ok true, s)
        | (Ok false, s) => yieldIP_addresses fuel' cb n ipnet (incIP ip) s
        | (other, s) => Some (other, s)
        end
      else Some (Ok false, s)
  end.

(** The loop over the task networks (lines 470-480). *)
Fixpoint yieldIP_networks {S : Type} (fuel : nat)
    (cb : NetworkResource.t → IP → S → result bool * S)
    (networks : list NetworkResource.t) (s : S) : option (result unit * S) :=
  match networks with
  | [] => Some (Ok tt, s)
  | n :: rest =>
      match net_ParseCIDR (NetworkResource.CIDR n) with
      | None => yieldIP_networks fuel cb rest s
      | Some (ip, ipnet) =>
          match yieldIP_addresses fuel cb n ipnet (net_IP_Mask ip (IPNet.Mask ipnet)) s with
          | None => None
          | Some (Ok true, s) => Some (Ok tt, s)
          | Some (Ok false, s) => yieldIP_networks fuel cb rest s
          | Some (_, s) => Some (Panic, s)
          end
      end
  end.

(** [yieldIP] (lines 469-481). *)
Definition yieldIP {S : Type} (fuel : nat) (idx : NetworkIndex.t)
    (cb : NetworkResource.t → IP → S → result bool * S) (s : S)
  : option (result unit * S) :=
  yieldIP_networks fuel cb (NetworkIndex.TaskNetworks idx) s.

(** The check of the reserved ports in the callback (lines 615-627);
    [Some e] is the error the callback leaves in [err]. *)
Fixpoint AssignTaskNetwork_reserved (ports : list Port.t) (used : option Bitmap.t)
  : option string :=
  match ports with
  | [] => None
  | port :: rest =>
      if invalid_port (Port.Value port) then
        Some ("invalid port " +:+ fmt_d (Port.Value port) +:+ " (out of range)")
      else if check_opt used (uint (Port.Value port)) then
        Some ("reserved port collision " +:+ Port.Label port +:+ "="
              +:+ fmt_d (Port.Value port))
      else AssignTaskNetwork_reserved rest used
  end.

(** The loop under the label [BUILD_OFFER] (lines 657-665) over the slice
    that the offer shares with the ask; [None] is an index out of range. *)
Fixpoint build_offer (i : nat) (dynPorts : list Z) (ports : list Port.t)
  : option (list Port.t) :=
  match dynPorts with
  | [] => Some ports
  | port :: rest =>
      match ports !! i with
      | None => None
      | Some p =>
          let to := if Port.To p =? -1 then port else Port.To p in
          build_offer (Datatypes.S i) rest
            (<[i := Port.mk (Port.Label p) port to (Port.HostNetwork p)]> ports)
      end
  end.

(** What the callback closes over and writes: the named results and the
    random numbers. *)
Record AssignTaskNetwork_vars := mk_vars {
  out : option NetworkResource.t;
  err : option string;
  rand : Rng
}.

(** The callback of [AssignTaskNetwork] (lines 600-671). *)
Definition AssignTaskNetwork_cb (idx : NetworkIndex.t) (ask : NetworkResource.t)
    (n : NetworkResource.t) (offerIP : IP) (s : AssignTaskNetwork_vars)
  : result bool * AssignTaskNetwork_vars :=
  let offerIPStr := net_IP_String offerIP in
  let dev := NetworkResource.Device n in
  let availBandwidth := bandwidth (NetworkIndex.AvailBandwidth idx) dev in
  let usedBandwidth := bandwidth (NetworkIndex.UsedBandwidth idx) dev in
  if int_add usedBandwidth (NetworkResource.MBits ask) >? availBandwidth then
    (Ok false, mk_vars (out s) (Some "bandwidth exceeded") (rand s))
  else
    let used := NetworkIndex.UsedPorts idx !! offerIPStr in
    match AssignTaskNetwork_reserved (NetworkResource.ReservedPorts ask) used with
    | Some e => (Ok false, mk_vars (out s) (Some e) (rand s))
    | None =>
        let minP := NetworkIndex.MinDynamicPort idx in
        let maxP := NetworkIndex.MaxDynamicPort idx in
        let count := Z.of_nat (length (NetworkResource.DynamicPorts ask)) in
        let build (dynPorts : list Z) (rng : Rng) :=
          match build_offer 0 dynPorts (NetworkResource.DynamicPorts ask) with
          | Some ports =>
              let offer :=
                NetworkResource.mk (NetworkResource.Mode ask) dev ""
                  offerIPStr (NetworkResource.MBits ask) (NetworkResource.DNS ask)
                  (NetworkResource.ReservedPorts ask) ports in
              (Ok true, mk_vars (Some offer) None rng)
          | None => (Panic, mk_vars (out s) (err s) rng)
          end in
        match getDynamicPortsStochastic used minP maxP
                (NetworkResource.ReservedPorts ask) count (rand s) with
        | (Ok dynPorts, rng) => build dynPorts rng
        | (Panic, rng) => (Panic, mk_vars (out s) (err s) rng)
        | (Err _, rng) =>
            match getDynamicPortsPrecise used minP maxP
                    (NetworkResource.ReservedPorts ask) count rng with
            | (Ok dynPorts, rng) => build dynPorts rng
            | (Panic, rng) => (Panic, mk_vars (out s) (err s) rng)
            | (Err e, rng) => (Ok false, mk_vars (out s) (Some e) rng)
            end
        end
    end.

(** [AssignTaskNetwork] (lines 598-673): the pair of the named results
    when the call returns. *)
Definition AssignTaskNetwork (fuel : nat) (idx : NetworkIndex.t) (ask : NetworkResource.t)
    (rng : Rng) : option (result (option NetworkResource.t * option string) * Rng) :=
  match yieldIP fuel idx (AssignTaskNetwork_cb idx ask)
          (mk_vars None (Some "no networks available") rng) with
  | None => None
  | Some (Ok _, s) => Some (Ok (out s, err s), rand s)
  | Some (_, s) => Some (Panic, rand s)
  end.

End Index.

(** ** Port values in range *)

Abbreviation port_ok q := (0 <= Port.Value q < MaxValidPort).
Abbreviation mapping_ok m := (0 <= AllocatedPortMapping.Value m < MaxValidPort).

(** ** Sequences of reservations *)

(** A call of one of the two methods that reserve ports. *)
Inductive reserve_call : Type :=
| CallAddReserved (n : NetworkResource.t)
| CallAddReservedPorts (ports : AllocatedPorts).

Definition run_call (idx : NetworkIndex.t) (c : reserve_call)
  : result (bool * list string) * NetworkIndex.t :=
  match c with
  | CallAddReserved n => AddReserved idx n
  | CallAddReservedPorts ports => AddReservedPorts idx ports
  end.

(** The calls one after the other: what each returned, and the index at
    the end. *)
Fixpoint run_calls (idx : NetworkIndex.t) (calls : list reserve_call)
  : list (result (bool * list string)) * NetworkIndex.t :=
  match calls with
  | [] => ([], idx)
  | c :: rest =>
      let '(r, idx) := run_call idx c in
      let '(rs, idx) := run_calls idx rest in
      (r :: rs, idx)
  end.

(** The call asks for port [p] on the address [ip]. *)
Definition call_reserves (c : reserve_call) (ip : string) (p : Z) : Prop :=
  match c with
  | CallAddReserved n =>
      ip = NetworkResource.IP n
      ∧ p ∈ map Port.Value (NetworkResource.ReservedPorts n ++ NetworkResource.DynamicPorts n)
  | CallAddReservedPorts ports =>
      ∃ m, m ∈ ports ∧ AllocatedPortMapping.HostIP m = ip ∧ AllocatedPortMapping.Value m = p
  end.

(** Every port value the call supplies is in [0, MaxValidPort). *)
Definition call_in_range (c : reserve_call) : Prop :=
  match c with
  | CallAddReserved n =>
      Forall (λ q, 0 <= Port.Value q < MaxValidPort)
             (NetworkResource.ReservedPorts n ++ NetworkResource.DynamicPorts n)
  | CallAddReservedPorts ports =>
      Forall (λ m, 0 <= AllocatedPortMapping.Value m < MaxValidPort) ports
  end.

(** The call returned without reporting a collision. *)
Definition no_collision (r : result (bool * list string)) : Prop :=
  ∃ reasons, r = Ok (false, reasons).

Arguments fmt_d : simpl never.
Arguments fmt_strings : simpl never.
Arguments uint : simpl never.
Arguments int_add : simpl never.
Arguments int_sub : simpl never.
Arguments invalid_port : simpl never.
Arguments Bitmap.Check : simpl never.
Arguments Bitmap.Set_ : simpl never.
Arguments Bitmap.IndexesInRange : simpl never.
Arguments rand_Intn : simpl never.

(** ** What AddAllocs reserves and what it reports *)

(** A reservation of [AddAllocs]: the call that reserves the ports, and
    the reason that [AddAllocs] gives when that call reports a collision
    with the reasons [r]. *)
Definition reservation : Type := reserve_call * (list string → string).

(** The reservations of the networks of an allocation at the level of
    the task group. *)
Definition network_reservations (id : string) (networks : list NetworkResource.t)
  : list reservation :=
  map (λ n, (CallAddReserved n,
             λ r, "collision when reserving port for network " +:+ NetworkResource.IP n
                  +:+ " in alloc " +:+ id +:+ ": " +:+ fmt_strings r)) networks.

(** The reservations of the tasks of an allocation: the first network of
    every task that has one. *)
Definition task_reservations (prefix id : string)
    (tasks : list (string * list NetworkResource.t)) : list reservation :=
  flat_map (λ tn, match tn.2 with
                  | [] => []
                  | n :: _ =>
                      [(CallAddReserved n,
                        λ r, prefix +:+ "collision when reserving port for network "
                             +:+ NetworkResource.IP n +:+ " in task " +:+ tn.1
                             +:+ " of alloc " +:+ id +:+ ": " +:+ fmt_strings r)]
                  end) tasks.

(** The reservations that an allocation asks for: its allocated ports
    when it has any, else its group networks and then its tasks; for an
    allocation of the old layout its task resources. *)
Definition alloc_reservations (alloc : Allocation.t) : list reservation :=
  let id := Allocation.ID alloc in
  match Allocation.AllocatedResources alloc with
  | Some ar =>
      let shared := AllocatedResources.Shared ar in
      match AllocatedSharedResources.Ports shared with
      | _ :: _ =>
          [(CallAddReservedPorts (AllocatedSharedResources.Ports shared),
            λ r, "collision when reserving port for alloc " +:+ id +:+ ": " +:+ fmt_strings r)]
      | [] =>
          network_reservations id (AllocatedSharedResources.Networks shared)
          ++ task_reservations "" id
               (map (λ tr, (tr.1, AllocatedTaskResources.Networks tr.2))
                    (AllocatedResources.Tasks ar))
      end
  | None =>
      task_reservations "(deprecated) " id
        (map (λ tr, (tr.1, Resources.Networks tr.2)) (Allocation.TaskResources alloc))
  end.

(** The call returned with a collision. *)
Definition collided (r : result (bool * list string)) : Prop :=
  ∃ reasons, r = Ok (true, reasons).

(** The address and port pairs that a call asks for, in its order. *)
Definition call_keys (c : reserve_call) : list (string * Z) :=
  match c with
  | CallAddReserved n =>
      map (λ q, (NetworkResource.IP n, Port.Value q))
          (NetworkResource.ReservedPorts n ++ NetworkResource.DynamicPorts n)
  | CallAddReservedPorts ports =>
      map (λ m, (AllocatedPortMapping.HostIP m, AllocatedPortMapping.Value m)) ports
  end.

(** The two named results after the reservations [calls] returned
    [outs], from the values [cr] they had before: every collision sets
    [collide] and overwrites [reason]. *)
Fixpoint report (calls : list reservation) (outs : list (result (bool * list string)))
    (cr : bool * string) : bool * string :=
  match calls, outs with
  | (_, msg) :: calls, Ok (true, rs) :: outs => report calls outs (true, msg rs)
  | _ :: calls, _ :: outs => report calls outs cr
  | _, _ => cr
  end.

(** The reservations made one after the other: the named results and
    the index at the end. *)
Definition run_reservations (idx : NetworkIndex.t) (calls : list reservation)
    (cr : bool * string) : (bool * string) * NetworkIndex.t :=
  (report calls (run_calls idx (map fst calls)).1 cr, (run_calls idx (map fst calls)).2).

(** ** The named results of AddAllocs *)

(** What a stretch of [AddAllocs] does to its named results: it leaves
    them alone ([None]) or sets [collide] and overwrites [reason] with the
    reason of its last collision ([Some reason]). *)
Definition overwrite (last : option string) (cr : bool * string) : bool * string :=
  match last with
  | Some reason => (true, reason)
  | None => cr
  end.

(** ** Used ports on top of used ports *)

(** The bitmap [b1] has the bits of [b2] and the ports of [extra]. *)
Definition bits_over (extra : Z → bool) (b1 b2 : Bitmap.t) : Prop :=
  ∀ p, Bitmap.Check b1 p = extra p || Bitmap.Check b2 p.

(** The used ports of [idx1] are those of [idx2] and those of [idx0]. *)
Definition used_over (idx0 idx1 idx2 : NetworkIndex.t) : Prop :=
  ∀ ip p, port_used idx1 ip p = port_used idx0 ip p || port_used idx2 ip p.

(** ** The free ports of the dynamic range *)

(** Port [p] lies in the dynamic range (both bounds included), is a port
    number, is not set in [used] and is not the value of a reserved
    port. *)
Definition free_port (used : option Bitmap.t) (minDynamicPort maxDynamicPort : Z)
    (reserved : list Port.t) (p : Z) : Prop :=
  minDynamicPort <= p <= maxDynamicPort
  ∧ 0 <= p < MaxValidPort
  ∧ check_opt used p = false
  ∧ p ∉ map Port.Value reserved.

(** ** What an offer says about the ask *)

(** The mapping [m] that answers the reserved port [port]: it copies the
    port and binds it to the first address of its host network. *)
Definition reserved_mapping (idx : NetworkIndex.t) (port : Port.t)
    (m : AllocatedPortMapping.t) : Prop :=
  ∃ addr, head (addresses idx (Port.HostNetwork port)) = Some addr
          ∧ m = AllocatedPortMapping.mk (Port.Label port) (Port.Value port) (Port.To port)
                  (NodeNetworkAddress.Address addr).

(** The reserved port [port] passes the checks of [AssignPorts]: its host
    network has an address, its value is a port number, and the port is
    free on the first address. *)
Definition reserved_port_accepted (idx : NetworkIndex.t) (port : Port.t) : Prop :=
  ∃ addr, head (addresses idx (Port.HostNetwork port)) = Some addr
          ∧ 0 <= Port.Value port < MaxValidPort
          ∧ port_used idx (NodeNetworkAddress.Address addr) (Port.Value port) = false.

(** The port [p] of an offer of [AssignTaskNetwork] that answers the
    dynamic port [port] of the ask. *)
Definition task_port_rewritten (port p : Port.t) : Prop :=
  Port.Label p = Port.Label port
  ∧ Port.To p = (if Port.To port =? -1 then Port.Value p else Port.To port).

(** The mapping [m] that answers the dynamic port [port] in an index with
    the given bounds of the dynamic range. *)
Definition dynamic_mapping (minDynamicPort maxDynamicPort : Z)
    (port : Port.t) (m : AllocatedPortMapping.t) : Prop :=
  AllocatedPortMapping.Label m = Port.Label port
  ∧ AllocatedPortMapping.To m
    = (if Port.To port =? -1 then AllocatedPortMapping.Value m else Port.To port)
  ∧ (nonneg_int minDynamicPort → nonneg_int maxDynamicPort →
     minDynamicPort <= AllocatedPortMapping.Value m <= maxDynamicPort).

(** What holds of the named result [out] at every point of
    [AssignTaskNetwork]: it is nil, or an offer that copies the reserved
    ports of the ask and answers its dynamic ports one by one. *)
Definition offer_answers (ask : NetworkResource.t) (s : AssignTaskNetwork_vars) : Prop :=
  ∀ offer, out s = Some offer →
    NetworkResource.ReservedPorts offer = NetworkResource.ReservedPorts ask
    ∧ Forall2 task_port_rewritten (NetworkResource.DynamicPorts ask)
              (NetworkResource.DynamicPorts offer).

(** ** The rest of network.go *)

(** The body of [AddReservedPortsForIP] (lines 450-462); the ports are
    [uint64] values, so only the upper bound is guarded. *)
Fixpoint AddReservedPortsForIP_ports (ports : list Z)
    (used : Bitmap.t) (collide : bool) (reasons : list string)
  : Bitmap.t * flow (bool * list string) (bool * list string) :=
  match ports with
  | [] => (used, Next (collide, reasons))
  | port :: rest =>
      if port >=? MaxValidPort then
        (used, Return (true, ["invalid port " +:+ fmt_d port]))
      else if Bitmap.Check used (uint port) then
        AddReservedPortsForIP_ports rest used true
          (reasons ++ ["port " +:+ fmt_d port +:+ " already in use"])
      else
        match Bitmap.Set_ used (uint port) with
        | Some used' => AddReservedPortsForIP_ports rest used' collide reasons
        | None => (used, Panicked)
        end
  end.

(** [AddReservedPortsForIP] (lines 448-465). *)
Definition AddReservedPortsForIP (idx : NetworkIndex.t) (ports : list Z) (ip : string)
  : result (bool * list string) * NetworkIndex.t :=
  let '(used, idx) := getUsedPortsFor idx ip in
  match AddReservedPortsForIP_ports ports used false [] with
  | (used, Next r) => (Ok r, store_used idx ip used)
  | (used, Return r) => (Ok r, store_used idx ip used)
  | (used, Panicked) => (Panic, store_used idx ip used)
  end.

(** [copyAvailAddresses] (lines 156-172): the aliases without an address
    are left out of the copy; the nil map of an empty input reads as the
    empty map. *)
Definition copyAvailAddresses (a : gmap string (list NodeNetworkAddress.t))
  : gmap string (list NodeNetworkAddress.t) :=
  filter (λ kv, kv.2 ≠ []) a.

(** The value of an address read as a number, first octet first. *)
Definition ip_value (ip : IP) : Z := fold_left (λ acc o, acc * 256 + o) ip 0.

(** The value of octets read last octet first. *)
Fixpoint le_value (octs : list Z) : Z :=
  match octs with
  | [] => 0
  | o :: rest => o + 256 * le_value rest
  end.

(** An octet is a byte. *)
Definition octets (ip : IP) : Prop := Forall (λ o, 0 <= o < 256) ip.

(** The first address of a host network, as [AssignPorts] binds it. *)
Definition first_address (idx : NetworkIndex.t) (alias : string) : string :=
  match addresses idx alias with
  | addr :: _ => NodeNetworkAddress.Address addr
  | [] => ""
  end.

(** The task networks, the node addresses and the global reserved ports
    that [SetNode] reads off a node (lines 217-222, 291-297, 236-247). *)
Definition node_task_networks (node : Node.t) : list NetworkResource.t :=
  let legacyNetworks :=
    match Node.Resources node with
    | Some r => Resources.Networks r
    | None => []
    end in
  match Node.NodeResources node with
  | Some nr =>
      match NodeResources.Networks nr with
      | [] => legacyNetworks
      | networks => networks
      end
  | None => legacyNetworks
  end.

Definition node_addresses (node : Node.t) : list NodeNetworkAddress.t :=
  match Node.NodeResources node with
  | Some nr => flat_map NodeNetworkResource.Addresses (NodeResources.NodeNetworks nr)
  | None => []
  end.

Definition node_reserved_host_ports (node : Node.t) : string :=
  match Node.ReservedResources node with
  | Some rr => NodeReservedResources.ReservedHostPorts rr
  | None => ""
  end.

(** The address and the port that a mapping asks for. *)
Definition mapping_key (m : AllocatedPortMapping.t) : string * Z :=
  (AllocatedPortMapping.HostIP m, AllocatedPortMapping.Value m).

(** The port [p] asked for on the address [ip]. *)
Definition mapping_for (ip : string) (p : Z) : AllocatedPortMapping.t :=
  AllocatedPortMapping.mk "" p 0 ip.

(** The index [idx'] has the networks, the available bandwidth and the
    dynamic range of [idx], and every port that [idx] has in use. *)
Definition grows (idx idx' : NetworkIndex.t) : Prop :=
  NetworkIndex.TaskNetworks idx' = NetworkIndex.TaskNetworks idx
  ∧ NetworkIndex.GroupNetworks idx' = NetworkIndex.GroupNetworks idx
  ∧ NetworkIndex.HostNetworks idx' = NetworkIndex.HostNetworks idx
  ∧ NetworkIndex.AvailBandwidth idx' = NetworkIndex.AvailBandwidth idx
  ∧ NetworkIndex.MinDynamicPort idx' = NetworkIndex.MinDynamicPort idx
  ∧ NetworkIndex.MaxDynamicPort idx' = NetworkIndex.MaxDynamicPort idx
  ∧ ∀ ip p, port_used idx ip p = true → port_used idx' ip p = true.

(** The global reserved ports of a node that has no legacy reservations
    (lines 236-247): the ports that [node.ReservedResources] names, or
    none when it names none and [node.Reserved] is nil. *)
Definition global_ports_parse (ParsePortRanges : string → result (list Z))
    (node : Node.t) (resPorts : list Z) : Prop :=
  (node_reserved_host_ports node ≠ ""
   ∧ ParsePortRanges (node_reserved_host_ports node) = Ok resPorts)
  ∨ (node_reserved_host_ports node = "" ∧ Node.Reserved node = None ∧ resPorts = []).

(** The reserved ports of a host network address, when it names any,
    parse to port numbers. *)
Definition address_ports_parse (ParsePortRanges : string → result (list Z))
    (a : NodeNetworkAddress.t) : Prop :=
  NodeNetworkAddress.ReservedPorts a ≠ "" →
  ∃ rp, ParsePortRanges (NodeNetworkAddress.ReservedPorts a) = Ok rp
        ∧ Forall (λ p, 0 <= p < MaxValidPort) rp.

(** The host network address [a] reserves port [p] itself (lines
    313-324). *)
Definition address_reserves (ParsePortRanges : string → result (list Z))
    (a : NodeNetworkAddress.t) (p : Z) : Prop :=
  NodeNetworkAddress.ReservedPorts a ≠ ""
  ∧ ∃ rp, ParsePortRanges (NodeNetworkAddress.ReservedPorts a) = Ok rp ∧ p ∈ rp.

(** A node that reports its reservations the legacy way: nothing under
    [ReservedResources], and under [Reserved] the networks [pre], then a
    network whose only reserved port has the value [v]. *)
Definition legacy_node (pre : list NetworkResource.t) (v : Z) : Node.t :=
  Node.mk None None None
    (Some (Resources.mk
             (pre ++ [NetworkResource.mk "host" "eth0" "" "10.0.0.1" 0 None
                        [Port.mk "p" v 0 ""] []]))).

(** The mapping [m] answers the dynamic port [port] of an ask with the
    reserved ports [reservedPorts] by a free port: it binds an address of
    the host network of the port, on which its value is not in use, and
    its value is not that of a reserved port of the ask on the same host
    network. *)
Definition free_mapping (idx : NetworkIndex.t) (reservedPorts : list Port.t)
    (port : Port.t) (m : AllocatedPortMapping.t) : Prop :=
  (∃ addr, addr ∈ addresses idx (Port.HostNetwork port)
           ∧ AllocatedPortMapping.HostIP m = NodeNetworkAddress.Address addr)
  ∧ port_used idx (AllocatedPortMapping.HostIP m) (AllocatedPortMapping.Value m) = false
  ∧ ∀ r, r ∈ reservedPorts → Port.HostNetwork r = Port.HostNetwork port →
         Port.Value r ≠ AllocatedPortMapping.Value m.

(** What an offer of [AssignTaskNetwork] promises: it is on the device of
    a task network of the index and on an address that [yieldIP] handed
    out, it copies mode, bandwidth and DNS of the ask, the bandwidth fits
    on the device, the reserved ports of the ask are port numbers that
    are not in use on the address, and the dynamic ports are different
    from one another, not in use on the address and not reserved by the
    ask. *)
Definition sound_offer (net_IP_String : IP → string) (idx : NetworkIndex.t)
    (ask offer : NetworkResource.t) : Prop :=
  (∃ n ip, n ∈ NetworkIndex.TaskNetworks idx
           ∧ NetworkResource.Device offer = NetworkResource.Device n
           ∧ NetworkResource.IP offer = net_IP_String ip)
  ∧ NetworkResource.Mode offer = NetworkResource.Mode ask
  ∧ NetworkResource.MBits offer = NetworkResource.MBits ask
  ∧ NetworkResource.DNS offer = NetworkResource.DNS ask
  ∧ NetworkResource.CIDR offer = ""
  ∧ int_add (bandwidth (NetworkIndex.UsedBandwidth idx) (NetworkResource.Device offer))
            (NetworkResource.MBits ask)
    <= bandwidth (NetworkIndex.AvailBandwidth idx) (NetworkResource.Device offer)
  ∧ Forall (λ q, 0 <= Port.Value q < MaxValidPort
                 ∧ port_used idx (NetworkResource.IP offer) (Port.Value q) = false)
           (NetworkResource.ReservedPorts ask)
  ∧ NoDup (map Port.Value (NetworkResource.DynamicPorts offer))
  ∧ Forall (λ q, port_used idx (NetworkResource.IP offer) (Port.Value q) = false
                 ∧ Port.Value q ∉ map Port.Value (NetworkResource.ReservedPorts ask))
           (NetworkResource.DynamicPorts offer).

(** The named results of [AssignTaskNetwork] while no offer is found,
    and once one is. *)
Definition no_offer_yet (s : AssignTaskNetwork_vars) : Prop :=
  out s = None ∧ is_Some (err s).

Definition offer_found (net_IP_String : IP → string) (idx : NetworkIndex.t)
    (ask : NetworkResource.t) (s : AssignTaskNetwork_vars) : Prop :=
  ∃ offer, out s = Some offer ∧ err s = None ∧ sound_offer net_IP_String idx ask offer.

(** The walk of [yieldIP] over the addresses of a network, from the
    address [ip], leaves the network in fewer than [fuel] steps. *)
Definition leaves_network (net_IPNet_Contains : IPNet.t → IP → bool)
    (fuel : nat) (ipnet : IPNet.t) (ip : IP) : Prop :=
  ∃ k, (k < fuel)%nat ∧ net_IPNet_Contains ipnet (Nat.iter k incIP ip) = false.

(** Some address of the host network of the dynamic port [d] has a port
    of the dynamic range, bounds included, that is a port number, is not
    in use on the address and is not the value of a reserved port of the
    ask on that host network. *)
Definition dynamic_port_available (idx : NetworkIndex.t) (reservedPorts : list Port.t)
    (d : Port.t) : Prop :=
  ∃ addr p,
    addr ∈ addresses idx (Port.HostNetwork d)
    ∧ NetworkIndex.MinDynamicPort idx <= p <= NetworkIndex.MaxDynamicPort idx
    ∧ 0 <= p < MaxValidPort
    ∧ port_used idx (NodeNetworkAddress.Address addr) p = false
    ∧ ∀ r, r ∈ reservedPorts → Port.HostNetwork r = Port.HostNetwork d → Port.Value r ≠ p.

(** The loop over [ask.DynamicPorts] of [AllocatedPortsToNetworkResouce]
    (lines 766-771). [out] is the slice of dynamic ports of the deep copy
    of the ask, written by index; [None] is an index out of range.
    [AllocatedPorts.Get] (structs.go) is not among the sources and comes
    as the function [Get]. *)
Fixpoint AllocatedPortsToNetworkResouce_ports
    (Get : AllocatedPorts → string → option AllocatedPortMapping.t)
    (askPorts : list Port.t) (ports : AllocatedPorts) (i : nat) (out : list Port.t)
  : option (list Port.t) :=
  match askPorts with
  | [] => Some out
  | port :: rest =>
      match Get ports (Port.Label port) with
      | Some p =>
          match out !! i with
          | Some o =>
              AllocatedPortsToNetworkResouce_ports Get rest ports (S i)
                (<[i := Port.mk (Port.Label o) (AllocatedPortMapping.Value p)
                          (AllocatedPortMapping.To p) (Port.HostNetwork o)]> out)
          | None => None
          end
      | None => AllocatedPortsToNetworkResouce_ports Get rest ports (S i) out
      end
  end.

(** The loop over [node.NodeNetworks] (lines 773-778), which stops at the
    first network in host mode and reads its first address. *)
Fixpoint AllocatedPortsToNetworkResouce_node (nodeNetworks : list NodeNetworkResource.t)
    (ip : string) : result string :=
  match nodeNetworks with
  | [] => Ok ip
  | nw :: rest =>
      if String.eqb (NodeNetworkResource.Mode nw) "host" then
        match NodeNetworkResource.Addresses nw with
        | a :: _ => Ok (NodeNetworkAddress.Address a)
        | [] => Panic
        end
      else AllocatedPortsToNetworkResouce_node rest ip
  end.

(** The loop over [node.Networks] (lines 780-784), which does not stop. *)
Fixpoint AllocatedPortsToNetworkResouce_legacy (networks : list NetworkResource.t)
    (ip : string) : string :=
  match networks with
  | [] => ip
  | nw :: rest =>
      AllocatedPortsToNetworkResouce_legacy rest
        (if String.eqb (NetworkResource.Mode nw) "host" then NetworkResource.IP nw else ip)
  end.

(** [AllocatedPortsToNetworkResouce] (lines 763-787). The deep copy
    [ask.Copy()] of a value is the value. *)
Definition AllocatedPortsToNetworkResouce
    (Get : AllocatedPorts → string → option AllocatedPortMapping.t)
    (ask : NetworkResource.t) (ports : AllocatedPorts) (node : NodeResources.t)
  : result NetworkResource.t :=
  match AllocatedPortsToNetworkResouce_ports Get (NetworkResource.DynamicPorts ask) ports 0
          (NetworkResource.DynamicPorts ask) with
  | None => Panic
  | Some dynamicPorts =>
      let with_ip (ip : string) :=
        NetworkResource.mk (NetworkResource.Mode ask) (NetworkResource.Device ask)
          (NetworkResource.CIDR ask) ip (NetworkResource.MBits ask) (NetworkResource.DNS ask)
          (NetworkResource.ReservedPorts ask) dynamicPorts in
      if 0 <? Z.of_nat (length (NodeResources.NodeNetworks node)) then
        match AllocatedPortsToNetworkResouce_node (NodeResources.NodeNetworks node)
                (NetworkResource.IP ask) with
        | Ok ip => Ok (with_ip ip)
        | Err e => Err e
        | Panic => Panic
        end
      else
        Ok (with_ip (AllocatedPortsToNetworkResouce_legacy (NodeResources.Networks node)
                       (NetworkResource.IP ask)))
  end.

(** The port that answers the dynamic port [d] of an ask in the legacy
    view: value and mapped port of the allocated port with its label,
    when there is one. *)
Definition legacy_view (Get : AllocatedPorts → string → option AllocatedPortMapping.t)
    (ports : AllocatedPorts) (d : Port.t) : Port.t :=
  match Get ports (Port.Label d) with
  | Some p => Port.mk (Port.Label d) (AllocatedPortMapping.Value p)
                (AllocatedPortMapping.To p) (Port.HostNetwork d)
  | None => d
  end.

(** ** Concrete inputs: the scenarios of the specification *)

(** A port-range parser that knows the range strings of the scenarios. *)
Definition parse_table (s : string) : result (list Z) :=
  if String.eqb s "22" then Ok [22]
  else if String.eqb s "80,443" then Ok [80; 443]
  else if String.eqb s "1-3" then Ok [1; 2; 3]
  else Err ("unexpected range " +:+ s).

(** An allocation is terminal when it is to be stopped or has ended. *)
Definition terminal_by_status (a : Allocation.t) : bool :=
  String.eqb (Allocation.DesiredStatus a) "stop"
  || String.eqb (Allocation.DesiredStatus a) "evict"
  || String.eqb (Allocation.ClientStatus a) "complete"
  || String.eqb (Allocation.ClientStatus a) "failed"
  || String.eqb (Allocation.ClientStatus a) "lost".

(** IPv4 addresses as four octets; one network is known by name. *)
Definition ipv4_ParseCIDR (s : string) : option (IP * IPNet.t) :=
  if String.eqb s "192.168.0.100/31"
  then Some ([192; 168; 0; 100], IPNet.mk [192; 168; 0; 100] [255; 255; 255; 254])
  else None.
Definition ipv4_Mask (ip : IP) (mask : list Z) : IP := zip_with Z.land ip mask.
Definition ipv4_Contains (n : IPNet.t) (ip : IP) : bool :=
  bool_decide (zip_with Z.land ip (IPNet.Mask n) = IPNet.IP n).
Definition ipv4_String (ip : IP) : string := String.concat "." (map fmt_d ip).

Definition default_address : NodeNetworkAddress.t :=
  NodeNetworkAddress.mk "default" "10.0.0.1" "".
Definition second_address : NodeNetworkAddress.t :=
  NodeNetworkAddress.mk "default" "10.0.0.2" "".

(** An index with the host network "default" on the given addresses and
    the given dynamic range. *)
Definition index_with (addrs : list NodeNetworkAddress.t) (minP maxP : Z) : NetworkIndex.t :=
  NetworkIndex.with_HostNetworks {["default" := addrs]}
    (NetworkIndex.with_MinDynamicPort minP
       (NetworkIndex.with_MaxDynamicPort maxP NewNetworkIndex)).

Definition ask_of (reserved dynamic : list Port.t) : NetworkResource.t :=
  NetworkResource.mk "host" "" "" "" 0 None reserved dynamic.

(** Scenario 2: a global reservation and two host networks. *)
Definition node_two_networks : Node.t :=
  Node.mk
    (Some (NodeResources.mk []
             [NodeNetworkResource.mk "host"
                [NodeNetworkAddress.mk "eth0" "10.0.0.2" "80,443";
                 NodeNetworkAddress.mk "eth1" "10.0.0.3" "1-3"]]
             0 0))
    None
    (Some (NodeReservedResources.mk "22"))
    None.

(** Scenario 3: range 20000..20002, port 20000 in use, port 20001
    reserved by the ask, one dynamic port asked for. *)
Definition index_tight : NetworkIndex.t :=
  (AddReservedPorts (index_with [default_address] 20000 20002)
     [AllocatedPortMapping.mk "taken" 20000 0 "10.0.0.1"]).2.
Definition ask_tight : NetworkResource.t :=
  ask_of [Port.mk "r" 20001 0 "default"] [Port.mk "x" 0 (-1) "default"].

(** A reserved port that asks for [to = -1]. *)
Definition ask_reserved_minus_one : NetworkResource.t :=
  ask_of [Port.mk "http" 80 (-1) "default"] [].

(** An index where port 80 is in use on the first of two addresses. *)
Definition index_http_taken : NetworkIndex.t :=
  (AddReservedPorts (index_with [default_address; second_address] 20000 32000)
     [AllocatedPortMapping.mk "http" 80 0 "10.0.0.1"]).2.
Definition ask_ssh_http : NetworkResource.t :=
  ask_of [Port.mk "ssh" 22 0 "default"; Port.mk "http" 80 0 "default"] [].

(** A task network for the legacy offers. *)
Definition index_task_network : NetworkIndex.t :=
  NetworkIndex.with_TaskNetworks
    [NetworkResource.mk "host" "eth0" "192.168.0.100/31" "192.168.0.100" 1000 None [] []]
    (NetworkIndex.with_AvailBandwidth {["eth0" := 1000]} NewNetworkIndex).
Definition ask_task : NetworkResource.t :=
  NetworkResource.mk "host" "" "" "" 50 None
    [Port.mk "main" 8000 (-1) ""] [Port.mk "http" 0 (-1) ""; Port.mk "admin" 0 8080 ""].

(** Allocations: one that ended and two live ones that want port 8000 of
    the same address. *)
Definition alloc_on_8000 (id status : string) : Allocation.t :=
  Allocation.mk id "run" status
    (Some (AllocatedResources.mk []
             (AllocatedSharedResources.mk []
                [AllocatedPortMapping.mk "web" 8000 8000 "10.0.0.1"])))
    [].

(** A network resource with an invalid port between two valid ones. *)
Definition network_with_invalid_port : NetworkResource.t :=
  NetworkResource.mk "host" "eth0" "" "10.0.0.1" 0 None
    [Port.mk "a" 80 0 ""; Port.mk "b" 70000 0 ""] [Port.mk "c" 443 0 ""].

(** Two calls that reserve four ports on two addresses. *)
Definition calls_without_collision : list reserve_call :=
  [CallAddReserved
     (NetworkResource.mk "host" "eth0" "" "10.0.0.1" 0 None
        [Port.mk "http" 80 0 ""] [Port.mk "dyn" 20500 0 ""]);
   CallAddReservedPorts
     [AllocatedPortMapping.mk "web" 8000 8000 "10.0.0.1";
      AllocatedPortMapping.mk "db" 5432 5432 "10.0.0.2"]].

(** An index whose only task network has a CIDR that does not parse. *)
Definition index_bad_cidr : NetworkIndex.t :=
  NetworkIndex.with_TaskNetworks
    [NetworkResource.mk "host" "eth0" "not-a-cidr" "" 1000 None [] []] NewNetworkIndex.

(** A network resource that asks for port 8080 twice. *)
Definition network_two_ips_same_port : NetworkResource.t :=
  NetworkResource.mk "host" "eth0" "" "10.0.0.1" 0 None
    [Port.mk "a" 8080 0 ""] [Port.mk "b" 8080 0 ""].

(** The offer that [index_task_network] makes to [ask_task]. *)
Definition offer_task : NetworkResource.t :=
  NetworkResource.mk "host" "eth0" "" "192.168.0.100" 50 None
    [Port.mk "main" 8000 (-1) ""]
    [Port.mk "http" 20003 20003 ""; Port.mk "admin" 20007 8080 ""].

(** Nodes whose reserved port ranges do not parse: the global ones, and
    those of the second host network address. *)
Definition node_bad_ranges : Node.t :=
  Node.mk None None (Some (NodeReservedResources.mk "22-")) None.

Definition node_bad_address : Node.t :=
  Node.mk
    (Some (NodeResources.mk []
             [NodeNetworkResource.mk "host"
                [NodeNetworkAddress.mk "eth0" "10.0.0.2" "80,443";
                 NodeNetworkAddress.mk "lan\1" "10.0.0.3" "1-"]]
             0 0))
    None
    (Some (NodeReservedResources.mk "22"))
    None.

(** * Properties *)

(** ** Machine integers and bitmaps *)

Lemma uint_small (v : Z) : 0 <= v < 2 ^ 64 → uint v = v.
Proof. intros H. unfold uint. apply Z.mod_small. exact H. Qed.

Lemma int_wrap_small (v : Z) : - 2 ^ 63 <= v < 2 ^ 63 → int_wrap v = v.
Proof. intros H. unfold int_wrap. rewrite Z.mod_small; lia. Qed.

Lemma invalid_port_false (v : Z) :
  invalid_port v = false → 0 <= v < MaxValidPort ∧ uint v = v.
Proof.
  unfold invalid_port, MaxValidPort. intros H.
  apply orb_false_elim in H as [H1 H2].
  assert (0 <= v < 65536) as Hv by lia.
  split; [exact Hv|]. apply uint_small. lia.
Qed.

Lemma invalid_port_true (v : Z) :
  invalid_port v = true ↔ ¬ (0 <= v < MaxValidPort).
Proof. unfold invalid_port, MaxValidPort. rewrite orb_true_iff. lia. Qed.

Lemma in_range_spec (i : Z) : Bitmap.in_range i = true ↔ 0 <= i < MaxValidPort.
Proof. unfold Bitmap.in_range, Bitmap.Size. rewrite andb_true_iff. lia. Qed.

Lemma Clear_is_new (b : Bitmap.t) : Bitmap.Clear b = Bitmap.NewBitmap MaxValidPort.
Proof. reflexivity. Qed.

Lemma Check_new (size p : Z) : Bitmap.Check (Bitmap.NewBitmap size) p = false.
Proof. unfold Bitmap.Check, Bitmap.NewBitmap. rewrite Z.bits_0. apply andb_false_r. Qed.

Lemma Check_in_range (b : Bitmap.t) (p : Z) :
  Bitmap.Check b p = true → 0 <= p < MaxValidPort.
Proof.
  unfold Bitmap.Check. intros H. apply andb_true_iff in H as [H _].
  by apply in_range_spec.
Qed.

Lemma Set_Some (b : Bitmap.t) (i : Z) :
  0 <= i < MaxValidPort → Bitmap.Set_ b i = Some (Z.setbit b i).
Proof.
  intros H. unfold Bitmap.Set_.
  by rewrite (proj2 (in_range_spec i) H).
Qed.

Lemma Check_Set (b b' : Bitmap.t) (i p : Z) :
  Bitmap.Set_ b i = Some b' → Bitmap.Check b' p = (i =? p) || Bitmap.Check b p.
Proof.
  unfold Bitmap.Set_. destruct (Bitmap.in_range i) eqn:Hi; [|done].
  intros [= <-]. apply in_range_spec in Hi.
  unfold Bitmap.Check.
  destruct (Bitmap.in_range p) eqn:Hp; simpl.
  - apply in_range_spec in Hp. rewrite Z.setbit_eqb by lia. done.
  - destruct (i =? p) eqn:E; [|done].
    apply Z.eqb_eq in E. subst p.
    apply in_range_spec in Hi. congruence.
Qed.

(** ** The used ports of an address *)

Lemma port_used_store (idx : NetworkIndex.t) (ip ip' : string) (b : Bitmap.t) (p : Z) :
  port_used (store_used idx ip b) ip' p
  = if decide (ip = ip') then Bitmap.Check b p else port_used idx ip' p.
Proof.
  unfold port_used, store_used. simpl.
  rewrite lookup_insert. by case_decide.
Qed.

Lemma getUsedPortsFor_frame (idx : NetworkIndex.t) (ip ip' : string) (p : Z) :
  port_used (getUsedPortsFor idx ip).2 ip' p = port_used idx ip' p.
Proof.
  unfold getUsedPortsFor.
  destruct (NetworkIndex.UsedPorts idx !! ip) eqn:E; [done|].
  unfold port_used. simpl. rewrite lookup_insert.
  case_decide; [|done]. subst ip'. rewrite E. simpl. apply Check_new.
Qed.

Lemma getUsedPortsFor_check (idx : NetworkIndex.t) (ip : string) (p : Z) :
  Bitmap.Check (getUsedPortsFor idx ip).1 p = port_used idx ip p.
Proof.
  unfold getUsedPortsFor, port_used.
  destruct (NetworkIndex.UsedPorts idx !! ip) eqn:E; simpl; [done|].
  apply Check_new.
Qed.

Lemma getUsedPortsFor_fields (idx : NetworkIndex.t) (ip : string) :
  let idx' := (getUsedPortsFor idx ip).2 in
  NetworkIndex.HostNetworks idx' = NetworkIndex.HostNetworks idx
  ∧ NetworkIndex.MinDynamicPort idx' = NetworkIndex.MinDynamicPort idx
  ∧ NetworkIndex.MaxDynamicPort idx' = NetworkIndex.MaxDynamicPort idx.
Proof.
  unfold getUsedPortsFor.
  by destruct (NetworkIndex.UsedPorts idx !! ip).
Qed.

(** ** AssignPorts only reads the used ports *)

Lemma AssignPorts_reserved_port_frame (port : Port.t) (idx : NetworkIndex.t) (ip : string) (p : Z) :
  port_used (AssignPorts_reserved_port port idx).2 ip p = port_used idx ip p.
Proof.
  unfold AssignPorts_reserved_port.
  destruct (addresses idx (Port.HostNetwork port)) as [|addr rest]; [done|].
  pose proof (getUsedPortsFor_frame idx (NodeNetworkAddress.Address addr) ip p) as Hf.
  destruct (getUsedPortsFor idx (NodeNetworkAddress.Address addr)) as [used idx'].
  simpl in Hf.
  destruct (invalid_port (Port.Value port)); [done|].
  by destruct (Bitmap.Check used (uint (Port.Value port))).
Qed.

Lemma AssignPorts_reserved_frame (ports : list Port.t) (offer : AllocatedPorts)
    (reservedIdx : gmap string (list Port.t)) (idx : NetworkIndex.t) (ip : string) (p : Z) :
  port_used (AssignPorts_reserved ports offer reservedIdx idx).2 ip p = port_used idx ip p.
Proof.
  revert offer reservedIdx idx.
  induction ports as [|port rest IH]; intros offer reservedIdx idx; [done|].
  simpl.
  pose proof (AssignPorts_reserved_port_frame port idx ip p) as Hf.
  destruct (AssignPorts_reserved_port port idx) as [[allocPort|e|] idx']; simpl in Hf; simpl;
    [|done..].
  by rewrite IH.
Qed.

Lemma AssignPorts_dynamic_port_frame (addrs : list NodeNetworkAddress.t) (addrErr : option string)
    (port : Port.t) (reserved : list Port.t) (idx : NetworkIndex.t) (rng : Rng)
    (ip : string) (p : Z) :
  port_used (AssignPorts_dynamic_port addrs addrErr port reserved idx rng).1.2 ip p
  = port_used idx ip p.
Proof.
  revert addrErr idx rng.
  induction addrs as [|addr rest IH]; intros addrErr idx rng; simpl.
  - by destruct addrErr.
  - pose proof (getUsedPortsFor_frame idx (NodeNetworkAddress.Address addr) ip p) as Hf.
    destruct (getUsedPortsFor idx (NodeNetworkAddress.Address addr)) as [used idx'].
    simpl in Hf.
    destruct (getDynamicPortsStochastic _ _ _ _ _ _) as [[dyn|e|] rng1].
    + by destruct dyn.
    + destruct (getDynamicPortsPrecise _ _ _ _ _ _) as [[dyn|e'|] rng2].
      * by destruct dyn.
      * by rewrite IH.
      * done.
    + done.
Qed.

Lemma AssignPorts_dynamic_frame (ports : list Port.t) (offer : AllocatedPorts)
    (reservedIdx : gmap string (list Port.t)) (idx : NetworkIndex.t) (rng : Rng)
    (ip : string) (p : Z) :
  port_used (AssignPorts_dynamic ports offer reservedIdx idx rng).1.2 ip p = port_used idx ip p.
Proof.
  revert offer idx rng.
  induction ports as [|port rest IH]; intros offer idx rng; [done|].
  simpl.
  pose proof (AssignPorts_dynamic_port_frame (addresses idx (Port.HostNetwork port)) None port
                (default [] (reservedIdx !! Port.HostNetwork port)) idx rng ip p) as Hf.
  destruct (AssignPorts_dynamic_port _ _ _ _ _ _) as [[[allocPort|e|] idx'] rng'];
    simpl in Hf; simpl; [|done..].
  by rewrite IH.
Qed.

(** C1. For every index, every ask and every sequence of random draws,
    the call [AssignPorts] leaves the membership of every port in the used
    ports of every address as it was: [used_ports[ip].check(p)] (false for
    an address without a bitmap) is the same before and after the call,
    whether it returns an offer or an error. *)
Theorem AssignPorts_keeps_used_ports
    (idx : NetworkIndex.t) (ask : NetworkResource.t) (rng : Rng) (ip : string) (p : Z) :
  port_used (AssignPorts idx ask rng).1.2 ip p = port_used idx ip p.
Proof.
  unfold AssignPorts.
  pose proof (AssignPorts_reserved_frame (NetworkResource.ReservedPorts ask) [] ∅ idx ip p) as Hr.
  destruct (AssignPorts_reserved _ _ _ _) as [[[offer reservedIdx]|e|] idx1];
    simpl in Hr; simpl; [|done..].
  by rewrite AssignPorts_dynamic_frame.
Qed.

(** ** What the reserving methods do to the used ports *)

Lemma valid_not_invalid (v : Z) : 0 <= v < MaxValidPort → invalid_port v = false.
Proof.
  intros H. destruct (invalid_port v) eqn:E; [|done].
  by apply invalid_port_true in E.
Qed.

Lemma AddReserved_ports_app (ports1 ports2 : list Port.t) (used : Bitmap.t)
    (collide : bool) (reasons : list string) :
  AddReserved_ports (ports1 ++ ports2) used collide reasons
  = match AddReserved_ports ports1 used collide reasons with
    | (used', Next (c, rs)) => AddReserved_ports ports2 used' c rs
    | other => other
    end.
Proof.
  revert used collide reasons.
  induction ports1 as [|port rest IH]; intros used collide reasons; [done|].
  simpl.
  destruct (invalid_port (Port.Value port)); [done|].
  destruct (Bitmap.Check used (uint (Port.Value port))); [apply IH|].
  destruct (Bitmap.Set_ used (uint (Port.Value port))); [apply IH|done].
Qed.

Lemma AddReserved_ports_valid (ports : list Port.t) (used : Bitmap.t)
    (collide : bool) (reasons : list string) :
  Forall (λ q, port_ok q) ports →
  ∃ used' c rs,
    AddReserved_ports ports used collide reasons = (used', Next (c, rs))
    ∧ ∀ p, Bitmap.Check used' p = true
           ↔ Bitmap.Check used p = true ∨ p ∈ map Port.Value ports.
Proof.
  revert used collide reasons.
  induction ports as [|port rest IH]; intros used collide reasons Hok.
  - exists used, collide, reasons. split; [done|]. intros p. simpl.
    rewrite elem_of_nil. tauto.
  - apply Forall_cons in Hok as [Hport Hrest]. simpl.
    rewrite (valid_not_invalid _ Hport).
    rewrite (uint_small (Port.Value port)) by (unfold MaxValidPort in Hport; lia).
    destruct (Bitmap.Check used (Port.Value port)) eqn:Hc.
    + destruct (IH used true (reasons ++ ["port " +:+ fmt_d (Port.Value port) +:+ " already in use"])
                  Hrest) as (used' & c & rs & -> & Hchk).
      exists used', c, rs. split; [done|]. intros p. rewrite Hchk.
      rewrite elem_of_cons. split; [tauto|].
      intros [H|[->|H]]; tauto.
    + rewrite (Set_Some used _ Hport).
      destruct (IH (Z.setbit used (Port.Value port)) collide reasons Hrest)
        as (used' & c & rs & -> & Hchk).
      exists used', c, rs. split; [done|]. intros p. rewrite Hchk.
      rewrite (Check_Set used _ (Port.Value port) p (Set_Some used _ Hport)).
      rewrite orb_true_iff, Z.eqb_eq, elem_of_cons. intuition congruence.
Qed.

Lemma AddReserved_ports_invalid (pre post : list Port.t) (bad : Port.t) (used : Bitmap.t)
    (collide : bool) (reasons : list string) :
  Forall (λ q, port_ok q) pre →
  ¬ port_ok bad →
  ∃ used',
    AddReserved_ports (pre ++ bad :: post) used collide reasons
    = (used', Return (true, ["invalid port " +:+ fmt_d (Port.Value bad)]))
    ∧ ∀ p, Bitmap.Check used' p = true
           ↔ Bitmap.Check used p = true ∨ p ∈ map Port.Value pre.
Proof.
  intros Hpre Hbad.
  rewrite AddReserved_ports_app.
  destruct (AddReserved_ports_valid pre used collide reasons Hpre)
    as (used' & c & rs & -> & Hchk).
  exists used'. split; [|exact Hchk].
  simpl. by rewrite (proj2 (invalid_port_true _) Hbad).
Qed.

Lemma AddReserved_ports_monotone (ports : list Port.t) (used : Bitmap.t)
    (collide : bool) (reasons : list string) (p : Z) :
  Bitmap.Check used p = true →
  Bitmap.Check (AddReserved_ports ports used collide reasons).1 p = true.
Proof.
  revert used collide reasons.
  induction ports as [|port rest IH]; intros used collide reasons Hp; [done|].
  simpl.
  destruct (invalid_port (Port.Value port)); [done|].
  destruct (Bitmap.Check used (uint (Port.Value port))); [by apply IH|].
  destruct (Bitmap.Set_ used (uint (Port.Value port))) as [used'|] eqn:Hs; [|done].
  apply IH. rewrite (Check_Set _ _ _ p Hs), Hp. apply orb_true_r.
Qed.

Lemma AddReserved_ports_no_panic (ports : list Port.t) (used : Bitmap.t)
    (collide : bool) (reasons : list string) :
  (AddReserved_ports ports used collide reasons).2 ≠ Panicked.
Proof.
  revert used collide reasons.
  induction ports as [|port rest IH]; intros used collide reasons; [done|].
  simpl.
  destruct (invalid_port (Port.Value port)) eqn:Hv; [done|].
  destruct (Bitmap.Check used (uint (Port.Value port))); [apply IH|].
  apply invalid_port_false in Hv as [Hv ->].
  rewrite (Set_Some used _ Hv). apply IH.
Qed.

(** [AddReserved] in one pass over the two slices of ports. *)
Lemma AddReserved_flat (idx : NetworkIndex.t) (n : NetworkResource.t) :
  AddReserved idx n
  = let ip := NetworkResource.IP n in
    let '(used, idx1) := getUsedPortsFor idx ip in
    match AddReserved_ports (NetworkResource.ReservedPorts n ++ NetworkResource.DynamicPorts n)
            used false [] with
    | (used, Next cr) =>
        let idx2 := store_used idx1 ip used in
        let dev := NetworkResource.Device n in
        let bw := int_add (bandwidth (NetworkIndex.UsedBandwidth idx2) dev)
                          (NetworkResource.MBits n) in
        (Ok cr, NetworkIndex.with_UsedBandwidth
                  (<[dev := bw]> (NetworkIndex.UsedBandwidth idx2)) idx2)
    | (used, Return r) => (Ok r, store_used idx1 ip used)
    | (used, Panicked) => (Panic, store_used idx1 ip used)
    end.
Proof.
  unfold AddReserved. cbv zeta.
  destruct (getUsedPortsFor idx (NetworkResource.IP n)) as [used idx1].
  rewrite AddReserved_ports_app.
  destruct (AddReserved_ports (NetworkResource.ReservedPorts n) used false [])
    as [used1 [[c rs]|r|]]; [|done..].
  by destruct (AddReserved_ports (NetworkResource.DynamicPorts n) used1 c rs)
    as [used2 [[c2 rs2]|r|]].
Qed.

Lemma port_used_with_UsedBandwidth (idx : NetworkIndex.t) (m : gmap string Z) (ip : string) (p : Z) :
  port_used (NetworkIndex.with_UsedBandwidth m idx) ip p = port_used idx ip p.
Proof. done. Qed.

(** The used ports after the bitmap of [ip], fetched by [getUsedPortsFor],
    has been written back with new contents. *)
Lemma port_used_written_back (idx : NetworkIndex.t) (ip : string) (used' : Bitmap.t)
    (S : Z → Prop) :
  (∀ p, Bitmap.Check used' p = true
        ↔ Bitmap.Check (getUsedPortsFor idx ip).1 p = true ∨ S p) →
  ∀ ip' p, port_used (store_used (getUsedPortsFor idx ip).2 ip used') ip' p = true
           ↔ port_used idx ip' p = true ∨ (ip' = ip ∧ S p).
Proof.
  intros Hchk ip' p. rewrite port_used_store.
  case_decide as Hip.
  - subst ip'. rewrite Hchk, getUsedPortsFor_check. tauto.
  - rewrite getUsedPortsFor_frame. split; [tauto|]. intros [H|[H _]]; [done|congruence].
Qed.

Lemma AddReserved_valid (idx : NetworkIndex.t) (n : NetworkResource.t) :
  Forall (λ q, port_ok q) (NetworkResource.ReservedPorts n ++ NetworkResource.DynamicPorts n) →
  (∃ c rs, (AddReserved idx n).1 = Ok (c, rs))
  ∧ ∀ ip p, port_used (AddReserved idx n).2 ip p = true
            ↔ port_used idx ip p = true ∨ call_reserves (CallAddReserved n) ip p.
Proof.
  intros Hok. rewrite AddReserved_flat. cbv zeta.
  pose proof (port_used_written_back idx (NetworkResource.IP n)) as Hwb.
  destruct (getUsedPortsFor idx (NetworkResource.IP n)) as [used idx1]. simpl in Hwb.
  destruct (AddReserved_ports_valid _ used false [] Hok) as (used' & c & rs & -> & Hchk).
  split; [by exists c, rs|].
  intros ip p. simpl. rewrite port_used_with_UsedBandwidth.
  apply (Hwb used' _ Hchk).
Qed.

Lemma AddReserved_invalid (idx : NetworkIndex.t) (n : NetworkResource.t)
    (pre post : list Port.t) (bad : Port.t) :
  NetworkResource.ReservedPorts n ++ NetworkResource.DynamicPorts n = pre ++ bad :: post →
  Forall (λ q, port_ok q) pre →
  ¬ port_ok bad →
  (AddReserved idx n).1 = Ok (true, ["invalid port " +:+ fmt_d (Port.Value bad)])
  ∧ ∀ ip p, port_used (AddReserved idx n).2 ip p = true
            ↔ port_used idx ip p = true
              ∨ (ip = NetworkResource.IP n ∧ p ∈ map Port.Value pre).
Proof.
  intros Hsplit Hpre Hbad. rewrite AddReserved_flat. cbv zeta.
  pose proof (port_used_written_back idx (NetworkResource.IP n)) as Hwb.
  destruct (getUsedPortsFor idx (NetworkResource.IP n)) as [used idx1]. simpl in Hwb.
  rewrite Hsplit.
  destruct (AddReserved_ports_invalid pre post bad used false [] Hpre Hbad)
    as (used' & -> & Hchk).
  split; [done|]. intros ip p. simpl. apply (Hwb used' _ Hchk).
Qed.

Lemma AddReserved_monotone (idx : NetworkIndex.t) (n : NetworkResource.t) (ip : string) (p : Z) :
  port_used idx ip p = true → port_used (AddReserved idx n).2 ip p = true.
Proof.
  intros Hp. rewrite AddReserved_flat. cbv zeta.
  pose proof (getUsedPortsFor_frame idx (NetworkResource.IP n) ip p) as Hf.
  pose proof (getUsedPortsFor_check idx (NetworkResource.IP n) p) as Hc.
  destruct (getUsedPortsFor idx (NetworkResource.IP n)) as [used idx1].
  simpl in Hf, Hc.
  pose proof (AddReserved_ports_monotone
                (NetworkResource.ReservedPorts n ++ NetworkResource.DynamicPorts n)
                used false [] p) as Hm.
  destruct (AddReserved_ports _ used false []) as [used' [cr|r|]]; simpl in Hm; simpl;
    try rewrite port_used_with_UsedBandwidth;
    rewrite port_used_store; case_decide; subst; rewrite ?Hf; try done;
    apply Hm; by rewrite Hc.
Qed.

Lemma AddReserved_returns (idx : NetworkIndex.t) (n : NetworkResource.t) :
  ∃ c rs, (AddReserved idx n).1 = Ok (c, rs).
Proof.
  rewrite AddReserved_flat. cbv zeta.
  destruct (getUsedPortsFor idx (NetworkResource.IP n)) as [used idx1].
  pose proof (AddReserved_ports_no_panic
                (NetworkResource.ReservedPorts n ++ NetworkResource.DynamicPorts n)
                used false []) as Hn.
  destruct (AddReserved_ports _ used false []) as [used' [[c rs]|[c rs]|]]; simpl in *;
    [by exists c, rs..|done].
Qed.

(** The same for [AddReservedPorts]. *)

Lemma AddReservedPorts_from_valid (ports : AllocatedPorts) (collide : bool)
    (reasons : list string) (idx : NetworkIndex.t) :
  Forall (λ m, mapping_ok m) ports →
  (∃ c rs, (AddReservedPorts_from ports collide reasons idx).1 = Ok (c, rs))
  ∧ ∀ ip p, port_used (AddReservedPorts_from ports collide reasons idx).2 ip p = true
            ↔ port_used idx ip p = true
              ∨ ∃ m, m ∈ ports ∧ AllocatedPortMapping.HostIP m = ip
                     ∧ AllocatedPortMapping.Value m = p.
Proof.
  revert collide reasons idx.
  induction ports as [|port rest IH]; intros collide reasons idx Hok.
  - split; [by exists collide, reasons|]. intros ip p. simpl.
    split; [tauto|]. intros [H|(m & Hm & _)]; [done|]. by apply elem_of_nil in Hm.
  - apply Forall_cons in Hok as [Hport Hrest]. simpl.
    pose proof (port_used_written_back idx (AllocatedPortMapping.HostIP port)) as Hwb.
    pose proof (getUsedPortsFor_frame idx (AllocatedPortMapping.HostIP port)) as Hf.
    pose proof (getUsedPortsFor_check idx (AllocatedPortMapping.HostIP port)) as Hc.
    destruct (getUsedPortsFor idx (AllocatedPortMapping.HostIP port)) as [used idx1].
    simpl in Hwb, Hf, Hc.
    rewrite (valid_not_invalid _ Hport).
    rewrite (uint_small (AllocatedPortMapping.Value port))
      by (unfold MaxValidPort in Hport; lia).
    destruct (Bitmap.Check used (AllocatedPortMapping.Value port)) eqn:Hchk.
    + destruct (IH true (reasons ++ ["port " +:+ fmt_d (AllocatedPortMapping.Value port)
                                      +:+ " already in use"]) idx1 Hrest) as [Hret Hused].
      split; [exact Hret|]. intros ip p. rewrite Hused, Hf.
      split.
      * intros [H|(m & Hm & Hip & Hv)]; [tauto|].
        right. exists m. rewrite elem_of_cons. tauto.
      * intros [H|(m & Hm & Hip & Hv)]; [tauto|].
        apply elem_of_cons in Hm as [->|Hm].
        -- left. subst ip p. by rewrite <- Hc.
        -- right. by exists m.
    + rewrite (Set_Some used _ Hport).
      destruct (IH collide reasons
                  (store_used idx1 (AllocatedPortMapping.HostIP port)
                     (Z.setbit used (AllocatedPortMapping.Value port))) Hrest) as [Hret Hused].
      split; [exact Hret|]. intros ip p. rewrite Hused.
      rewrite (Hwb (Z.setbit used (AllocatedPortMapping.Value port))
                 (λ q, AllocatedPortMapping.Value port = q)).
      2:{ intros q. rewrite (Check_Set used _ _ q (Set_Some used _ Hport)).
          rewrite orb_true_iff, Z.eqb_eq. tauto. }
      split.
      * intros [[H|[Hip Hv]]|(m & Hm & Hip & Hv)]; [tauto| |].
        -- right. exists port. rewrite elem_of_cons. subst. tauto.
        -- right. exists m. rewrite elem_of_cons. tauto.
      * intros [H|(m & Hm & Hip & Hv)]; [tauto|].
        apply elem_of_cons in Hm as [->|Hm].
        -- left. right. by subst.
        -- right. by exists m.
Qed.

Lemma AddReservedPorts_from_app_invalid (pre post : AllocatedPorts) (bad : AllocatedPortMapping.t)
    (collide : bool) (reasons : list string) (idx : NetworkIndex.t) :
  Forall (λ m, mapping_ok m) pre →
  ¬ mapping_ok bad →
  (AddReservedPorts_from (pre ++ bad :: post) collide reasons idx).1
  = Ok (true, ["invalid port " +:+ fmt_d (AllocatedPortMapping.Value bad)])
  ∧ ∀ ip p, port_used (AddReservedPorts_from (pre ++ bad :: post) collide reasons idx).2 ip p
            = port_used (AddReservedPorts_from pre collide reasons idx).2 ip p.
Proof.
  revert collide reasons idx.
  induction pre as [|port rest IH]; intros collide reasons idx Hpre Hbad.
  - simpl.
    pose proof (getUsedPortsFor_frame idx (AllocatedPortMapping.HostIP bad)) as Hf.
    destruct (getUsedPortsFor idx (AllocatedPortMapping.HostIP bad)) as [used idx1].
    rewrite (proj2 (invalid_port_true _) Hbad). split; [done|]. apply Hf.
  - apply Forall_cons in Hpre as [Hport Hrest]. simpl.
    destruct (getUsedPortsFor idx (AllocatedPortMapping.HostIP port)) as [used idx1].
    rewrite (valid_not_invalid _ Hport).
    destruct (Bitmap.Check used (uint (AllocatedPortMapping.Value port))); [by apply IH|].
    destruct (Bitmap.Set_ used (uint (AllocatedPortMapping.Value port))) eqn:Hs;
      [by apply IH|].
    rewrite (uint_small (AllocatedPortMapping.Value port)) in Hs
      by (unfold MaxValidPort in Hport; lia).
    by rewrite (Set_Some used _ Hport) in Hs.
Qed.

Lemma AddReservedPorts_from_monotone (ports : AllocatedPorts) (collide : bool)
    (reasons : list string) (idx : NetworkIndex.t) (ip : string) (p : Z) :
  port_used idx ip p = true →
  port_used (AddReservedPorts_from ports collide reasons idx).2 ip p = true.
Proof.
  revert collide reasons idx.
  induction ports as [|port rest IH]; intros collide reasons idx Hp; [done|].
  simpl.
  pose proof (getUsedPortsFor_frame idx (AllocatedPortMapping.HostIP port) ip p) as Hf.
  pose proof (getUsedPortsFor_check idx (AllocatedPortMapping.HostIP port) p) as Hc.
  destruct (getUsedPortsFor idx (AllocatedPortMapping.HostIP port)) as [used idx1].
  simpl in Hf, Hc. rewrite <- Hf in Hp.
  destruct (invalid_port (AllocatedPortMapping.Value port)); [done|].
  destruct (Bitmap.Check used (uint (AllocatedPortMapping.Value port))); [by apply IH|].
  destruct (Bitmap.Set_ used (uint (AllocatedPortMapping.Value port))) as [used'|] eqn:Hs;
    [|done].
  apply IH. rewrite port_used_store. case_decide as Hip; [|done].
  subst ip. rewrite (Check_Set _ _ _ p Hs), Hc, <- Hf, Hp. apply orb_true_r.
Qed.

Lemma AddReservedPorts_from_returns (ports : AllocatedPorts) (collide : bool)
    (reasons : list string) (idx : NetworkIndex.t) :
  ∃ c rs, (AddReservedPorts_from ports collide reasons idx).1 = Ok (c, rs).
Proof.
  revert collide reasons idx.
  induction ports as [|port rest IH]; intros collide reasons idx; simpl.
  - by exists collide, reasons.
  - destruct (getUsedPortsFor idx (AllocatedPortMapping.HostIP port)) as [used idx1].
    destruct (invalid_port (AllocatedPortMapping.Value port)) eqn:Hv; [by eexists _, _|].
    destruct (Bitmap.Check used (uint (AllocatedPortMapping.Value port))); [apply IH|].
    apply invalid_port_false in Hv as [Hv ->].
    rewrite (Set_Some used _ Hv). apply IH.
Qed.

(** ** An invalid port ends the call at once *)

(** C10. When [AddReserved] or [AddReservedPorts] meets a port value
    outside [0, MaxValidPort), after ports [pre] that are all valid, it
    returns [collide = true] with the single reason "invalid port <value>";
    the ports of [pre] stay marked (nothing is rolled back) and nothing
    that comes after the invalid port is marked: the used ports at the end
    are those of the start together with the ports of [pre]. *)
Theorem invalid_port_stops_reservation :
  (∀ (idx : NetworkIndex.t) (n : NetworkResource.t) (pre post : list Port.t) (bad : Port.t),
      NetworkResource.ReservedPorts n ++ NetworkResource.DynamicPorts n = pre ++ bad :: post →
      Forall (λ q, 0 <= Port.Value q < MaxValidPort) pre →
      ¬ (0 <= Port.Value bad < MaxValidPort) →
      (AddReserved idx n).1 = Ok (true, ["invalid port " +:+ fmt_d (Port.Value bad)])
      ∧ ∀ ip p, port_used (AddReserved idx n).2 ip p = true
                ↔ port_used idx ip p = true
                  ∨ (ip = NetworkResource.IP n ∧ p ∈ map Port.Value pre))
  ∧ (∀ (idx : NetworkIndex.t) (pre post : AllocatedPorts) (bad : AllocatedPortMapping.t),
      Forall (λ m, 0 <= AllocatedPortMapping.Value m < MaxValidPort) pre →
      ¬ (0 <= AllocatedPortMapping.Value bad < MaxValidPort) →
      (AddReservedPorts idx (pre ++ bad :: post)).1
      = Ok (true, ["invalid port " +:+ fmt_d (AllocatedPortMapping.Value bad)])
      ∧ ∀ ip p, port_used (AddReservedPorts idx (pre ++ bad :: post)).2 ip p = true
                ↔ port_used idx ip p = true
                  ∨ ∃ m, m ∈ pre ∧ AllocatedPortMapping.HostIP m = ip
                         ∧ AllocatedPortMapping.Value m = p).
Proof.
  split.
  - intros idx n pre post bad Hsplit Hpre Hbad.
    exact (AddReserved_invalid idx n pre post bad Hsplit Hpre Hbad).
  - intros idx pre post bad Hpre Hbad. unfold AddReservedPorts.
    destruct (AddReservedPorts_from_app_invalid pre post bad false [] idx Hpre Hbad)
      as [Hret Hused].
    split; [exact Hret|]. intros ip p. rewrite Hused.
    apply (AddReservedPorts_from_valid pre false [] idx Hpre).
Qed.

(** ** Reservations without collision *)

Lemma run_call_valid (idx : NetworkIndex.t) (c : reserve_call) :
  call_in_range c →
  ∀ ip p, port_used (run_call idx c).2 ip p = true
          ↔ port_used idx ip p = true ∨ call_reserves c ip p.
Proof.
  destruct c as [n|ports]; simpl; intros Hok.
  - apply (AddReserved_valid idx n Hok).
  - apply (AddReservedPorts_from_valid ports false [] idx Hok).
Qed.

Lemma run_call_monotone (idx : NetworkIndex.t) (c : reserve_call) (ip : string) (p : Z) :
  port_used idx ip p = true → port_used (run_call idx c).2 ip p = true.
Proof.
  destruct c as [n|ports]; simpl.
  - apply AddReserved_monotone.
  - apply AddReservedPorts_from_monotone.
Qed.

Lemma run_calls_app (idx : NetworkIndex.t) (calls1 calls2 : list reserve_call) :
  (run_calls idx (calls1 ++ calls2)).2 = (run_calls (run_calls idx calls1).2 calls2).2.
Proof.
  revert idx. induction calls1 as [|c rest IH]; intros idx; [done|].
  simpl. destruct (run_call idx c) as [r idx1].
  specialize (IH idx1).
  destruct (run_calls idx1 (rest ++ calls2)) as [rs idx2].
  destruct (run_calls idx1 rest) as [rs' idx3]. simpl in *.
  rewrite IH. by destruct (run_calls idx3 calls2).
Qed.

Lemma run_calls_monotone (idx : NetworkIndex.t) (calls : list reserve_call) (ip : string) (p : Z) :
  port_used idx ip p = true → port_used (run_calls idx calls).2 ip p = true.
Proof.
  revert idx. induction calls as [|c rest IH]; intros idx Hp; [done|].
  simpl.
  pose proof (run_call_monotone idx c ip p Hp) as H1.
  destruct (run_call idx c) as [r idx1].
  specialize (IH idx1 H1).
  by destruct (run_calls idx1 rest).
Qed.

(** The used ports after calls whose port values are all in range: those
    of the start and the ports the calls asked for, whether or not a call
    reported a collision. *)
Lemma run_calls_valid (idx : NetworkIndex.t) (calls : list reserve_call) :
  Forall call_in_range calls →
  ∀ ip p, port_used (run_calls idx calls).2 ip p = true
          ↔ port_used idx ip p = true ∨ Exists (λ c, call_reserves c ip p) calls.
Proof.
  revert idx. induction calls as [|c rest IH]; intros idx Hok ip p.
  - simpl. rewrite Exists_nil. tauto.
  - apply Forall_cons in Hok as [Hc Hrest]. simpl.
    pose proof (run_call_valid idx c Hc ip p) as H1.
    destruct (run_call idx c) as [r idx1].
    specialize (IH idx1 Hrest ip p).
    destruct (run_calls idx1 rest) as [rs idx2]. simpl in *.
    rewrite IH, H1, Exists_cons. tauto.
Qed.

(** C6. Start from an index with no used port and run any sequence of
    [AddReserved] and [AddReservedPorts] calls in which no call reports a
    collision and every port value supplied is in range. Then at the end
    [used_ports[ip].check(p)] holds exactly when one of the calls reserved
    [p] for [ip], and no port is cleared on the way: a port that is used
    after some first part of the sequence is used at the end. *)
Theorem reservations_are_the_used_ports (idx : NetworkIndex.t) (calls : list reserve_call) :
  (∀ ip p, port_used idx ip p = false) →
  Forall no_collision (run_calls idx calls).1 →
  Forall call_in_range calls →
  (∀ ip p, port_used (run_calls idx calls).2 ip p = true
           ↔ Exists (λ c, call_reserves c ip p) calls)
  ∧ (∀ before after ip p, calls = before ++ after →
       port_used (run_calls idx before).2 ip p = true →
       port_used (run_calls idx calls).2 ip p = true).
Proof.
  intros Hempty _ Hok. split.
  - intros ip p. rewrite (run_calls_valid idx calls Hok), Hempty.
    split; [|tauto]. intros [H|H]; [done|exact H].
  - intros before after ip p -> Hp. rewrite run_calls_app.
    by apply run_calls_monotone.
Qed.

(** ** AddAllocs: terminal allocations, collisions and the reason *)

Lemma AddAllocs_networks_overwrite (id : string) (networks : list NetworkResource.t)
    (idx : NetworkIndex.t) :
  ∃ last idx', ∀ collide reason,
    AddAllocs_networks id networks collide reason idx
    = (Ok (overwrite last (collide, reason)), idx').
Proof.
  revert idx. induction networks as [|network rest IH]; intros idx.
  - by exists None, idx.
  - destruct (AddReserved_returns idx network) as (c & r & Hret).
    destruct (AddReserved idx network) as [res idx1] eqn:E. simpl in Hret. subst res.
    destruct (IH idx1) as (last & idx' & Hrest).
    destruct c.
    + exists (Some (overwrite last
                      (true, "collision when reserving port for network "
                             +:+ NetworkResource.IP network +:+ " in alloc " +:+ id
                             +:+ ": " +:+ fmt_strings r)).2), idx'.
      intros collide reason. simpl. rewrite E, Hrest. by destruct last.
    + exists last, idx'. intros collide reason. simpl. by rewrite E, Hrest.
Qed.

Lemma AddAllocs_tasks_overwrite (prefix id : string)
    (tasks : list (string * list NetworkResource.t)) (idx : NetworkIndex.t) :
  ∃ last idx', ∀ collide reason,
    AddAllocs_tasks prefix id tasks collide reason idx
    = (Ok (overwrite last (collide, reason)), idx').
Proof.
  revert idx. induction tasks as [|[task networks] rest IH]; intros idx.
  - by exists None, idx.
  - destruct networks as [|n others].
    + destruct (IH idx) as (last & idx' & Hrest). by exists last, idx'.
    + destruct (AddReserved_returns idx n) as (c & r & Hret).
      destruct (AddReserved idx n) as [res idx1] eqn:E. simpl in Hret. subst res.
      destruct (IH idx1) as (last & idx' & Hrest).
      destruct c.
      * exists (Some (overwrite last
                        (true, prefix +:+ "collision when reserving port for network "
                               +:+ NetworkResource.IP n +:+ " in task " +:+ task
                               +:+ " of alloc " +:+ id +:+ ": " +:+ fmt_strings r)).2), idx'.
        intros collide reason. simpl. rewrite E, Hrest. by destruct last.
      * exists last, idx'. intros collide reason. simpl. by rewrite E, Hrest.
Qed.

Lemma AddAllocs_alloc_overwrite (alloc : Allocation.t) (idx : NetworkIndex.t) :
  ∃ last idx', ∀ collide reason,
    AddAllocs_alloc alloc collide reason idx = (Ok (overwrite last (collide, reason)), idx').
Proof.
  unfold AddAllocs_alloc.
  destruct (Allocation.AllocatedResources alloc) as [ar|].
  - destruct (0 <? Z.of_nat (length (AllocatedSharedResources.Ports (AllocatedResources.Shared ar)))).
    + destruct (AddReservedPorts_from_returns
                  (AllocatedSharedResources.Ports (AllocatedResources.Shared ar)) false [] idx)
        as (c & r & Hret).
      unfold AddReservedPorts.
      destruct (AddReservedPorts_from _ false [] idx) as [res idx1].
      simpl in Hret. subst res.
      destruct c.
      * by eexists (Some _), idx1.
      * by exists None, idx1.
    + destruct (AddAllocs_networks_overwrite (Allocation.ID alloc)
                  (AllocatedSharedResources.Networks (AllocatedResources.Shared ar)) idx)
        as (last1 & idx1 & H1).
      destruct (AddAllocs_tasks_overwrite "" (Allocation.ID alloc)
                  (map (λ tr, (tr.1, AllocatedTaskResources.Networks tr.2))
                       (AllocatedResources.Tasks ar)) idx1)
        as (last2 & idx2 & H2).
      exists (match last2 with Some m => Some m | None => last1 end), idx2.
      intros collide reason. cbv zeta. rewrite H1.
      destruct (overwrite last1 (collide, reason)) as [c1 r1] eqn:E1.
      rewrite H2. destruct last2; simpl; [done|by rewrite E1].
  - apply AddAllocs_tasks_overwrite.
Qed.

(** ** When a reservation reports a collision *)

Lemma AddReserved_ports_collide (ports : list Port.t) (used : Bitmap.t)
    (collide : bool) (reasons : list string) :
  Forall (λ q, port_ok q) ports →
  ∃ used' c rs,
    AddReserved_ports ports used collide reasons = (used', Next (c, rs))
    ∧ (c = false ↔ collide = false ∧ NoDup (map Port.Value ports)
                   ∧ ∀ q, q ∈ ports → Bitmap.Check used (Port.Value q) = false)
    ∧ ((collide = false ↔ reasons = []) → (c = false ↔ rs = [])).
Proof.
  revert used collide reasons.
  induction ports as [|port rest IH]; intros used collide reasons Hok.
  - exists used, collide, reasons. split; [done|]. split; [|done].
    simpl. split; [|tauto]. intros ->. split; [done|]. split; [constructor|].
    intros q Hq. by apply elem_of_nil in Hq.
  - apply Forall_cons in Hok as [Hport Hrest]. simpl.
    rewrite (valid_not_invalid _ Hport).
    rewrite (uint_small (Port.Value port)) by (unfold MaxValidPort in Hport; lia).
    destruct (Bitmap.Check used (Port.Value port)) eqn:Hc.
    + destruct (IH used true (reasons ++ ["port " +:+ fmt_d (Port.Value port)
                                           +:+ " already in use"]) Hrest)
        as (used' & c & rs & -> & Hcol & Hrs).
      exists used', c, rs. split; [done|]. split.
      * split.
        -- intros Hf. apply Hcol in Hf as [Hf _]. done.
        -- intros (_ & _ & Hfree). specialize (Hfree port (list_elem_of_here _ _)). congruence.
      * intros _. apply Hrs. split; [done|]. intros H. by apply app_nil in H as [_ H].
    + rewrite (Set_Some used _ Hport).
      destruct (IH (Z.setbit used (Port.Value port)) collide reasons Hrest)
        as (used' & c & rs & -> & Hcol & Hrs).
      exists used', c, rs. split; [done|]. split; [|exact Hrs].
      rewrite Hcol, NoDup_cons, list_elem_of_fmap.
      assert (∀ q, Bitmap.Check (Z.setbit used (Port.Value port)) (Port.Value q) = false
                   ↔ Port.Value port ≠ Port.Value q
                     ∧ Bitmap.Check used (Port.Value q) = false) as Hset.
      { intros q. rewrite (Check_Set used _ _ (Port.Value q) (Set_Some used _ Hport)).
        rewrite orb_false_iff, Z.eqb_neq. done. }
      split.
      * intros (Hc0 & Hnd & Hfree). split; [done|]. split; [split; [|done]|].
        -- intros (q & Hq & Hin). apply Hfree, Hset in Hin. tauto.
        -- intros q Hq. apply elem_of_cons in Hq as [->|Hq]; [done|].
           by apply Hset, Hfree.
      * intros (Hc0 & [Hnotin Hnd] & Hfree). split; [done|]. split; [done|].
        intros q Hq. apply Hset. split.
        -- intros Heq. apply Hnotin. by exists q.
        -- apply Hfree. by right.
Qed.

Lemma AddReservedPorts_from_collide (ports : AllocatedPorts) (collide : bool)
    (reasons : list string) (idx : NetworkIndex.t) :
  Forall (λ m, mapping_ok m) ports →
  ∃ c rs,
    (AddReservedPorts_from ports collide reasons idx).1 = Ok (c, rs)
    ∧ (c = false ↔ collide = false ∧ NoDup (map mapping_key ports)
                   ∧ ∀ m, m ∈ ports →
                          port_used idx (AllocatedPortMapping.HostIP m)
                            (AllocatedPortMapping.Value m) = false)
    ∧ ((collide = false ↔ reasons = []) → (c = false ↔ rs = [])).
Proof.
  revert collide reasons idx.
  induction ports as [|port rest IH]; intros collide reasons idx Hok.
  - exists collide, reasons. split; [done|]. split; [|done].
    simpl. split; [|tauto]. intros ->. split; [done|]. split; [constructor|].
    intros m Hm. by apply elem_of_nil in Hm.
  - apply Forall_cons in Hok as [Hport Hrest]. simpl.
    pose proof (port_used_written_back idx (AllocatedPortMapping.HostIP port)) as Hwb.
    pose proof (getUsedPortsFor_frame idx (AllocatedPortMapping.HostIP port)) as Hf.
    pose proof (getUsedPortsFor_check idx (AllocatedPortMapping.HostIP port)) as Hc.
    destruct (getUsedPortsFor idx (AllocatedPortMapping.HostIP port)) as [used idx1].
    simpl in Hwb, Hf, Hc.
    rewrite (valid_not_invalid _ Hport).
    rewrite (uint_small (AllocatedPortMapping.Value port))
      by (unfold MaxValidPort in Hport; lia).
    destruct (Bitmap.Check used (AllocatedPortMapping.Value port)) eqn:Hchk.
    + destruct (IH true (reasons ++ ["port " +:+ fmt_d (AllocatedPortMapping.Value port)
                                      +:+ " already in use"]) idx1 Hrest)
        as (c & rs & -> & Hcol & Hrs).
      exists c, rs. split; [done|]. split.
      * split.
        -- intros Hfalse. apply Hcol in Hfalse as [Hfalse _]. done.
        -- intros (_ & _ & Hfree). specialize (Hfree port (list_elem_of_here _ _)).
           rewrite <- Hc in Hfree. congruence.
      * intros _. apply Hrs. split; [done|]. intros H. by apply app_nil in H as [_ H].
    + rewrite (Set_Some used _ Hport).
      destruct (IH collide reasons
                  (store_used idx1 (AllocatedPortMapping.HostIP port)
                     (Z.setbit used (AllocatedPortMapping.Value port))) Hrest)
        as (c & rs & -> & Hcol & Hrs).
      exists c, rs. split; [done|]. split; [|exact Hrs].
      rewrite Hcol, NoDup_cons, list_elem_of_fmap.
      assert (∀ m, port_used (store_used idx1 (AllocatedPortMapping.HostIP port)
                                (Z.setbit used (AllocatedPortMapping.Value port)))
                     (AllocatedPortMapping.HostIP m) (AllocatedPortMapping.Value m) = false
                   ↔ mapping_key port ≠ mapping_key m
                     ∧ port_used idx (AllocatedPortMapping.HostIP m)
                         (AllocatedPortMapping.Value m) = false) as Hset.
      { intros m. rewrite <- !not_true_iff_false.
        rewrite (Hwb (Z.setbit used (AllocatedPortMapping.Value port))
                   (λ q, AllocatedPortMapping.Value port = q)).
        2:{ intros q. rewrite (Check_Set used _ _ q (Set_Some used _ Hport)).
            rewrite orb_true_iff, Z.eqb_eq. tauto. }
        unfold mapping_key. split.
        - intros Hn. split; [|tauto]. intros [= Hip Hv]. apply Hn. right. by rewrite Hip.
        - intros [Hne Hn] [H|[Hip Hv]]; [done|]. apply Hne. by rewrite Hip, Hv. }
      rewrite Hc in Hchk.
      split.
      * intros (Hc0 & Hnd & Hfree). split; [done|]. split; [split; [|done]|].
        -- intros (m & Hm & Hin). apply Hfree, Hset in Hin. tauto.
        -- intros m Hm. apply elem_of_cons in Hm as [->|Hm].
           ++ exact Hchk.
           ++ by apply Hset, Hfree.
      * intros (Hc0 & [Hnotin Hnd] & Hfree). split; [done|]. split; [done|].
        intros m Hm. apply Hset. split.
        -- intros Heq. apply Hnotin. by exists m.
        -- apply Hfree. by right.
Qed.

(** ** AddAllocs as a run of reservations *)

Lemma run_calls_cons (idx : NetworkIndex.t) (c : reserve_call) (rest : list reserve_call) :
  run_calls idx (c :: rest)
  = ((run_call idx c).1 :: (run_calls (run_call idx c).2 rest).1,
     (run_calls (run_call idx c).2 rest).2).
Proof.
  cbn [run_calls]. destruct (run_call idx c) as [r idx1]. cbn [fst snd].
  by destruct (run_calls idx1 rest).
Qed.

Lemma run_calls_length (idx : NetworkIndex.t) (calls : list reserve_call) :
  length (run_calls idx calls).1 = length calls.
Proof.
  revert idx. induction calls as [|c rest IH]; intros idx; [done|].
  rewrite run_calls_cons. cbn [fst length]. by rewrite IH.
Qed.

Lemma run_reservations_cons (idx : NetworkIndex.t) (c : reserve_call)
    (msg : list string → string) (rest : list reservation) (cr : bool * string) :
  run_reservations idx ((c, msg) :: rest) cr
  = run_reservations (run_call idx c).2 rest
      match (run_call idx c).1 with
      | Ok (true, rs) => (true, msg rs)
      | _ => cr
      end.
Proof.
  unfold run_reservations. cbn [map fst]. rewrite run_calls_cons. cbn [fst snd report].
  by destruct (run_call idx c).1 as [[[] rs]|e|].
Qed.

Lemma run_reservations_app (idx : NetworkIndex.t) (calls1 calls2 : list reservation)
    (cr : bool * string) :
  run_reservations idx (calls1 ++ calls2) cr
  = run_reservations (run_reservations idx calls1 cr).2 calls2
      (run_reservations idx calls1 cr).1.
Proof.
  revert idx cr. induction calls1 as [|[c msg] rest IH]; intros idx cr; [done|].
  rewrite <- app_comm_cons, !run_reservations_cons. apply IH.
Qed.

Lemma AddAllocs_networks_runs (id : string) (networks : list NetworkResource.t)
    (collide : bool) (reason : string) (idx : NetworkIndex.t) :
  AddAllocs_networks id networks collide reason idx
  = (Ok (run_reservations idx (network_reservations id networks) (collide, reason)).1,
     (run_reservations idx (network_reservations id networks) (collide, reason)).2).
Proof.
  revert collide reason idx.
  induction networks as [|network rest IH]; intros collide reason idx; [done|].
  cbn [AddAllocs_networks]. unfold network_reservations. cbn [map].
  rewrite run_reservations_cons. cbn [run_call].
  destruct (AddReserved_returns idx network) as (c & rs & Hret).
  destruct (AddReserved idx network) as [r idx1]. cbn [fst snd] in *. subst r.
  destruct c; apply IH.
Qed.

Lemma AddAllocs_tasks_runs (prefix id : string)
    (tasks : list (string * list NetworkResource.t))
    (collide : bool) (reason : string) (idx : NetworkIndex.t) :
  AddAllocs_tasks prefix id tasks collide reason idx
  = (Ok (run_reservations idx (task_reservations prefix id tasks) (collide, reason)).1,
     (run_reservations idx (task_reservations prefix id tasks) (collide, reason)).2).
Proof.
  revert collide reason idx.
  induction tasks as [|[task networks] rest IH]; intros collide reason idx; [done|].
  cbn [AddAllocs_tasks]. unfold task_reservations. cbn [flat_map fst snd].
  destruct networks as [|n others]; [apply IH|].
  cbn [app]. rewrite run_reservations_cons. cbn [run_call].
  destruct (AddReserved_returns idx n) as (c & rs & Hret).
  destruct (AddReserved idx n) as [r idx1]. cbn [fst snd] in *. subst r.
  destruct c; apply IH.
Qed.

Lemma AddAllocs_alloc_runs (alloc : Allocation.t)
    (collide : bool) (reason : string) (idx : NetworkIndex.t) :
  AddAllocs_alloc alloc collide reason idx
  = (Ok (run_reservations idx (alloc_reservations alloc) (collide, reason)).1,
     (run_reservations idx (alloc_reservations alloc) (collide, reason)).2).
Proof.
  unfold AddAllocs_alloc, alloc_reservations. cbv zeta.
  destruct (Allocation.AllocatedResources alloc) as [ar|]; [|apply AddAllocs_tasks_runs].
  destruct (AllocatedSharedResources.Ports (AllocatedResources.Shared ar))
    as [|port ports] eqn:Hports.
  - change (0 <? Z.of_nat (length (@nil AllocatedPortMapping.t))) with false. cbv iota.
    rewrite run_reservations_app, AddAllocs_networks_runs.
    destruct (run_reservations idx _ (collide, reason)) as [[c r] idx1]. cbn [fst snd].
    apply AddAllocs_tasks_runs.
  - destruct (0 <? Z.of_nat (length (port :: ports))) eqn:Hlen;
      [|apply Z.ltb_ge in Hlen; cbn [length] in Hlen; lia].
    rewrite run_reservations_cons. cbn [run_call].
    unfold AddReservedPorts.
    destruct (AddReservedPorts_from_returns (port :: ports) false [] idx) as (c & rs & Hret).
    destruct (AddReservedPorts_from (port :: ports) false [] idx) as [r idx1].
    cbn [fst snd] in *. subst r. by destruct c.
Qed.

Lemma report_spec (calls : list reservation) (outs : list (result (bool * list string)))
    (cr : bool * string) :
  length outs = length calls →
  ((report calls outs cr).1 = true ↔ cr.1 = true ∨ Exists collided outs)
  ∧ (¬ Exists collided outs → report calls outs cr = cr)
  ∧ (∀ i c msg rs,
       calls !! i = Some (c, msg) →
       outs !! i = Some (Ok (true, rs)) →
       (∀ j r, (i < j)%nat → outs !! j = Some r → ¬ collided r) →
       report calls outs cr = (true, msg rs)).
Proof.
  revert outs cr. induction calls as [|[c0 msg0] calls IH]; intros outs cr Hlen.
  { destruct outs; [|done]. cbn [report]. split; [|split].
    - rewrite Exists_nil. tauto.
    - done.
    - intros i c msg rs Hi. by rewrite lookup_nil in Hi. }
  destruct outs as [|o outs]; [done|]. injection Hlen as Hlen.
  assert (collided o ∨ ¬ collided o) as [Ho|Ho].
  { destruct o as [[[] rs]|e|]; [left; by exists rs|right..]; intros [rs' [=]]. }
  - destruct Ho as [rs0 ->]. cbn [report].
    destruct (IH outs (true, msg0 rs0) Hlen) as (H1 & H2 & H3).
    split; [|split].
    + rewrite H1. cbn [fst]. split; [|by left].
      intros _. right. apply Exists_cons_hd. by exists rs0.
    + intros Hno. destruct Hno. apply Exists_cons_hd. by exists rs0.
    + intros [|i] c msg rs Hc Ho Hlater.
      * injection Hc as <- <-. injection Ho as <-.
        apply H2. intros Hex. apply Exists_exists in Hex as (r & Hr & Hcol).
        apply list_elem_of_lookup in Hr as [j Hj].
        by apply (Hlater (S j) r); [lia| |].
      * apply (H3 i c msg rs Hc Ho). intros j r Hj Hr.
        apply (Hlater (S j) r); [lia|done].
  - assert (report (((c0, msg0) : reservation) :: calls) (o :: outs) cr
            = report calls outs cr) as ->.
    { cbn [report]. destruct o as [[[] rs]|e|]; try done. destruct Ho. by exists rs. }
    destruct (IH outs cr Hlen) as (H1 & H2 & H3).
    split; [|split].
    + rewrite H1, Exists_cons. tauto.
    + intros Hno. apply H2. intros Hex. apply Hno. by apply Exists_cons_tl.
    + intros [|i] c msg rs Hc Ho' Hlater.
      * injection Ho' as ->. destruct Ho. by exists rs.
      * apply (H3 i c msg rs Hc Ho'). intros j r Hj Hr.
        apply (Hlater (S j) r); [lia|done].
Qed.

Lemma elem_of_call_keys (c : reserve_call) (ip : string) (p : Z) :
  (ip, p) ∈ call_keys c ↔ call_reserves c ip p.
Proof.
  destruct c as [n|ports]; cbn [call_keys call_reserves].
  - rewrite list_elem_of_fmap. split.
    + intros (q & [= -> ->] & Hq). split; [done|]. apply list_elem_of_fmap. by exists q.
    + intros [-> Hp]. apply list_elem_of_fmap in Hp as (q & -> & Hq). by exists q.
  - rewrite list_elem_of_fmap. split.
    + intros (m & [= -> ->] & Hm). by exists m.
    + intros (m & Hm & <- & <-). by exists m.
Qed.

Lemma run_call_collide (idx : NetworkIndex.t) (c : reserve_call) :
  call_in_range c →
  ∃ collide reasons,
    (run_call idx c).1 = Ok (collide, reasons)
    ∧ (collide = false
       ↔ NoDup (call_keys c) ∧ ∀ ip p, (ip, p) ∈ call_keys c → port_used idx ip p = false).
Proof.
  destruct c as [n|ports]; cbn [call_in_range run_call call_keys]; intros Hok.
  - rewrite AddReserved_flat. cbv zeta.
    pose proof (getUsedPortsFor_check idx (NetworkResource.IP n)) as Hc.
    destruct (getUsedPortsFor idx (NetworkResource.IP n)) as [used idx1]. cbn [fst] in Hc.
    destruct (AddReserved_ports_collide _ used false [] Hok)
      as (used' & c & rs & -> & Hcol & _).
    exists c, rs. split; [done|]. rewrite Hcol.
    set (ports := NetworkResource.ReservedPorts n ++ NetworkResource.DynamicPorts n).
    assert (NoDup (map (λ q, (NetworkResource.IP n, Port.Value q)) ports)
            ↔ NoDup (map Port.Value ports)) as ->.
    { rewrite <- (map_map Port.Value (λ v, (NetworkResource.IP n, v))).
      assert (Inj (=) (=) (λ v : Z, (NetworkResource.IP n, v))) as Hinj
        by (by intros v1 v2 [=]).
      apply (NoDup_fmap _). }
    split.
    + intros (_ & Hnd & Hfree). split; [done|]. intros ip p Hin.
      apply list_elem_of_fmap in Hin as (q & [= -> ->] & Hq). rewrite <- Hc. by apply Hfree.
    + intros (Hnd & Hfree). split; [done|]. split; [done|].
      intros q Hq. rewrite Hc. apply Hfree. apply list_elem_of_fmap. by exists q.
  - unfold AddReservedPorts.
    destruct (AddReservedPorts_from_collide ports false [] idx Hok)
      as (c & rs & Hret & Hcol & _).
    exists c, rs. split; [done|]. rewrite Hcol. split.
    + intros (_ & Hnd & Hfree). split; [exact Hnd|]. intros ip p Hin.
      apply list_elem_of_fmap in Hin as (m & [= -> ->] & Hm). by apply Hfree.
    + intros (Hnd & Hfree). split; [done|]. split; [exact Hnd|].
      intros m Hm. apply Hfree. apply list_elem_of_fmap. by exists m.
Qed.

Lemma run_calls_collide (idx : NetworkIndex.t) (calls : list reserve_call) :
  Forall call_in_range calls →
  ¬ Exists collided (run_calls idx calls).1
  ↔ NoDup (flat_map call_keys calls)
    ∧ ∀ ip p, (ip, p) ∈ flat_map call_keys calls → port_used idx ip p = false.
Proof.
  intros Hok. revert idx. induction Hok as [|c rest Hc _ IH]; intros idx.
  { cbn. rewrite Exists_nil. split; [|tauto]. intros _. split; [constructor|].
    intros ip p Hin. by apply elem_of_nil in Hin. }
  rewrite run_calls_cons. cbn [fst flat_map].
  destruct (run_call_collide idx c Hc) as (cl & rs & Hret & Hcol).
  pose proof (run_call_valid idx c Hc) as Hused.
  rewrite Hret, Exists_cons, NoDup_app.
  assert (collided (Ok (cl, rs)) ↔ cl = true) as ->.
  { split; [by intros [rs' [= -> _]]|intros ->; by exists rs]. }
  specialize (IH (run_call idx c).2).
  assert (∀ ip p, port_used (run_call idx c).2 ip p = false
                  ↔ port_used idx ip p = false ∧ (ip, p) ∉ call_keys c) as Hfree.
  { intros ip p. rewrite elem_of_call_keys.
    destruct (port_used (run_call idx c).2 ip p) eqn:Hafter.
    - apply Hused in Hafter. split; [done|]. intros [Hb Hn].
      destruct Hafter as [Ha|Ha]; [congruence|done].
    - split; [|done]. intros _. split.
      + apply not_true_is_false. intros Hb.
        assert (port_used (run_call idx c).2 ip p = true) by (apply Hused; by left).
        congruence.
      + intros Hr.
        assert (port_used (run_call idx c).2 ip p = true) by (apply Hused; by right).
        congruence. }
  split.
  - intros Hno.
    assert (cl = false) as Hcl by (destruct cl; [destruct Hno; by left|done]).
    apply Hcol in Hcl as [Hnd Hfr].
    assert (¬ Exists collided (run_calls (run_call idx c).2 rest).1) as Hrest
      by (intros Hex; apply Hno; by right).
    apply IH in Hrest as [Hnd' Hfr'].
    split; [split; [done|split; [|done]]|].
    + intros [ip p] Hin Hin'. by destruct (proj1 (Hfree ip p) (Hfr' ip p Hin')).
    + intros ip p Hin. apply elem_of_app in Hin as [Hin|Hin]; [by apply Hfr|].
      by destruct (proj1 (Hfree ip p) (Hfr' ip p Hin)).
  - intros [(Hnd & Hdisj & Hnd') Hfr] [Hcl|Hex].
    + assert (cl = false) as ->; [|done]. apply Hcol. split; [done|].
      intros ip p Hin. apply Hfr. apply elem_of_app. by left.
    + revert Hex. apply IH. split; [done|]. intros ip p Hin. apply Hfree. split.
      * apply Hfr. apply elem_of_app. by right.
      * intros Hin'. by apply (Hdisj (ip, p)).
Qed.

Section AddAllocs_properties.

Variable TerminalStatus : Allocation.t → bool.

Lemma AddAllocs_from_overwrite (allocs : list Allocation.t) (idx : NetworkIndex.t) :
  ∃ last idx', ∀ collide reason,
    AddAllocs_from TerminalStatus allocs collide reason idx = (Ok (overwrite last (collide, reason)), idx').
Proof.
  revert idx. induction allocs as [|alloc rest IH]; intros idx.
  - by exists None, idx.
  - simpl. destruct (TerminalStatus alloc).
    + apply IH.
    + destruct (AddAllocs_alloc_overwrite alloc idx) as (last1 & idx1 & H1).
      destruct (IH idx1) as (last2 & idx2 & H2).
      exists (match last2 with Some m => Some m | None => last1 end), idx2.
      intros collide reason. rewrite H1.
      destruct (overwrite last1 (collide, reason)) as [c1 r1] eqn:E1.
      rewrite H2. destruct last2; simpl; [done|by rewrite E1].
Qed.

Lemma AddAllocs_from_app (allocs1 allocs2 : list Allocation.t) (collide : bool)
    (reason : string) (idx : NetworkIndex.t) :
  AddAllocs_from TerminalStatus (allocs1 ++ allocs2) collide reason idx
  = match AddAllocs_from TerminalStatus allocs1 collide reason idx with
    | (Ok (c, r), idx') => AddAllocs_from TerminalStatus allocs2 c r idx'
    | other => other
    end.
Proof.
  revert collide reason idx.
  induction allocs1 as [|alloc rest IH]; intros collide reason idx; [done|].
  simpl. destruct (TerminalStatus alloc); [apply IH|].
  destruct (AddAllocs_alloc alloc collide reason idx) as [[[c r]|e|] idx1]; [apply IH|done..].
Qed.

Lemma AddAllocs_from_live (allocs : list Allocation.t) (collide : bool)
    (reason : string) (idx : NetworkIndex.t) :
  AddAllocs_from TerminalStatus allocs collide reason idx
  = AddAllocs_from TerminalStatus (List.filter (λ a, negb (TerminalStatus a)) allocs) collide reason idx.
Proof.
  revert collide reason idx.
  induction allocs as [|alloc rest IH]; intros collide reason idx; [done|].
  simpl. destruct (TerminalStatus alloc) eqn:Ht; simpl; [apply IH|].
  rewrite Ht.
  destruct (AddAllocs_alloc alloc collide reason idx) as [[[c r]|e|] idx1]; [apply IH|done..].
Qed.

Lemma AddAllocs_split (idx : NetworkIndex.t) (before after : list Allocation.t) :
  ∃ c1 r1 idx1 c2 r2 idx2,
    AddAllocs TerminalStatus idx before = (Ok (c1, r1), idx1)
    ∧ AddAllocs TerminalStatus idx1 after = (Ok (c2, r2), idx2)
    ∧ AddAllocs TerminalStatus idx (before ++ after) = (Ok (c1 || c2, if c2 then r2 else r1), idx2).
Proof.
  unfold AddAllocs.
  destruct (AddAllocs_from_overwrite before idx) as (last1 & idx1 & H1).
  destruct (AddAllocs_from_overwrite after idx1) as (last2 & idx2 & H2).
  exists (overwrite last1 (false, "")).1, (overwrite last1 (false, "")).2, idx1,
         (overwrite last2 (false, "")).1, (overwrite last2 (false, "")).2, idx2.
  rewrite AddAllocs_from_app, !H1, !H2.
  destruct (overwrite last1 (false, "")) as [c1 r1] eqn:E1. simpl.
  rewrite H2.
  split; [done|]. split; [by destruct (overwrite last2 (false, ""))|].
  destruct last2; simpl; [by rewrite orb_true_r|by rewrite orb_false_r].
Qed.

Lemma AddAllocs_from_runs (allocs : list Allocation.t) (collide : bool) (reason : string)
    (idx : NetworkIndex.t) :
  let calls := flat_map alloc_reservations
                 (List.filter (λ a, negb (TerminalStatus a)) allocs) in
  AddAllocs_from TerminalStatus allocs collide reason idx
  = (Ok (run_reservations idx calls (collide, reason)).1,
     (run_reservations idx calls (collide, reason)).2).
Proof.
  cbv zeta. revert collide reason idx.
  induction allocs as [|alloc rest IH]; intros collide reason idx; [done|].
  cbn [AddAllocs_from List.filter].
  destruct (TerminalStatus alloc); cbn [negb]; [apply IH|].
  cbn [flat_map]. rewrite run_reservations_app, AddAllocs_alloc_runs.
  destruct (run_reservations idx (alloc_reservations alloc) (collide, reason)) as [[c r] idx1].
  apply IH.
Qed.

(** C7. [AddAllocs] makes the reservations of the allocations that are
    not terminal, all of them and in their order, and nothing else: its
    result and the index it leaves are those of the list without its
    terminal allocations, and the index is the one that these
    reservations leave one after the other, whatever collides on the way.
    It returns [collide = true] exactly when one of the reservations
    reports a collision; then the reason is the one of the last
    reservation that does, which names its allocation, and without a
    collision the reason is empty. With port values in range, no
    collision is reported exactly when the address and port pairs asked
    for are all different and none was in use before the call. *)
Theorem AddAllocs_skips_terminal_keeps_going (idx : NetworkIndex.t) (allocs : list Allocation.t) :
  let live := List.filter (λ a, negb (TerminalStatus a)) allocs in
  let calls := flat_map alloc_reservations live in
  let outs := (run_calls idx (map fst calls)).1 in
  AddAllocs TerminalStatus idx allocs = AddAllocs TerminalStatus idx live
  ∧ ∃ collide reason,
      AddAllocs TerminalStatus idx allocs
      = (Ok (collide, reason), (run_calls idx (map fst calls)).2)
      ∧ (collide = true ↔ Exists collided outs)
      ∧ (collide = false → reason = "")
      ∧ (∀ i c msg rs,
           calls !! i = Some (c, msg) →
           outs !! i = Some (Ok (true, rs)) →
           (∀ j r, (i < j)%nat → outs !! j = Some r → ¬ collided r) →
           reason = msg rs)
      ∧ (Forall call_in_range (map fst calls) →
         (collide = false
          ↔ NoDup (flat_map call_keys (map fst calls))
            ∧ ∀ ip p, (ip, p) ∈ flat_map call_keys (map fst calls) →
                      port_used idx ip p = false)).
Proof.
  cbv zeta. split; [apply AddAllocs_from_live|].
  set (calls := flat_map alloc_reservations
                  (List.filter (λ a, negb (TerminalStatus a)) allocs)).
  set (outs := (run_calls idx (map fst calls)).1).
  destruct (report_spec calls outs (false, "")) as (Hiff & Hnone & Hlast).
  { unfold outs. by rewrite run_calls_length, length_map. }
  exists (report calls outs (false, "")).1, (report calls outs (false, "")).2.
  split; [|split; [|split; [|split]]].
  - unfold AddAllocs. rewrite AddAllocs_from_runs. fold calls.
    unfold run_reservations. fold outs. cbn [fst snd].
    by destruct (report calls outs (false, "")).
  - rewrite Hiff. cbn [fst]. split; [by intros [?|?]|by right].
  - intros Hfalse. rewrite Hnone; [done|]. intros Hex.
    assert ((report calls outs (false, "")).1 = true) by (apply Hiff; by right).
    congruence.
  - intros i c msg rs Hc Ho Hlater. by rewrite (Hlast i c msg rs Hc Ho Hlater).
  - intros Hok. rewrite <- (run_calls_collide idx (map fst calls) Hok). fold outs.
    split.
    + intros Hfalse Hex.
      assert ((report calls outs (false, "")).1 = true) by (apply Hiff; by right).
      congruence.
    + intros Hno. by rewrite Hnone.
Qed.

End AddAllocs_properties.

(** ** SetNode reads nothing of the index but its used ports *)

Section SetNode_properties.

Variable ParsePortRanges : string → result (list Z).

(** The used ports that one of two runs has in addition to the other. *)
Variable idx0 : NetworkIndex.t.

Lemma used_over_store (idx1 idx2 : NetworkIndex.t) (ip : string) (b1 b2 : Bitmap.t) :
  used_over idx0 idx1 idx2 → bits_over (port_used idx0 ip) b1 b2 →
  used_over idx0 (store_used idx1 ip b1) (store_used idx2 ip b2).
Proof.
  intros Hi Hb ip' p. rewrite !port_used_store.
  case_decide as Hip; [subst ip'; apply Hb|apply Hi].
Qed.

Lemma used_over_getUsedPortsFor (idx1 idx2 : NetworkIndex.t) (ip : string) :
  used_over idx0 idx1 idx2 →
  bits_over (port_used idx0 ip) (getUsedPortsFor idx1 ip).1 (getUsedPortsFor idx2 ip).1
  ∧ used_over idx0 (getUsedPortsFor idx1 ip).2 (getUsedPortsFor idx2 ip).2.
Proof.
  intros Hi. split.
  - intros p. rewrite !getUsedPortsFor_check. apply Hi.
  - intros ip' p. rewrite !getUsedPortsFor_frame. apply Hi.
Qed.

Lemma used_over_fields (idx1 idx2 idx1' idx2' : NetworkIndex.t) :
  NetworkIndex.UsedPorts idx1' = NetworkIndex.UsedPorts idx1 →
  NetworkIndex.UsedPorts idx2' = NetworkIndex.UsedPorts idx2 →
  used_over idx0 idx1 idx2 → used_over idx0 idx1' idx2'.
Proof.
  intros H1 H2 Hi ip p. unfold port_used. rewrite H1, H2. apply Hi.
Qed.

Lemma bits_over_Set (extra : Z → bool) (b1 b2 : Bitmap.t) (i : Z) :
  bits_over extra b1 b2 →
  match Bitmap.Set_ b1 i, Bitmap.Set_ b2 i with
  | Some b1', Some b2' => bits_over extra b1' b2'
  | None, None => True
  | _, _ => False
  end.
Proof.
  intros Hb.
  destruct (Bitmap.Set_ b1 i) as [b1'|] eqn:E1; destruct (Bitmap.Set_ b2 i) as [b2'|] eqn:E2.
  - intros p. rewrite (Check_Set _ _ _ p E1), (Check_Set _ _ _ p E2), Hb.
    by destruct (i =? p), (extra p).
  - unfold Bitmap.Set_ in *. by destruct (Bitmap.in_range i).
  - unfold Bitmap.Set_ in *. by destruct (Bitmap.in_range i).
  - done.
Qed.

Lemma bits_over_set_all (extra : Z → bool) (ports : list Z) (b1 b2 : Bitmap.t) :
  bits_over extra b1 b2 →
  match set_all b1 ports, set_all b2 ports with
  | Some b1', Some b2' => bits_over extra b1' b2'
  | None, None => True
  | _, _ => False
  end.
Proof.
  revert b1 b2. induction ports as [|p rest IH]; intros b1 b2 Hb; [done|].
  simpl. pose proof (bits_over_Set extra b1 b2 p Hb) as Hs.
  destruct (Bitmap.Set_ b1 p), (Bitmap.Set_ b2 p); try done.
  by apply IH.
Qed.

Lemma SetNode_legacy_ports_over (extra : Z → bool) (ports : list Port.t) (b1 b2 : Bitmap.t)
    (globalResPorts : list Z) :
  bits_over extra b1 b2 →
  (SetNode_legacy_ports ports b1 globalResPorts).2
  = (SetNode_legacy_ports ports b2 globalResPorts).2
  ∧ bits_over extra (SetNode_legacy_ports ports b1 globalResPorts).1
                    (SetNode_legacy_ports ports b2 globalResPorts).1.
Proof.
  revert b1 b2 globalResPorts.
  induction ports as [|port rest IH]; intros b1 b2 globalResPorts Hb; [done|].
  simpl. destruct (_ || _); [done|].
  pose proof (bits_over_Set extra b1 b2 (uint (Port.Value port)) Hb) as Hs.
  destruct (Bitmap.Set_ b1 (uint (Port.Value port))),
           (Bitmap.Set_ b2 (uint (Port.Value port))); try done.
  by apply IH.
Qed.

Lemma SetNode_legacy_over (networks : list NetworkResource.t) (globalResPorts : list Z)
    (idx1 idx2 : NetworkIndex.t) :
  used_over idx0 idx1 idx2 →
  (SetNode_legacy networks globalResPorts idx1).1
  = (SetNode_legacy networks globalResPorts idx2).1
  ∧ used_over idx0 (SetNode_legacy networks globalResPorts idx1).2
                   (SetNode_legacy networks globalResPorts idx2).2.
Proof.
  revert globalResPorts idx1 idx2.
  induction networks as [|n rest IH]; intros globalResPorts idx1 idx2 Hi; [done|].
  simpl.
  destruct (used_over_getUsedPortsFor idx1 idx2 (NetworkResource.IP n) Hi) as [Hb Hi'].
  destruct (getUsedPortsFor idx1 (NetworkResource.IP n)) as [u1 i1].
  destruct (getUsedPortsFor idx2 (NetworkResource.IP n)) as [u2 i2]. simpl in Hb, Hi'.
  destruct (SetNode_legacy_ports_over _ (NetworkResource.ReservedPorts n) u1 u2
              globalResPorts Hb) as [Hf Hb1].
  destruct (SetNode_legacy_ports (NetworkResource.ReservedPorts n) u1 globalResPorts)
    as [u1' f1].
  destruct (SetNode_legacy_ports (NetworkResource.ReservedPorts n) u2 globalResPorts)
    as [u2' f2]. simpl in Hf, Hb1. subst f2.
  destruct f1 as [g1|e|]; [|split; [done|by apply used_over_store]..].
  destruct (SetNode_legacy_ports_over _ (NetworkResource.DynamicPorts n) u1' u2' g1 Hb1)
    as [Hf Hb2].
  destruct (SetNode_legacy_ports (NetworkResource.DynamicPorts n) u1' g1) as [u1'' f1].
  destruct (SetNode_legacy_ports (NetworkResource.DynamicPorts n) u2' g1) as [u2'' f2].
  simpl in Hf, Hb2. subst f2.
  destruct f1 as [g2|e|]; [|split; [done|by apply used_over_store]..].
  apply IH.
  eapply used_over_fields; [| |apply (used_over_store i1 i2 (NetworkResource.IP n) _ _ Hi' Hb2)];
    by destruct (String.eqb _ _).
Qed.

(** Two runs are at a call of [getUsedPortsFor] for [ip], on indexes that
    [Hi] relates up to fields other than the used ports: name what the two
    calls return ([u1], [i1] and [u2], [i2]) and relate them ([Hb], [Hi']). *)
Ltac fetch_both ip Hi :=
  match goal with
  | |- context [getUsedPortsFor ?a ip] =>
      match goal with
      | |- context [getUsedPortsFor ?b ip] =>
          tryif constr_eq a b then fail else
            let Hb := fresh "Hb" in
            let Hi' := fresh "Hi'" in
            destruct (used_over_getUsedPortsFor a b ip) as [Hb Hi'];
            [by eapply used_over_fields; [| |exact Hi]|];
            destruct (getUsedPortsFor a ip) as [u1 i1];
            destruct (getUsedPortsFor b ip) as [u2 i2];
            simpl in Hb, Hi'
      end
  end.

Lemma SetNode_taskNetworks_over (taskNetworks : list NetworkResource.t)
    (globalResPorts : list Z) (idx1 idx2 : NetworkIndex.t) :
  used_over idx0 idx1 idx2 →
  (SetNode_taskNetworks taskNetworks globalResPorts idx1).1
  = (SetNode_taskNetworks taskNetworks globalResPorts idx2).1
  ∧ used_over idx0 (SetNode_taskNetworks taskNetworks globalResPorts idx1).2
                   (SetNode_taskNetworks taskNetworks globalResPorts idx2).2.
Proof.
  revert idx1 idx2.
  induction taskNetworks as [|n rest IH]; intros idx1 idx2 Hi; [done|].
  simpl. destruct (String.eqb _ _); [by apply IH|].
  fetch_both (NetworkResource.IP n) Hi.
  pose proof (bits_over_set_all _ globalResPorts u1 u2 Hb) as Hs.
  destruct (set_all u1 globalResPorts), (set_all u2 globalResPorts); try done.
  apply IH. by apply used_over_store.
Qed.

Lemma SetNode_addresses_over (addrs : list NodeNetworkAddress.t)
    (globalResPorts : list Z) (idx1 idx2 : NetworkIndex.t) :
  used_over idx0 idx1 idx2 →
  (SetNode_addresses ParsePortRanges addrs globalResPorts idx1).1
  = (SetNode_addresses ParsePortRanges addrs globalResPorts idx2).1
  ∧ used_over idx0 (SetNode_addresses ParsePortRanges addrs globalResPorts idx1).2
                   (SetNode_addresses ParsePortRanges addrs globalResPorts idx2).2.
Proof.
  revert idx1 idx2.
  induction addrs as [|a rest IH]; intros idx1 idx2 Hi; [done|].
  simpl.
  fetch_both (NodeNetworkAddress.Address a) Hi.
  pose proof (bits_over_set_all _ globalResPorts u1 u2 Hb) as Hs.
  destruct (set_all u1 globalResPorts) as [u1'|], (set_all u2 globalResPorts) as [u2'|];
    try done.
  destruct (String.eqb _ _); [apply IH; by apply used_over_store|].
  destruct (ParsePortRanges (NodeNetworkAddress.ReservedPorts a)) as [rp|e|];
    [|split; [done|by apply used_over_store]..].
  pose proof (bits_over_set_all _ (map uint rp) u1' u2' Hs) as Hs'.
  destruct (set_all u1' (map uint rp)), (set_all u2' (map uint rp)); try done.
  - apply IH. by apply used_over_store.
  - split; [done|by apply used_over_store].
Qed.

(** Two runs of [SetNode] on indexes of which one has the ports of [idx0]
    in addition end alike and leave indexes in the same relation. *)
Lemma SetNode_over (idx1 idx2 : NetworkIndex.t) (node : Node.t) :
  used_over idx0 idx1 idx2 →
  (SetNode ParsePortRanges idx1 node).1 = (SetNode ParsePortRanges idx2 node).1
  ∧ used_over idx0 (SetNode ParsePortRanges idx1 node).2 (SetNode ParsePortRanges idx2 node).2.
Proof.
  intros Hi. unfold SetNode. cbv zeta.
  set (taskNetworks := match Node.NodeResources node with
                       | Some nr => _
                       | None => _
                       end).
  set (nodeNetworks := match Node.NodeResources node with
                       | Some nr => NodeResources.NodeNetworks nr
                       | None => []
                       end).
  assert (∀ j1 j2, used_over idx0 j1 j2 →
            (match Node.Reserved node with
             | Some r => SetNode_legacy (Resources.Networks r) [] j1
             | None => (Next [], j1)
             end).1
            = (match Node.Reserved node with
               | Some r => SetNode_legacy (Resources.Networks r) [] j2
               | None => (Next [], j2)
               end).1
            ∧ used_over idx0
                (match Node.Reserved node with
                 | Some r => SetNode_legacy (Resources.Networks r) [] j1
                 | None => (Next [], j1)
                 end).2
                (match Node.Reserved node with
                 | Some r => SetNode_legacy (Resources.Networks r) [] j2
                 | None => (Next [], j2)
                 end).2) as Hlegacy.
  { intros j1 j2 Hj. destruct (Node.Reserved node); [by apply SetNode_legacy_over|done]. }
  match goal with
  | |- (match ?r1 with (_, _) => _ end).1 = (match ?r2 with (_, _) => _ end).1 ∧ _ =>
      assert (r1.1 = r2.1 ∧ used_over idx0 r1.2 r2.2) as [Hf Hi1];
      [|destruct r1 as [f1 i1], r2 as [f2 i2]]
  end.
  { destruct (Node.ReservedResources node) as [rr|]; [|by apply Hlegacy].
    destruct (String.eqb _ _); [by apply Hlegacy|].
    by destruct (ParsePortRanges _). }
  simpl in Hf, Hi1. subst f2.
  destruct f1 as [globalResPorts|e|]; [|done..].
  destruct (SetNode_taskNetworks_over taskNetworks globalResPorts i1 i2 Hi1) as [Hr Hi2].
  destruct (SetNode_taskNetworks taskNetworks globalResPorts i1) as [r1 j1].
  destruct (SetNode_taskNetworks taskNetworks globalResPorts i2) as [r2 j2].
  simpl in Hr, Hi2. subst r2.
  destruct r1 as [[]|e|]; [|done..].
  destruct (SetNode_addresses_over (flat_map NodeNetworkResource.Addresses nodeNetworks)
              globalResPorts j1 j2 Hi2) as [Hr Hi3].
  destruct (SetNode_addresses _ _ globalResPorts j1) as [r1 k1].
  destruct (SetNode_addresses _ _ globalResPorts j2) as [r2 k2].
  simpl in Hr, Hi3. subst r2.
  destruct r1 as [[]|e|]; [|done..].
  split; [done|]. simpl.
  eapply used_over_fields; [| |exact Hi3];
    destruct (Node.NodeResources node) as [nr|]; try done;
    by destruct (NodeResources.MinDynamicPort nr >? 0), (NodeResources.MaxDynamicPort nr >? 0).
Qed.

End SetNode_properties.

(** C4. Run [SetNode] on an index with no used port, clear the used ports
    of the index it leaves, and run [SetNode] again on the same node: the
    second run ends as the first did (it returns, fails or panics alike)
    and leaves, for every address, the same set of marked ports. The same
    holds when only [Release] comes between the two runs, which leaves
    the bitmaps in the index. *)
Theorem SetNode_idempotent (ParsePortRanges : string → result (list Z))
    (idx : NetworkIndex.t) (node : Node.t) :
  (∀ ip p, port_used idx ip p = false) →
  let first := SetNode ParsePortRanges idx node in
  let second := SetNode ParsePortRanges (clear_used_ports first.2) node in
  let again := SetNode ParsePortRanges (Release first.2) node in
  (second.1 = first.1
   ∧ ∀ ip p, port_used second.2 ip p = port_used first.2 ip p)
  ∧ (again.1 = first.1
     ∧ ∀ ip p, port_used again.2 ip p = port_used first.2 ip p).
Proof.
  intros Hempty first second again. split.
  - destruct (SetNode_over ParsePortRanges idx (clear_used_ports first.2) idx node)
      as [Hr Hu].
    + intros ip p. rewrite Hempty. unfold port_used, clear_used_ports. simpl.
      by rewrite lookup_empty.
    + split; [exact Hr|]. intros ip p.
      unfold second. rewrite Hu, Hempty. done.
  - destruct (SetNode_over ParsePortRanges first.2 (Release first.2) idx node)
      as [Hr Hu].
    + intros ip p. rewrite Hempty. unfold Release. by rewrite orb_false_r.
    + split; [exact Hr|]. intros ip p.
      unfold again. rewrite Hu. fold first. apply orb_diag.
Qed.

(** ** The precise selector *)

Lemma rand_Intn_pos (n : Z) (rng : Rng) :
  0 < n → ∃ j rng', rand_Intn n rng = (Ok j, rng') ∧ 0 <= j < n.
Proof.
  intros Hn. unfold rand_Intn.
  destruct (n <=? 0) eqn:E; [lia|].
  destruct rng as [|r rng'].
  - exists 0, []. split; [done|lia].
  - exists (r mod n), rng'. split; [done|]. apply Z.mod_pos_bound. lia.
Qed.

Lemma set_all_valid (ports : list Z) (b : Bitmap.t) :
  Forall (λ p, 0 <= p < MaxValidPort) ports →
  ∃ b', set_all b ports = Some b'
        ∧ ∀ p, Bitmap.Check b' p = true ↔ Bitmap.Check b p = true ∨ p ∈ ports.
Proof.
  revert b. induction ports as [|q rest IH]; intros b Hok.
  - exists b. split; [done|]. intros p. rewrite elem_of_nil. tauto.
  - apply Forall_cons in Hok as [Hq Hrest]. simpl.
    rewrite (Set_Some b q Hq).
    destruct (IH (Z.setbit b q) Hrest) as (b' & -> & Hchk).
    exists b'. split; [done|]. intros p.
    rewrite Hchk, (Check_Set b _ q p (Set_Some b q Hq)).
    rewrite orb_true_iff, Z.eqb_eq, elem_of_cons. intuition congruence.
Qed.

Lemma elem_of_IndexesInRange (b : Bitmap.t) (set : bool) (from to p : Z) :
  p ∈ Bitmap.IndexesInRange b set from to
  ↔ from <= p <= to ∧ p < MaxValidPort ∧ Bitmap.Check b p = set.
Proof.
  unfold Bitmap.IndexesInRange, Bitmap.Size. cbv zeta.
  rewrite list_elem_of_filter, elem_of_seqZ.
  rewrite <- (Bool.eqb_true_iff (Bitmap.Check b p) set).
  destruct (Bool.eqb (Bitmap.Check b p) set); simpl; [|intuition congruence].
  intuition lia.
Qed.

Lemma NoDup_IndexesInRange (b : Bitmap.t) (set : bool) (from to : Z) :
  NoDup (Bitmap.IndexesInRange b set from to).
Proof. unfold Bitmap.IndexesInRange. apply NoDup_filter, NoDup_seqZ. Qed.

(** Exchanging two elements of a slice permutes it. *)
Lemma swap_Permutation (l : list Z) (i j : nat) (xi xj : Z) :
  l !! i = Some xi → l !! j = Some xj →
  <[j := xi]> (<[i := xj]> l) ≡ₚ l.
Proof.
  intros Hi Hj.
  pose proof (lookup_lt_Some _ _ _ Hi) as Hil.
  pose proof (lookup_lt_Some _ _ _ Hj) as Hjl.
  apply Permutation_inj. split; [by rewrite !length_insert|].
  exists (λ n, if decide (n = i) then j else if decide (n = j) then i else n).
  split.
  - intros a c. repeat case_decide; intros; subst; congruence.
  - intros n. rewrite !list_lookup_insert, !length_insert.
    repeat case_decide; subst; try done; try lia; try tauto.
    all: destruct_and?; subst; try done; exfalso; tauto.
Qed.

Lemma precise_shuffle_Permutation (todo i : nat) (numAvailable : Z)
    (availablePorts : list Z) (rng : Rng) :
  numAvailable = Z.of_nat (length availablePorts) →
  (i + todo ≤ length availablePorts)%nat →
  ∃ shuffled rng',
    precise_shuffle todo i numAvailable availablePorts rng = (Ok shuffled, rng')
    ∧ shuffled ≡ₚ availablePorts.
Proof.
  revert i availablePorts rng.
  induction todo as [|todo IH]; intros i availablePorts rng Hn Hlen.
  - by exists availablePorts, rng.
  - simpl.
    destruct (rand_Intn_pos numAvailable rng) as (j & rng' & -> & Hj); [lia|].
    destruct (lookup_lt_is_Some_2 availablePorts i) as [xi Hxi]; [lia|].
    destruct (lookup_lt_is_Some_2 availablePorts (Z.to_nat j)) as [xj Hxj]; [lia|].
    rewrite Hxi, Hxj.
    destruct (IH (S i) (<[Z.to_nat j := xi]> (<[i := xj]> availablePorts)) rng')
      as (shuffled & rng'' & -> & Hperm).
    + by rewrite !length_insert.
    + rewrite !length_insert. lia.
    + exists shuffled, rng''. split; [done|].
      rewrite Hperm. by apply swap_Permutation.
Qed.

(** What the precise selector computes before it draws: the indexes it
    may choose from are the free ports of the range. *)
Lemma precise_available (nodeUsed : option Bitmap.t) (minP maxP : Z) (reserved : list Port.t) :
  nonneg_int minP → nonneg_int maxP →
  Forall (λ q, 0 <= Port.Value q < MaxValidPort) reserved →
  ∃ usedSet,
    set_all (match nodeUsed with
             | Some b => Bitmap.Copy b
             | None => Bitmap.NewBitmap MaxValidPort
             end) (map (λ port, uint (Port.Value port)) reserved) = Some usedSet
    ∧ ∀ p, p ∈ Bitmap.IndexesInRange usedSet false (uint minP) (uint maxP)
           ↔ free_port nodeUsed minP maxP reserved p.
Proof.
  intros Hmin Hmax Hres. unfold nonneg_int in *.
  assert (map (λ port, uint (Port.Value port)) reserved = map Port.Value reserved) as ->.
  { apply map_ext_Forall. eapply Forall_impl; [exact Hres|].
    intros q Hq. apply uint_small. unfold MaxValidPort in Hq. lia. }
  destruct (set_all_valid (map Port.Value reserved)
              (match nodeUsed with
               | Some b => Bitmap.Copy b
               | None => Bitmap.NewBitmap MaxValidPort
               end)) as (usedSet & Hset & Hchk).
  { by apply Forall_fmap. }
  exists usedSet. split; [exact Hset|]. intros p.
  rewrite elem_of_IndexesInRange, !uint_small by lia.
  unfold free_port.
  assert (Bitmap.Check usedSet p = false
          ↔ check_opt nodeUsed p = false ∧ p ∉ map Port.Value reserved) as ->.
  { rewrite <- !not_true_iff_false, Hchk.
    assert (Bitmap.Check (match nodeUsed with
                          | Some b => Bitmap.Copy b
                          | None => Bitmap.NewBitmap MaxValidPort
                          end) p = check_opt nodeUsed p) as ->.
    { destruct nodeUsed; [done|]. apply Check_new. }
    tauto. }
  intuition lia.
Qed.

(** The free ports of a range can always be listed once each. *)
Lemma free_ports_listed (nodeUsed : option Bitmap.t) (minP maxP : Z) (reserved : list Port.t) :
  nonneg_int minP → nonneg_int maxP →
  Forall (λ q, 0 <= Port.Value q < MaxValidPort) reserved →
  ∃ free, NoDup free ∧ ∀ p, p ∈ free ↔ free_port nodeUsed minP maxP reserved p.
Proof.
  intros Hmin Hmax Hres.
  destruct (precise_available nodeUsed minP maxP reserved Hmin Hmax Hres)
    as (usedSet & _ & Havail).
  exists (Bitmap.IndexesInRange usedSet false (uint minP) (uint maxP)).
  split; [apply NoDup_IndexesInRange|exact Havail].
Qed.

(** C5. Take bounds that are non-negative Go ints, a count that is not
    negative and reserved ports with values in range, and let [free] list
    once each the ports of the dynamic range that are neither set in
    [nodeUsed] nor reserved. The precise selector fails with "dynamic port
    selection failed" exactly when there are fewer free ports than asked
    for; otherwise it returns exactly [numDyn] ports, all different and
    all free. *)
Theorem getDynamicPortsPrecise_exact
    (nodeUsed : option Bitmap.t) (minDynamicPort maxDynamicPort : Z)
    (reserved : list Port.t) (numDyn : Z) (rng : Rng) (free : list Z) :
  nonneg_int minDynamicPort → nonneg_int maxDynamicPort →
  0 <= numDyn →
  Forall (λ q, 0 <= Port.Value q < MaxValidPort) reserved →
  NoDup free →
  (∀ p, p ∈ free ↔ free_port nodeUsed minDynamicPort maxDynamicPort reserved p) →
  let r := (getDynamicPortsPrecise nodeUsed minDynamicPort maxDynamicPort
              reserved numDyn rng).1 in
  (r = Err "dynamic port selection failed" ↔ Z.of_nat (length free) < numDyn)
  ∧ (numDyn <= Z.of_nat (length free) →
     ∃ ports, r = Ok ports
              ∧ Z.of_nat (length ports) = numDyn
              ∧ NoDup ports
              ∧ Forall (free_port nodeUsed minDynamicPort maxDynamicPort reserved) ports).
Proof.
  intros Hmin Hmax Hnum Hres Hnodup Hfree r. subst r.
  unfold getDynamicPortsPrecise.
  destruct (precise_available nodeUsed minDynamicPort maxDynamicPort reserved Hmin Hmax Hres)
    as (usedSet & -> & Havail).
  cbv zeta.
  set (availablePorts :=
         Bitmap.IndexesInRange usedSet false (uint minDynamicPort) (uint maxDynamicPort)) in *.
  assert (free ≡ₚ availablePorts) as Hperm.
  { apply NoDup_Permutation; [exact Hnodup|apply NoDup_IndexesInRange|].
    intros p. by rewrite Hfree, Havail. }
  rewrite (Permutation_length Hperm).
  destruct (Z.of_nat (length availablePorts) <? numDyn) eqn:Hlt.
  - simpl. split; [split; [lia|done]|lia].
  - destruct (precise_shuffle_Permutation (Z.to_nat numDyn) 0
                (Z.of_nat (length availablePorts)) availablePorts rng)
      as (shuffled & rng' & -> & Hsh); [done|lia|].
    destruct (numDyn <? 0) eqn:Hneg; [lia|]. simpl.
    split; [split; [done|lia]|].
    intros _. exists (take (Z.to_nat numDyn) shuffled).
    split; [done|]. split; [|split].
    + rewrite length_take_le; [lia|]. rewrite (Permutation_length Hsh). lia.
    + eapply sublist_NoDup; [|apply sublist_take].
      rewrite Hsh. apply NoDup_IndexesInRange.
    + apply Forall_forall. intros p Hp. apply Havail.
      apply subseteq_take in Hp. by rewrite <- Hsh.
Qed.

(** ** The ports the selectors return *)

Lemma rand_Intn_Ok (n r : Z) (rng rng' : Rng) :
  rand_Intn n rng = (Ok r, rng') → 0 < n ∧ 0 <= r < n.
Proof.
  unfold rand_Intn. destruct (n <=? 0) eqn:E; [done|].
  assert (0 < n) by lia.
  destruct rng as [|x rng0]; intros [= <- <-]; (split; [done|]).
  - lia.
  - apply Z.mod_pos_bound. lia.
Qed.

Lemma stochastic_pick_bounds (left : nat) (nodeUsed : option Bitmap.t) (minP maxP : Z)
    (reserved dynamic : list Z) (rng rng' : Rng) (v : Z) :
  nonneg_int minP → nonneg_int maxP →
  stochastic_pick left nodeUsed minP maxP reserved dynamic rng = (Ok v, rng') →
  minP <= v < maxP.
Proof.
  intros Hmin Hmax. unfold nonneg_int in *. revert rng.
  induction left as [|left IH]; intros rng; [done|].
  simpl.
  destruct (rand_Intn (int_sub maxP minP) rng) as [[r|e|] rng1] eqn:Hr; [|done..].
  apply rand_Intn_Ok in Hr as [Hn Hr].
  unfold int_sub in Hn, Hr. rewrite int_wrap_small in Hn, Hr by lia.
  assert (int_add minP r = minP + r) as ->.
  { unfold int_add. apply int_wrap_small. lia. }
  destruct (check_opt nodeUsed (uint (minP + r))); [apply IH|].
  destruct (_ || _); [apply IH|].
  intros [= <- <-]. lia.
Qed.

Lemma stochastic_loop_bounds (todo : nat) (nodeUsed : option Bitmap.t) (minP maxP : Z)
    (reserved dynamic : list Z) (rng rng' : Rng) (ports : list Z) :
  nonneg_int minP → nonneg_int maxP →
  Forall (λ v, minP <= v < maxP) dynamic →
  stochastic_loop todo nodeUsed minP maxP reserved dynamic rng = (Ok ports, rng') →
  Forall (λ v, minP <= v < maxP) ports.
Proof.
  intros Hmin Hmax. revert dynamic rng.
  induction todo as [|todo IH]; intros dynamic rng Hdyn; cbn [stochastic_loop].
  - by intros [= <- <-].
  - destruct (stochastic_pick _ nodeUsed minP maxP reserved dynamic rng)
      as [[v|e|] rng1] eqn:Hp; [|done..].
    apply stochastic_pick_bounds in Hp; [|done..].
    apply IH. apply Forall_app. split; [done|]. by apply Forall_singleton.
Qed.

Lemma stochastic_loop_length (todo : nat) (nodeUsed : option Bitmap.t) (minP maxP : Z)
    (reserved dynamic : list Z) (rng rng' : Rng) (ports : list Z) :
  stochastic_loop todo nodeUsed minP maxP reserved dynamic rng = (Ok ports, rng') →
  length ports = (length dynamic + todo)%nat.
Proof.
  revert dynamic rng.
  induction todo as [|todo IH]; intros dynamic rng; cbn [stochastic_loop].
  - intros [= <- <-]. lia.
  - destruct (stochastic_pick _ nodeUsed minP maxP reserved dynamic rng)
      as [[v|e|] rng1]; [|done..].
    intros H. apply IH in H. rewrite length_app in H. simpl in H. lia.
Qed.

(** The stochastic selector stays below [maxDynamicPort]. *)
Lemma getDynamicPortsStochastic_bounds (nodeUsed : option Bitmap.t) (minP maxP : Z)
    (reservedPorts : list Port.t) (count : Z) (rng rng' : Rng) (ports : list Z) :
  nonneg_int minP → nonneg_int maxP →
  getDynamicPortsStochastic nodeUsed minP maxP reservedPorts count rng = (Ok ports, rng') →
  Forall (λ v, minP <= v < maxP) ports.
Proof.
  intros Hmin Hmax. unfold getDynamicPortsStochastic.
  by apply stochastic_loop_bounds.
Qed.

Lemma getDynamicPortsStochastic_length (nodeUsed : option Bitmap.t) (minP maxP : Z)
    (reservedPorts : list Port.t) (count : Z) (rng rng' : Rng) (ports : list Z) :
  getDynamicPortsStochastic nodeUsed minP maxP reservedPorts count rng = (Ok ports, rng') →
  length ports = Z.to_nat count.
Proof.
  unfold getDynamicPortsStochastic. intros H.
  by apply stochastic_loop_length in H.
Qed.

(** What the precise selector returns comes from [IndexesInRange]: the
    upper bound is included. *)
Lemma getDynamicPortsPrecise_Ok (nodeUsed : option Bitmap.t) (minP maxP : Z)
    (reserved : list Port.t) (numDyn : Z) (rng rng' : Rng) (ports : list Z) :
  getDynamicPortsPrecise nodeUsed minP maxP reserved numDyn rng = (Ok ports, rng') →
  Z.of_nat (length ports) = numDyn
  ∧ Forall (λ v, uint minP <= v <= uint maxP) ports.
Proof.
  unfold getDynamicPortsPrecise.
  destruct (set_all _ _) as [usedSet|]; [|done]. cbv zeta.
  set (availablePorts := Bitmap.IndexesInRange usedSet false (uint minP) (uint maxP)).
  destruct (Z.of_nat (length availablePorts) <? numDyn) eqn:Hlt; [done|].
  destruct (precise_shuffle _ 0 _ availablePorts rng) as [[shuffled|e|] rng1] eqn:Hs; [|done..].
  destruct (numDyn <? 0) eqn:Hneg; [done|].
  intros [= <- <-].
  destruct (precise_shuffle_Permutation (Z.to_nat numDyn) 0
              (Z.of_nat (length availablePorts)) availablePorts rng)
    as (shuffled' & rng2 & Hs' & Hperm); [done|lia|].
  rewrite Hs in Hs'. injection Hs' as -> ->.
  split.
  - rewrite length_take_le; [lia|]. rewrite (Permutation_length Hperm). lia.
  - apply Forall_forall. intros v Hv. apply subseteq_take in Hv.
    rewrite Hperm in Hv. apply elem_of_IndexesInRange in Hv. tauto.
Qed.

(** ** The shape of an offer of AssignPorts *)

Lemma AssignPorts_reserved_port_Ok (port : Port.t) (idx idx' : NetworkIndex.t)
    (m : AllocatedPortMapping.t) :
  AssignPorts_reserved_port port idx = (Ok m, idx') → reserved_mapping idx port m.
Proof.
  unfold AssignPorts_reserved_port, reserved_mapping.
  destruct (addresses idx (Port.HostNetwork port)) as [|addr rest]; [done|].
  destruct (getUsedPortsFor idx (NodeNetworkAddress.Address addr)) as [used idx1].
  destruct (invalid_port (Port.Value port)); [done|].
  destruct (Bitmap.Check used (uint (Port.Value port))); [done|].
  intros [= <- <-]. by exists addr.
Qed.

Lemma AssignPorts_reserved_port_fields (port : Port.t) (idx : NetworkIndex.t) :
  let idx' := (AssignPorts_reserved_port port idx).2 in
  NetworkIndex.HostNetworks idx' = NetworkIndex.HostNetworks idx
  ∧ NetworkIndex.MinDynamicPort idx' = NetworkIndex.MinDynamicPort idx
  ∧ NetworkIndex.MaxDynamicPort idx' = NetworkIndex.MaxDynamicPort idx.
Proof.
  unfold AssignPorts_reserved_port.
  destruct (addresses idx (Port.HostNetwork port)) as [|addr others]; [done|].
  pose proof (getUsedPortsFor_fields idx (NodeNetworkAddress.Address addr)) as Hg.
  destruct (getUsedPortsFor idx (NodeNetworkAddress.Address addr)) as [used idx1].
  destruct (invalid_port (Port.Value port)); [done|].
  by destruct (Bitmap.Check used (uint (Port.Value port))).
Qed.

Lemma addresses_fields (idx idx' : NetworkIndex.t) (alias : string) :
  NetworkIndex.HostNetworks idx' = NetworkIndex.HostNetworks idx →
  addresses idx' alias = addresses idx alias.
Proof. unfold addresses. by intros ->. Qed.

Lemma AssignPorts_reserved_Ok (ports : list Port.t) (offer offer' : AllocatedPorts)
    (reservedIdx reservedIdx' : gmap string (list Port.t)) (idx idx' : NetworkIndex.t) :
  AssignPorts_reserved ports offer reservedIdx idx = (Ok (offer', reservedIdx'), idx') →
  ∃ emitted, offer' = offer ++ emitted ∧ Forall2 (reserved_mapping idx) ports emitted.
Proof.
  revert offer reservedIdx idx.
  induction ports as [|port rest IH]; intros offer reservedIdx idx; simpl.
  - intros [= <- <- <-]. exists []. by rewrite app_nil_r.
  - pose proof (AssignPorts_reserved_port_fields port idx) as Hf.
    destruct (AssignPorts_reserved_port port idx) as [[m|e|] idx1] eqn:Hp; [|done..].
    cbv zeta in Hf. cbn [snd] in Hf. destruct Hf as (Hhn & _ & _).
    apply AssignPorts_reserved_port_Ok in Hp.
    intros H. apply IH in H as (emitted & -> & Hrest).
    exists (m :: emitted). split; [by rewrite <- app_assoc|].
    constructor; [done|].
    eapply Forall2_impl; [exact Hrest|].
    intros q m' (addr & Ha & ->). exists addr.
    by rewrite <- (addresses_fields idx idx1 _ Hhn).
Qed.

Lemma AssignPorts_reserved_fields (ports : list Port.t) (offer : AllocatedPorts)
    (reservedIdx : gmap string (list Port.t)) (idx : NetworkIndex.t) :
  let idx' := (AssignPorts_reserved ports offer reservedIdx idx).2 in
  NetworkIndex.HostNetworks idx' = NetworkIndex.HostNetworks idx
  ∧ NetworkIndex.MinDynamicPort idx' = NetworkIndex.MinDynamicPort idx
  ∧ NetworkIndex.MaxDynamicPort idx' = NetworkIndex.MaxDynamicPort idx.
Proof.
  revert offer reservedIdx idx.
  induction ports as [|port rest IH]; intros offer reservedIdx idx; [done|].
  simpl.
  pose proof (AssignPorts_reserved_port_fields port idx) as Hf.
  destruct (AssignPorts_reserved_port port idx) as [[m|e|] idx1]; simpl in Hf; [|done..].
  specialize (IH (offer ++ [m])
                (<[Port.HostNetwork port :=
                     default [] (reservedIdx !! Port.HostNetwork port) ++ [port]]> reservedIdx)
                idx1).
  cbv zeta in IH. destruct Hf as (-> & -> & ->) in IH. exact IH.
Qed.

Lemma AssignPorts_dynamic_port_fields (addrs : list NodeNetworkAddress.t)
    (addrErr : option string) (port : Port.t) (reserved : list Port.t)
    (idx : NetworkIndex.t) (rng : Rng) :
  let idx' := (AssignPorts_dynamic_port addrs addrErr port reserved idx rng).1.2 in
  NetworkIndex.HostNetworks idx' = NetworkIndex.HostNetworks idx
  ∧ NetworkIndex.MinDynamicPort idx' = NetworkIndex.MinDynamicPort idx
  ∧ NetworkIndex.MaxDynamicPort idx' = NetworkIndex.MaxDynamicPort idx.
Proof.
  revert addrErr idx rng.
  induction addrs as [|addr rest IH]; intros addrErr idx rng; cbn [AssignPorts_dynamic_port].
  - by destruct addrErr.
  - pose proof (getUsedPortsFor_fields idx (NodeNetworkAddress.Address addr)) as Hg.
    destruct (getUsedPortsFor idx (NodeNetworkAddress.Address addr)) as [used idx1].
    cbv zeta in Hg. cbn [snd] in Hg.
    destruct (getDynamicPortsStochastic _ _ _ _ _ _) as [[dyn|e|] rng1].
    + by destruct dyn.
    + destruct (getDynamicPortsPrecise _ _ _ _ _ _) as [[dyn|e'|] rng2].
      * by destruct dyn.
      * specialize (IH (Some e') idx1 rng2). cbv zeta in IH.
        destruct Hg as (<- & <- & <-). exact IH.
      * done.
    + done.
Qed.

Lemma AssignPorts_dynamic_port_Ok (addrs : list NodeNetworkAddress.t)
    (addrErr : option string) (port : Port.t) (reserved : list Port.t)
    (idx idx' : NetworkIndex.t) (rng rng' : Rng) (m : AllocatedPortMapping.t) :
  AssignPorts_dynamic_port addrs addrErr port reserved idx rng = (Ok m, idx', rng') →
  dynamic_mapping (NetworkIndex.MinDynamicPort idx) (NetworkIndex.MaxDynamicPort idx) port m.
Proof.
  revert addrErr idx rng.
  induction addrs as [|addr rest IH]; intros addrErr idx rng; cbn [AssignPorts_dynamic_port].
  - by destruct addrErr.
  - pose proof (getUsedPortsFor_fields idx (NodeNetworkAddress.Address addr)) as Hg.
    destruct (getUsedPortsFor idx (NodeNetworkAddress.Address addr)) as [used idx1].
    cbv zeta in Hg. cbn [snd] in Hg. destruct Hg as (_ & <- & <-).
    destruct (getDynamicPortsStochastic _ _ _ _ _ _) as [[dyn|e|] rng1] eqn:Hs.
    + destruct dyn as [|v dyn]; [done|]. intros [= <- <- <-].
      split; [done|]. split; [done|]. simpl.
      intros Hmin Hmax.
      apply (getDynamicPortsStochastic_bounds _ _ _ _ _ _ _ _ Hmin Hmax) in Hs.
      apply Forall_cons in Hs as [Hv _]. lia.
    + destruct (getDynamicPortsPrecise _ _ _ _ _ _) as [[dyn|e'|] rng2] eqn:Hp.
      * destruct dyn as [|v dyn]; [done|]. intros [= <- <- <-].
        apply getDynamicPortsPrecise_Ok in Hp as [_ Hp].
        split; [done|]. split; [done|]. simpl.
        intros Hmin Hmax. apply Forall_cons in Hp as [Hv _].
        unfold nonneg_int in *. rewrite !uint_small in Hv by lia. exact Hv.
      * apply IH.
      * done.
    + done.
Qed.

Lemma AssignPorts_dynamic_Ok (ports : list Port.t) (offer offer' : AllocatedPorts)
    (reservedIdx : gmap string (list Port.t)) (idx idx' : NetworkIndex.t) (rng rng' : Rng) :
  AssignPorts_dynamic ports offer reservedIdx idx rng = (Ok offer', idx', rng') →
  ∃ emitted,
    offer' = offer ++ emitted
    ∧ Forall2 (dynamic_mapping (NetworkIndex.MinDynamicPort idx)
                               (NetworkIndex.MaxDynamicPort idx)) ports emitted.
Proof.
  revert offer idx rng.
  induction ports as [|port rest IH]; intros offer idx rng; cbn [AssignPorts_dynamic].
  - intros [= <- <- <-]. exists []. by rewrite app_nil_r.
  - cbv zeta.
    pose proof (AssignPorts_dynamic_port_fields (addresses idx (Port.HostNetwork port)) None
                  port (default [] (reservedIdx !! Port.HostNetwork port)) idx rng) as Hf.
    destruct (AssignPorts_dynamic_port _ None port _ idx rng) as [[[m|e|] idx1] rng1] eqn:Hp;
      [|done..].
    cbv zeta in Hf. cbn [fst snd] in Hf. destruct Hf as (_ & Hmin & Hmax).
    apply AssignPorts_dynamic_port_Ok in Hp.
    intros H. apply IH in H as (emitted & -> & Hrest).
    rewrite Hmin, Hmax in Hrest.
    exists (m :: emitted). split; [by rewrite <- app_assoc|]. by constructor.
Qed.

(** An offer of [AssignPorts] answers the reserved ports of the ask, in
    their order, and then its dynamic ports, in their order. *)
Lemma AssignPorts_offer (idx : NetworkIndex.t) (ask : NetworkResource.t) (rng : Rng)
    (offer : AllocatedPorts) :
  (AssignPorts idx ask rng).1.1 = Ok offer →
  ∃ reserved dynamic,
    offer = reserved ++ dynamic
    ∧ Forall2 (reserved_mapping idx) (NetworkResource.ReservedPorts ask) reserved
    ∧ Forall2 (dynamic_mapping (NetworkIndex.MinDynamicPort idx)
                               (NetworkIndex.MaxDynamicPort idx))
              (NetworkResource.DynamicPorts ask) dynamic.
Proof.
  unfold AssignPorts.
  pose proof (AssignPorts_reserved_fields (NetworkResource.ReservedPorts ask) [] ∅ idx) as Hf.
  destruct (AssignPorts_reserved _ [] ∅ idx) as [[[offer1 reservedIdx]|e|] idx1] eqn:Hr;
    [|done..].
  cbv zeta in Hf. cbn [snd] in Hf. destruct Hf as (_ & Hmin & Hmax).
  apply AssignPorts_reserved_Ok in Hr as (reserved & -> & Hres).
  destruct (AssignPorts_dynamic _ _ reservedIdx idx1 rng) as [[r idx2] rng2] eqn:Hd.
  cbn [fst]. intros ->.
  apply AssignPorts_dynamic_Ok in Hd as (dynamic & -> & Hdyn).
  rewrite Hmin, Hmax in Hdyn. by exists reserved, dynamic.
Qed.

(** ** The range of the dynamic ports of an offer *)

(** C2, as the code has it. When [AssignPorts] returns an offer on an
    index whose bounds are non-negative Go ints, the offer has one mapping
    per port of the ask and every mapping that answers a dynamic port has
    [min_dynamic_port <= value <= max_dynamic_port]: the upper bound is
    included, because the precise selector also offers [max_dynamic_port]
    itself (only the stochastic selector stays below it, see
    [getDynamicPortsStochastic_bounds]). *)
Theorem AssignPorts_dynamic_values_in_range
    (idx : NetworkIndex.t) (ask : NetworkResource.t) (rng : Rng) (offer : AllocatedPorts) :
  nonneg_int (NetworkIndex.MinDynamicPort idx) →
  nonneg_int (NetworkIndex.MaxDynamicPort idx) →
  (AssignPorts idx ask rng).1.1 = Ok offer →
  length offer = (length (NetworkResource.ReservedPorts ask)
                  + length (NetworkResource.DynamicPorts ask))%nat
  ∧ Forall (λ m, NetworkIndex.MinDynamicPort idx <= AllocatedPortMapping.Value m
                 <= NetworkIndex.MaxDynamicPort idx)
           (drop (length (NetworkResource.ReservedPorts ask)) offer).
Proof.
  intros Hmin Hmax Hoffer.
  apply AssignPorts_offer in Hoffer as (reserved & dynamic & -> & Hres & Hdyn).
  pose proof (Forall2_length _ _ _ Hres) as Hlr.
  pose proof (Forall2_length _ _ _ Hdyn) as Hld.
  split; [rewrite length_app; lia|].
  rewrite Hlr, drop_app_length.
  apply Forall_forall. intros m Hm.
  apply list_elem_of_lookup in Hm as [i Hm].
  destruct (Forall2_lookup_r _ _ _ _ _ Hdyn Hm) as (port & _ & _ & _ & Hv).
  by apply Hv.
Qed.

(** ** The mapped port of an offer *)

Lemma build_offer_spec (dynPorts : list Z) (i : nat) (ports ports' : list Port.t) :
  build_offer i dynPorts ports = Some ports' →
  length ports' = length ports
  ∧ ∀ k, ports' !! k
         = if decide (i ≤ k < i + length dynPorts)%nat
           then p ← ports !! k; v ← dynPorts !! (k - i)%nat;
                Some (Port.mk (Port.Label p) v (if Port.To p =? -1 then v else Port.To p)
                              (Port.HostNetwork p))
           else ports !! k.
Proof.
  revert i ports.
  induction dynPorts as [|port rest IH]; intros i ports; simpl.
  - intros [= <-]. split; [done|]. intros k. case_decide; [lia|done].
  - destruct (ports !! i) as [p|] eqn:Hp; [|done].
    intros H. apply IH in H as [Hlen Hk].
    rewrite length_insert in Hlen. split; [done|].
    intros k. rewrite Hk.
    pose proof (lookup_lt_Some _ _ _ Hp) as Hi.
    destruct (decide (k = i)) as [->|Hne].
    + rewrite decide_False by lia. rewrite decide_True by lia.
      rewrite list_lookup_insert_eq by done. rewrite Hp. simpl.
      by rewrite Nat.sub_diag.
    + rewrite list_lookup_insert_ne by done.
      destruct (decide (S i ≤ k < S i + length rest)%nat).
      * rewrite decide_True by lia.
        replace (k - i)%nat with (S (k - S i)) by lia. done.
      * rewrite decide_False by lia. done.
Qed.

Lemma build_offer_rewritten (dynPorts : list Z) (ports ports' : list Port.t) :
  length dynPorts = length ports →
  build_offer 0 dynPorts ports = Some ports' →
  Forall2 task_port_rewritten ports ports'.
Proof.
  intros Hlen Hb. apply build_offer_spec in Hb as [Hlen' Hk].
  apply Forall2_same_length_lookup_2; [done|].
  intros k p p' Hp Hp'.
  pose proof (lookup_lt_Some _ _ _ Hp) as Hlt.
  rewrite Hk, decide_True in Hp' by lia.
  rewrite Hp in Hp'. simpl in Hp'.
  destruct (dynPorts !! (k - 0)%nat) as [v|]; [|done].
  simpl in Hp'. injection Hp' as <-. split; [done|]. simpl.
  by destruct (Port.To p =? -1).
Qed.

Section AssignTaskNetwork_properties.

Variable net_ParseCIDR : string → option (IP * IPNet.t).
Variable net_IP_Mask : IP → list Z → IP.
Variable net_IPNet_Contains : IPNet.t → IP → bool.
Variable net_IP_String : IP → string.

Lemma AssignTaskNetwork_cb_answers (idx : NetworkIndex.t) (ask n : NetworkResource.t)
    (offerIP : IP) (s : AssignTaskNetwork_vars) :
  offer_answers ask s → offer_answers ask (AssignTaskNetwork_cb net_IP_String idx ask n offerIP s).2.
Proof.
  intros Hs. unfold AssignTaskNetwork_cb. cbv zeta.
  destruct (_ >? _); [exact Hs|].
  destruct (AssignTaskNetwork_reserved _ _); [exact Hs|].
  assert (∀ dynPorts rng,
            length dynPorts = length (NetworkResource.DynamicPorts ask) →
            offer_answers ask
              (match build_offer 0 dynPorts (NetworkResource.DynamicPorts ask) with
               | Some ports =>
                   (Ok true,
                    mk_vars
                      (Some (NetworkResource.mk (NetworkResource.Mode ask)
                               (NetworkResource.Device n) "" (net_IP_String offerIP)
                               (NetworkResource.MBits ask) (NetworkResource.DNS ask)
                               (NetworkResource.ReservedPorts ask) ports)) None rng)
               | None => (Panic, mk_vars (out s) (err s) rng)
               end).2) as Hbuild.
  { intros dynPorts rng Hlen.
    destruct (build_offer 0 dynPorts _) as [ports|] eqn:Hb; [|exact Hs].
    intros offer [= <-]. simpl. split; [done|].
    by apply (build_offer_rewritten dynPorts). }
  destruct (getDynamicPortsStochastic _ _ _ _ _ _) as [[dynPorts|e|] rng1] eqn:Hst.
  - apply Hbuild. apply getDynamicPortsStochastic_length in Hst. lia.
  - destruct (getDynamicPortsPrecise _ _ _ _ _ _) as [[dynPorts|e'|] rng2] eqn:Hpr.
    + apply Hbuild. apply getDynamicPortsPrecise_Ok in Hpr as [Hlen _]. lia.
    + exact Hs.
    + exact Hs.
  - exact Hs.
Qed.

Lemma yieldIP_addresses_invariant {S : Type} (P : S → Prop)
    (cb : NetworkResource.t → IP → S → result bool * S) :
  (∀ n ip s, P s → P (cb n ip s).2) →
  ∀ fuel n ipnet ip s r s',
    P s → yieldIP_addresses net_IPNet_Contains fuel cb n ipnet ip s = Some (r, s') → P s'.
Proof.
  intros Hcb fuel. induction fuel as [|fuel IH]; intros n ipnet ip s r s' Hs; [done|].
  simpl. destruct (net_IPNet_Contains ipnet ip); [|by intros [= <- <-]].
  pose proof (Hcb n ip s Hs) as Hs1.
  destruct (cb n ip s) as [[[]|e|] s1]; simpl in Hs1.
  - by intros [= <- <-].
  - by apply IH.
  - by intros [= <- <-].
  - by intros [= <- <-].
Qed.

Lemma yieldIP_networks_invariant {S : Type} (P : S → Prop)
    (cb : NetworkResource.t → IP → S → result bool * S) :
  (∀ n ip s, P s → P (cb n ip s).2) →
  ∀ fuel networks s r s',
    P s → yieldIP_networks net_ParseCIDR net_IP_Mask net_IPNet_Contains fuel cb networks s = Some (r, s') → P s'.
Proof.
  intros Hcb fuel networks.
  induction networks as [|n rest IH]; intros s r s' Hs; simpl.
  - by intros [= <- <-].
  - destruct (net_ParseCIDR (NetworkResource.CIDR n)) as [[ip ipnet]|]; [|by apply IH].
    destruct (yieldIP_addresses net_IPNet_Contains fuel cb n ipnet _ s) as [[r1 s1]|] eqn:Ha; [|done].
    pose proof (yieldIP_addresses_invariant P cb Hcb _ _ _ _ _ _ _ Hs Ha) as Hs1.
    destruct r1 as [[]|e|].
    + by intros [= <- <-].
    + by apply IH.
    + by intros [= <- <-].
    + by intros [= <- <-].
Qed.

Lemma AssignTaskNetwork_offer (fuel : nat) (idx : NetworkIndex.t) (ask : NetworkResource.t)
    (rng rng' : Rng) (offer : NetworkResource.t) (e : option string) :
  AssignTaskNetwork net_ParseCIDR net_IP_Mask net_IPNet_Contains net_IP_String fuel idx ask rng = Some (Ok (Some offer, e), rng') →
  NetworkResource.ReservedPorts offer = NetworkResource.ReservedPorts ask
  ∧ Forall2 task_port_rewritten (NetworkResource.DynamicPorts ask)
            (NetworkResource.DynamicPorts offer).
Proof.
  unfold AssignTaskNetwork, yieldIP.
  destruct (yieldIP_networks net_ParseCIDR net_IP_Mask net_IPNet_Contains fuel _ _ _) as [[r s]|] eqn:Hy; [|done].
  apply (yieldIP_networks_invariant (offer_answers ask)) in Hy.
  - destruct r as [u|msg|]; [|done..]. intros [= Hout _ _]. by apply Hy.
  - intros n ip s0. apply AssignTaskNetwork_cb_answers.
  - by intros offer0.
Qed.

(** C3, as the code has it. In an offer of [AssignPorts], and in an offer
    of [AssignTaskNetwork], every port that answers a dynamic port of the
    ask with [to = -1] has its [to] equal to its [value]. A reserved port
    is copied into the offer as it is, its [to] included, so a reserved
    port with [to = -1] keeps [-1]. *)
Theorem dynamic_to_follows_value :
  (∀ (idx : NetworkIndex.t) (ask : NetworkResource.t) (rng : Rng) (offer : AllocatedPorts),
      (AssignPorts idx ask rng).1.1 = Ok offer →
      ∃ reserved dynamic,
        offer = reserved ++ dynamic
        ∧ Forall2 (λ port m, AllocatedPortMapping.Value m = Port.Value port
                             ∧ AllocatedPortMapping.To m = Port.To port)
                  (NetworkResource.ReservedPorts ask) reserved
        ∧ Forall2 (λ port m, Port.To port = -1 →
                             AllocatedPortMapping.To m = AllocatedPortMapping.Value m)
                  (NetworkResource.DynamicPorts ask) dynamic)
  ∧ (∀ (fuel : nat) (idx : NetworkIndex.t) (ask : NetworkResource.t) (rng rng' : Rng)
       (offer : NetworkResource.t) (e : option string),
      AssignTaskNetwork net_ParseCIDR net_IP_Mask net_IPNet_Contains net_IP_String fuel idx ask rng = Some (Ok (Some offer, e), rng') →
      NetworkResource.ReservedPorts offer = NetworkResource.ReservedPorts ask
      ∧ Forall2 (λ port p, Port.To port = -1 → Port.To p = Port.Value p)
                (NetworkResource.DynamicPorts ask) (NetworkResource.DynamicPorts offer)).
Proof.
  split.
  - intros idx ask rng offer Hoffer.
    apply AssignPorts_offer in Hoffer as (reserved & dynamic & -> & Hres & Hdyn).
    exists reserved, dynamic. split; [done|]. split.
    + eapply Forall2_impl; [exact Hres|]. by intros port m (addr & _ & ->).
    + eapply Forall2_impl; [exact Hdyn|].
      intros port m (_ & Hto & _) Hminus. rewrite Hto, Hminus. done.
  - intros fuel idx ask rng rng' offer e Hoffer.
    apply AssignTaskNetwork_offer in Hoffer as [Hres Hdyn].
    split; [done|].
    eapply Forall2_impl; [exact Hdyn|].
    intros port p [_ Hto] Hminus. rewrite Hto, Hminus. done.
Qed.

(** ** No task network to offer from *)

(** C9. When no task network of the index has a CIDR that parses (when
    there is no task network at all, for one), [AssignTaskNetwork] returns,
    whatever the ask, a nil offer and the error "no networks available". *)
Theorem AssignTaskNetwork_no_networks
    (fuel : nat) (idx : NetworkIndex.t) (ask : NetworkResource.t) (rng : Rng) :
  Forall (λ n, net_ParseCIDR (NetworkResource.CIDR n) = None) (NetworkIndex.TaskNetworks idx) →
  AssignTaskNetwork net_ParseCIDR net_IP_Mask net_IPNet_Contains net_IP_String fuel idx ask rng = Some (Ok (None, Some "no networks available"), rng).
Proof.
  intros Hnone. unfold AssignTaskNetwork, yieldIP.
  assert (∀ s, yieldIP_networks net_ParseCIDR net_IP_Mask net_IPNet_Contains fuel (AssignTaskNetwork_cb net_IP_String idx ask)
                 (NetworkIndex.TaskNetworks idx) s = Some (Ok tt, s)) as ->; [|done].
  induction Hnone as [|n rest Hn _ IH]; intros s; [done|].
  simpl. rewrite Hn. apply IH.
Qed.

End AssignTaskNetwork_properties.

(** ** Reserved ports look at the first address only *)

Lemma AssignPorts_reserved_app (ports1 ports2 : list Port.t) (offer : AllocatedPorts)
    (reservedIdx : gmap string (list Port.t)) (idx : NetworkIndex.t) :
  AssignPorts_reserved (ports1 ++ ports2) offer reservedIdx idx
  = match AssignPorts_reserved ports1 offer reservedIdx idx with
    | (Ok (offer', reservedIdx'), idx') => AssignPorts_reserved ports2 offer' reservedIdx' idx'
    | other => other
    end.
Proof.
  revert offer reservedIdx idx.
  induction ports1 as [|port rest IH]; intros offer reservedIdx idx; [done|].
  simpl. destruct (AssignPorts_reserved_port port idx) as [[m|e|] idx1]; [apply IH|done..].
Qed.

Lemma reserved_port_accepted_same (idx idx' : NetworkIndex.t) (port : Port.t) :
  NetworkIndex.HostNetworks idx' = NetworkIndex.HostNetworks idx →
  (∀ ip p, port_used idx' ip p = port_used idx ip p) →
  reserved_port_accepted idx port → reserved_port_accepted idx' port.
Proof.
  intros Hhn Hused (addr & Ha & Hv & Hfree). exists addr.
  by rewrite (addresses_fields idx idx' _ Hhn), Hused.
Qed.

Lemma AssignPorts_reserved_port_accepted (port : Port.t) (idx : NetworkIndex.t) :
  reserved_port_accepted idx port →
  ∃ m, (AssignPorts_reserved_port port idx).1 = Ok m.
Proof.
  intros (addr & Ha & Hv & Hfree). unfold AssignPorts_reserved_port.
  destruct (addresses idx (Port.HostNetwork port)) as [|addr' rest]; [done|].
  injection Ha as ->.
  pose proof (getUsedPortsFor_check idx (NodeNetworkAddress.Address addr) (Port.Value port))
    as Hc.
  destruct (getUsedPortsFor idx (NodeNetworkAddress.Address addr)) as [used idx1].
  simpl in Hc.
  rewrite (valid_not_invalid _ Hv).
  rewrite (uint_small (Port.Value port)) by (unfold MaxValidPort in Hv; lia).
  rewrite Hc, Hfree. by eexists.
Qed.

Lemma AssignPorts_reserved_accepted (ports : list Port.t) (offer : AllocatedPorts)
    (reservedIdx : gmap string (list Port.t)) (idx : NetworkIndex.t) :
  Forall (reserved_port_accepted idx) ports →
  ∃ offer' reservedIdx',
    (AssignPorts_reserved ports offer reservedIdx idx).1 = Ok (offer', reservedIdx')
    ∧ length offer' = (length offer + length ports)%nat.
Proof.
  revert offer reservedIdx idx.
  induction ports as [|port rest IH]; intros offer reservedIdx idx Hacc.
  - exists offer, reservedIdx. split; [done|]. simpl. lia.
  - apply Forall_cons in Hacc as [Hport Hrest]. simpl.
    destruct (AssignPorts_reserved_port_accepted port idx Hport) as [m Hm].
    pose proof (AssignPorts_reserved_port_fields port idx) as Hf.
    pose proof (AssignPorts_reserved_port_frame port idx) as Hfr.
    destruct (AssignPorts_reserved_port port idx) as [r idx1].
    simpl in Hm. subst r. cbv zeta in Hf. simpl in Hf, Hfr. destruct Hf as (Hhn & _ & _).
    destruct (IH (offer ++ [m])
                (<[Port.HostNetwork port :=
                     default [] (reservedIdx !! Port.HostNetwork port) ++ [port]]> reservedIdx)
                idx1) as (offer' & reservedIdx' & Hok & Hlen).
    { eapply Forall_impl; [exact Hrest|]. intros q. by apply reserved_port_accepted_same. }
    exists offer', reservedIdx'. split; [exact Hok|].
    rewrite Hlen, length_app. simpl. lia.
Qed.

(** C8. Take a reserved port of the ask that [AssignPorts] gets to (the
    reserved ports before it are accepted). If the first address of its
    host network has the port value in use, the call fails with "reserved
    port collision label=value", whatever addresses follow the first one;
    if the host network has no address, the call fails with "no addresses
    available for <alias> network"; and in an offer the port is bound to
    the first address. *)
Theorem AssignPorts_reserved_first_address
    (idx : NetworkIndex.t) (ask : NetworkResource.t) (rng : Rng)
    (pre post : list Port.t) (port : Port.t) :
  NetworkResource.ReservedPorts ask = pre ++ port :: post →
  Forall (reserved_port_accepted idx) pre →
  (∀ addr rest,
      addresses idx (Port.HostNetwork port) = addr :: rest →
      port_used idx (NodeNetworkAddress.Address addr) (Port.Value port) = true →
      (AssignPorts idx ask rng).1.1
      = Err ("reserved port collision " +:+ Port.Label port +:+ "="
             +:+ fmt_d (Port.Value port)))
  ∧ (addresses idx (Port.HostNetwork port) = [] →
     (AssignPorts idx ask rng).1.1
     = Err ("no addresses available for " +:+ Port.HostNetwork port +:+ " network"))
  ∧ (∀ addr rest offer,
      addresses idx (Port.HostNetwork port) = addr :: rest →
      (AssignPorts idx ask rng).1.1 = Ok offer →
      offer !! length pre
      = Some (AllocatedPortMapping.mk (Port.Label port) (Port.Value port) (Port.To port)
                (NodeNetworkAddress.Address addr))).
Proof.
  intros Hsplit Hpre.
  assert (∀ e,
            (∀ idx1 : NetworkIndex.t,
                NetworkIndex.HostNetworks idx1 = NetworkIndex.HostNetworks idx →
                (∀ ip p, port_used idx1 ip p = port_used idx ip p) →
                (AssignPorts_reserved_port port idx1).1 = Err e) →
            (AssignPorts idx ask rng).1.1 = Err e) as Hfail.
  { intros e He. unfold AssignPorts. rewrite Hsplit, AssignPorts_reserved_app.
    destruct (AssignPorts_reserved_accepted pre [] ∅ idx Hpre) as (offer1 & r1 & Hok & _).
    pose proof (AssignPorts_reserved_fields pre [] ∅ idx) as Hf.
    pose proof (AssignPorts_reserved_frame pre [] ∅ idx) as Hfr.
    destruct (AssignPorts_reserved pre [] ∅ idx) as [res idx1].
    simpl in Hok. subst res. cbv zeta in Hf. simpl in Hf, Hfr. destruct Hf as (Hhn & _ & _).
    simpl. specialize (He idx1 Hhn Hfr).
    destruct (AssignPorts_reserved_port port idx1) as [r idx2]. simpl in He. by subst r. }
  split; [|split].
  - intros addr rest Ha Hused. apply Hfail. intros idx1 Hhn Hfr.
    unfold AssignPorts_reserved_port.
    rewrite (addresses_fields idx idx1 _ Hhn), Ha.
    pose proof (getUsedPortsFor_check idx1 (NodeNetworkAddress.Address addr) (Port.Value port))
      as Hc.
    destruct (getUsedPortsFor idx1 (NodeNetworkAddress.Address addr)) as [used idx2].
    simpl in Hc. rewrite Hfr, Hused in Hc.
    pose proof (Check_in_range _ _ Hc) as Hv.
    rewrite (valid_not_invalid _ Hv).
    rewrite (uint_small (Port.Value port)) by (unfold MaxValidPort in Hv; lia).
    by rewrite Hc.
  - intros Ha. apply Hfail. intros idx1 Hhn _.
    unfold AssignPorts_reserved_port.
    by rewrite (addresses_fields idx idx1 _ Hhn), Ha.
  - intros addr rest offer Ha Hoffer.
    apply AssignPorts_offer in Hoffer as (reserved & dynamic & -> & Hres & _).
    rewrite Hsplit in Hres.
    apply Forall2_app_inv_l in Hres as (res1 & res2 & Hres1 & Hres2 & ->).
    apply Forall2_cons_inv_l in Hres2 as (m & res3 & (addr' & Ha' & ->) & _ & ->).
    rewrite Ha in Ha'. injection Ha' as <-.
    rewrite (Forall2_length _ _ _ Hres1).
    rewrite <- app_assoc, <- app_comm_cons. by rewrite list_lookup_middle.
Qed.

(** * The scenarios of the specification, evaluated *)

Example scenario_reserved_port_collision :
  let http := AllocatedPortMapping.mk "http" 80 0 "10.0.0.1" in
  let first := AddReservedPorts (index_with [default_address] 20000 32000) [http] in
  let second := AddReservedPorts first.2 [http] in
  first.1 = Ok (false, [])
  ∧ second.1 = Ok (true, ["port 80 already in use"])
  ∧ port_used second.2 "10.0.0.1" 80 = true.
Proof. vm_compute. done. Qed.

Example scenario_global_reservation :
  let r := SetNode parse_table NewNetworkIndex node_two_networks in
  r.1 = Ok tt
  ∧ map (port_used r.2 "10.0.0.2") [22; 80; 443; 1] = [true; true; true; false]
  ∧ map (port_used r.2 "10.0.0.3") [1; 2; 3; 22; 80] = [true; true; true; true; false].
Proof. vm_compute. done. Qed.

Example scenario_dynamic_under_constraint :
  (getDynamicPortsPrecise (Some (Z.setbit 0 20000)) 20000 20002
     [Port.mk "r" 20001 0 "default"] 1 [5; 9]).1 = Ok [20002].
Proof. vm_compute. reflexivity. Qed.

Example scenario_dynamic_exhaustion :
  (getDynamicPortsPrecise (Some (Z.setbit (Z.setbit 0 20000) 20002)) 20000 20002
     [Port.mk "r" 20001 0 "default"] 1 [5; 9]).1 = Err "dynamic port selection failed".
Proof. vm_compute. reflexivity. Qed.

(** [%q] on a plain name, on a backslash, and on a tab, a control
    character, DEL and a double quote. *)
Example fmt_q_escapes :
  fmt_q "eth1" = String "034"%char ("eth1" +:+ String "034"%char "")
  ∧ fmt_q "a\b" = String "034"%char ("a\\b" +:+ String "034"%char "")
  ∧ fmt_q (String "009"%char (String "001"%char (String "127"%char (String "034"%char "z"))))
    = String "034"%char
        ("\t\x01\x7f" +:+ String "092"%char
                           (String "034"%char ("z" +:+ String "034"%char ""))).
Proof. vm_compute. done. Qed.

Example scenario_alias_without_address :
  (AssignPorts (index_with [default_address] 20000 32000)
     (ask_of [] [Port.mk "x" 0 0 "ghost"]) [1]).1.1
  = Err "no addresses available for ghost network".
Proof. vm_compute. reflexivity. Qed.

Example scenario_to_rewrite :
  (AssignPorts (index_with [default_address] 30000 30001)
     (ask_of [] [Port.mk "api" 0 (-1) "default"]) [4]).1.1
  = Ok [AllocatedPortMapping.mk "api" 30000 30000 "10.0.0.1"].
Proof. vm_compute. reflexivity. Qed.

(** [AssignPorts] may add bitmaps to the map of used ports, all of them
    empty: it is the membership of ports that it keeps, not the map. *)
Example AssignPorts_adds_an_empty_bitmap :
  let idx := index_with [default_address] 30000 30001 in
  let idx' := (AssignPorts idx (ask_of [] [Port.mk "api" 0 (-1) "default"]) [4]).1.2 in
  NetworkIndex.UsedPorts idx !! "10.0.0.1" = None
  ∧ NetworkIndex.UsedPorts idx' !! "10.0.0.1" = Some (Bitmap.NewBitmap MaxValidPort).
Proof. vm_compute. done. Qed.

(** * The theorems at concrete inputs *)

(** C2: in scenario 3 the only free port is 20002, the upper bound of the
    range itself, and the offer has it. *)
Lemma precise_selector_offers_the_upper_bound :
  (AssignPorts index_tight ask_tight []).1.1
  = Ok [AllocatedPortMapping.mk "r" 20001 0 "10.0.0.1";
        AllocatedPortMapping.mk "x" 20002 20002 "10.0.0.1"]
  ∧ NetworkIndex.MaxDynamicPort index_tight = 20002
  ∧ ¬ (20002 < NetworkIndex.MaxDynamicPort index_tight).
Proof.
  split; [vm_compute; reflexivity|]. split; [reflexivity|].
  change (NetworkIndex.MaxDynamicPort index_tight) with 20002. lia.
Qed.

Lemma AssignPorts_dynamic_values_in_range_witness :
  let offer := [AllocatedPortMapping.mk "r" 20001 0 "10.0.0.1";
                AllocatedPortMapping.mk "x" 20002 20002 "10.0.0.1"] in
  length offer = (length (NetworkResource.ReservedPorts ask_tight)
                  + length (NetworkResource.DynamicPorts ask_tight))%nat
  ∧ Forall (λ m, NetworkIndex.MinDynamicPort index_tight <= AllocatedPortMapping.Value m
                 <= NetworkIndex.MaxDynamicPort index_tight)
           (drop (length (NetworkResource.ReservedPorts ask_tight)) offer).
Proof.
  apply (AssignPorts_dynamic_values_in_range index_tight ask_tight []).
  - change (nonneg_int 20000). unfold nonneg_int. lia.
  - change (nonneg_int 20002). unfold nonneg_int. lia.
  - vm_compute. reflexivity.
Defined.

(** C3: a reserved port with [to = -1] comes back with [to = -1], from
    [AssignPorts] and from [AssignTaskNetwork]. *)
Lemma reserved_port_keeps_minus_one :
  let m := AllocatedPortMapping.mk "http" 80 (-1) "10.0.0.1" in
  (AssignPorts (index_with [default_address] 20000 20002) ask_reserved_minus_one []).1.1
  = Ok [m]
  ∧ AllocatedPortMapping.To m ≠ AllocatedPortMapping.Value m
  ∧ ∃ offer e rng',
      AssignTaskNetwork ipv4_ParseCIDR ipv4_Mask ipv4_Contains ipv4_String
        5 index_task_network ask_task [3; 7; 11] = Some (Ok (Some offer, e), rng')
      ∧ NetworkResource.ReservedPorts offer = [Port.mk "main" 8000 (-1) ""].
Proof.
  split; [vm_compute; reflexivity|]. split; [simpl; lia|].
  eexists _, _, _. vm_compute. split; reflexivity.
Qed.

Lemma dynamic_to_follows_value_witness :
  (∃ reserved dynamic,
      [AllocatedPortMapping.mk "r" 20001 0 "10.0.0.1";
       AllocatedPortMapping.mk "x" 20002 20002 "10.0.0.1"] = reserved ++ dynamic
      ∧ Forall2 (λ port m, AllocatedPortMapping.Value m = Port.Value port
                           ∧ AllocatedPortMapping.To m = Port.To port)
                (NetworkResource.ReservedPorts ask_tight) reserved
      ∧ Forall2 (λ port m, Port.To port = -1 →
                           AllocatedPortMapping.To m = AllocatedPortMapping.Value m)
                (NetworkResource.DynamicPorts ask_tight) dynamic)
  ∧ Forall2 (λ port p, Port.To port = -1 → Port.To p = Port.Value p)
            (NetworkResource.DynamicPorts ask_task)
            [Port.mk "http" 20003 20003 ""; Port.mk "admin" 20007 8080 ""].
Proof.
  destruct (dynamic_to_follows_value ipv4_ParseCIDR ipv4_Mask ipv4_Contains ipv4_String)
    as [Hports Htask].
  split.
  - apply (Hports index_tight ask_tight []). vm_compute. reflexivity.
  - refine (proj2 (Htask 5%nat index_task_network ask_task [3; 7; 11] [11]
                     (NetworkResource.mk "host" "eth0" "" "192.168.0.100" 50 None
                        [Port.mk "main" 8000 (-1) ""]
                        [Port.mk "http" 20003 20003 ""; Port.mk "admin" 20007 8080 ""])
                     None _)).
    vm_compute. reflexivity.
Defined.

Lemma SetNode_idempotent_witness :
  let first := SetNode parse_table NewNetworkIndex node_two_networks in
  let second := SetNode parse_table (clear_used_ports first.2) node_two_networks in
  let again := SetNode parse_table (Release first.2) node_two_networks in
  (second.1 = first.1
   ∧ ∀ ip p, port_used second.2 ip p = port_used first.2 ip p)
  ∧ (again.1 = first.1
     ∧ ∀ ip p, port_used again.2 ip p = port_used first.2 ip p).
Proof.
  apply (SetNode_idempotent parse_table NewNetworkIndex node_two_networks).
  intros ip p. reflexivity.
Defined.

Lemma getDynamicPortsPrecise_exact_witness :
  let used := Some (Z.setbit 0 20000) in
  let reserved := [Port.mk "r" 20001 0 "default"] in
  let r := (getDynamicPortsPrecise used 20000 20002 reserved 1 [5; 9]).1 in
  (r = Err "dynamic port selection failed" ↔ Z.of_nat (length [20002]) < 1)
  ∧ (1 <= Z.of_nat (length [20002]) →
     ∃ ports, r = Ok ports
              ∧ Z.of_nat (length ports) = 1
              ∧ NoDup ports
              ∧ Forall (free_port used 20000 20002 reserved) ports).
Proof.
  apply (getDynamicPortsPrecise_exact (Some (Z.setbit 0 20000)) 20000 20002
           [Port.mk "r" 20001 0 "default"] 1 [5; 9] [20002]).
  - unfold nonneg_int. lia.
  - unfold nonneg_int. lia.
  - lia.
  - repeat constructor; simpl; unfold MaxValidPort; lia.
  - apply NoDup_singleton.
  - intros p. rewrite list_elem_of_singleton. unfold free_port, MaxValidPort. simpl.
    rewrite list_elem_of_singleton. split.
    + intros ->. repeat split; lia.
    + intros (Hrange & _ & Hused & Hres).
      assert (p = 20000 ∨ p = 20002) as [->| ->] by lia; [|reflexivity].
      vm_compute in Hused. discriminate.
Defined.

Lemma reservations_are_the_used_ports_witness :
  (∀ ip p, port_used (run_calls NewNetworkIndex calls_without_collision).2 ip p = true
           ↔ Exists (λ c, call_reserves c ip p) calls_without_collision)
  ∧ (∀ before after ip p, calls_without_collision = before ++ after →
       port_used (run_calls NewNetworkIndex before).2 ip p = true →
       port_used (run_calls NewNetworkIndex calls_without_collision).2 ip p = true).
Proof.
  apply (reservations_are_the_used_ports NewNetworkIndex calls_without_collision).
  - intros ip p. reflexivity.
  - assert ((run_calls NewNetworkIndex calls_without_collision).1
            = [Ok (false, []); Ok (false, [])]) as -> by (vm_compute; reflexivity).
    repeat constructor; by exists [].
  - repeat constructor; simpl; unfold MaxValidPort; lia.
Defined.

Lemma AddAllocs_skips_terminal_keeps_going_witness :
  (AddAllocs terminal_by_status (index_with [default_address] 20000 32000)
     [alloc_on_8000 "a1" "running"; alloc_on_8000 "a2" "complete";
      alloc_on_8000 "a3" "running"; alloc_on_8000 "a4" "running";
      alloc_on_8000 "a5" "failed"]).1
  = Ok (true, "collision when reserving port for alloc a4: [port 8000 already in use]").
Proof.
  destruct (AddAllocs_skips_terminal_keeps_going terminal_by_status
              (index_with [default_address] 20000 32000)
              [alloc_on_8000 "a1" "running"; alloc_on_8000 "a2" "complete";
               alloc_on_8000 "a3" "running"; alloc_on_8000 "a4" "running";
               alloc_on_8000 "a5" "failed"])
    as [_ (collide & reason & Heq & Hiff & _ & Hlast & _)].
  cbv zeta in Hiff, Hlast.
  change (List.filter _ _)
    with [alloc_on_8000 "a1" "running"; alloc_on_8000 "a3" "running";
          alloc_on_8000 "a4" "running"] in Hiff, Hlast.
  assert ((run_calls (index_with [default_address] 20000 32000)
             (map fst (flat_map alloc_reservations
                         [alloc_on_8000 "a1" "running"; alloc_on_8000 "a3" "running";
                          alloc_on_8000 "a4" "running"]))).1
          = [Ok (false, []); Ok (true, ["port 8000 already in use"]);
             Ok (true, ["port 8000 already in use"])]) as Houts
    by (vm_compute; reflexivity).
  rewrite Houts in Hiff, Hlast.
  rewrite Heq. cbn [fst].
  assert (collide = true) as ->.
  { apply Hiff. apply Exists_cons_tl, Exists_cons_hd. by eexists. }
  rewrite (Hlast 2%nat
             (CallAddReservedPorts [AllocatedPortMapping.mk "web" 8000 8000 "10.0.0.1"])
             (λ r, "collision when reserving port for alloc " +:+ "a4" +:+ ": "
                   +:+ fmt_strings r)
             ["port 8000 already in use"]).
  - vm_compute. reflexivity.
  - reflexivity.
  - reflexivity.
  - intros j r Hj Hr. destruct j as [|[|[|j]]]; try lia. discriminate.
Defined.

Lemma AssignPorts_reserved_first_address_witness :
  (AssignPorts index_http_taken ask_ssh_http [2]).1.1
  = Err "reserved port collision http=80".
Proof.
  refine (proj1 (AssignPorts_reserved_first_address index_http_taken ask_ssh_http [2]
                   [Port.mk "ssh" 22 0 "default"] [] (Port.mk "http" 80 0 "default")
                   eq_refl _) default_address [second_address] _ _).
  - repeat constructor. exists default_address.
    split; [reflexivity|]. split; [simpl; unfold MaxValidPort; lia|].
    vm_compute. reflexivity.
  - reflexivity.
  - vm_compute. reflexivity.
Defined.

Lemma AssignTaskNetwork_no_networks_witness :
  AssignTaskNetwork ipv4_ParseCIDR ipv4_Mask ipv4_Contains ipv4_String
    5 index_bad_cidr ask_task [3; 7]
  = Some (Ok (None, Some "no networks available"), [3; 7]).
Proof.
  apply (AssignTaskNetwork_no_networks ipv4_ParseCIDR ipv4_Mask ipv4_Contains ipv4_String
           5 index_bad_cidr ask_task [3; 7]).
  repeat constructor.
Defined.

Lemma invalid_port_stops_reservation_witness :
  (AddReserved NewNetworkIndex network_with_invalid_port).1
  = Ok (true, ["invalid port 70000"])
  ∧ (AddReservedPorts NewNetworkIndex
       ([AllocatedPortMapping.mk "a" 80 80 "10.0.0.1"]
        ++ AllocatedPortMapping.mk "b" (-1) 0 "10.0.0.1"
        :: [AllocatedPortMapping.mk "c" 443 443 "10.0.0.1"])).1
    = Ok (true, ["invalid port -1"])
  ∧ (port_used (AddReserved NewNetworkIndex network_with_invalid_port).2 "10.0.0.1" 443 = true
     ↔ port_used NewNetworkIndex "10.0.0.1" 443 = true
       ∨ ("10.0.0.1" = NetworkResource.IP network_with_invalid_port
          ∧ 443 ∈ map Port.Value [Port.mk "a" 80 0 ""])).
Proof.
  destruct invalid_port_stops_reservation as [Hnetwork Hports].
  destruct (Hnetwork NewNetworkIndex network_with_invalid_port
              [Port.mk "a" 80 0 ""] [Port.mk "c" 443 0 ""] (Port.mk "b" 70000 0 ""))
    as [Hret Hused].
  - reflexivity.
  - repeat constructor; simpl; unfold MaxValidPort; lia.
  - simpl. unfold MaxValidPort. lia.
  - split; [exact Hret|]. split; [|apply Hused].
    apply (Hports NewNetworkIndex [AllocatedPortMapping.mk "a" 80 80 "10.0.0.1"]
             [AllocatedPortMapping.mk "c" 443 443 "10.0.0.1"]
             (AllocatedPortMapping.mk "b" (-1) 0 "10.0.0.1")).
    + repeat constructor; simpl; unfold MaxValidPort; lia.
    + simpl. unfold MaxValidPort. lia.
Defined.

(** * Further properties of the code *)

(** ** The stochastic selector *)

Lemma isPortReserved_elem_of (haystack : list Z) (needle : Z) :
  isPortReserved haystack needle = true ↔ needle ∈ haystack.
Proof.
  induction haystack as [|item rest IH]; simpl.
  - rewrite elem_of_nil. split; [done|tauto].
  - rewrite elem_of_cons. destruct (item =? needle) eqn:E.
    + apply Z.eqb_eq in E. split; [auto|done].
    + apply Z.eqb_neq in E. rewrite IH. split; [tauto|]. intros [H|H]; [congruence|done].
Qed.

Lemma stochastic_pick_Ok (left : nat) (nodeUsed : option Bitmap.t) (minP maxP : Z)
    (reserved dynamic : list Z) (rng rng' : Rng) (v : Z) :
  stochastic_pick left nodeUsed minP maxP reserved dynamic rng = (Ok v, rng') →
  check_opt nodeUsed (uint v) = false ∧ (v ∉ reserved) ∧ (v ∉ dynamic).
Proof.
  revert rng. induction left as [|left IH]; intros rng; [done|].
  simpl.
  destruct (rand_Intn (int_sub maxP minP) rng) as [[r|e|] rng1]; [|done..].
  destruct (check_opt nodeUsed (uint (int_add minP r))) eqn:Hc; [apply IH|].
  destruct (isPortReserved reserved (int_add minP r)) eqn:Hr; [apply IH|].
  destruct (isPortReserved dynamic (int_add minP r)) eqn:Hd; [apply IH|].
  simpl. intros [= <- <-]. split; [done|].
  rewrite <- !isPortReserved_elem_of, Hr, Hd. done.
Qed.

Lemma stochastic_pick_Err (left : nat) (nodeUsed : option Bitmap.t) (minP maxP : Z)
    (reserved dynamic : list Z) (rng rng' : Rng) (e : string) :
  stochastic_pick left nodeUsed minP maxP reserved dynamic rng = (Err e, rng') →
  e = "stochastic dynamic port selection failed".
Proof.
  revert rng. induction left as [|left IH]; intros rng; simpl.
  - by intros [= <- <-].
  - destruct (rand_Intn (int_sub maxP minP) rng) as [[r|e'|] rng1]; [|done..].
    destruct (check_opt nodeUsed (uint (int_add minP r))); [apply IH|].
    destruct (_ || _); [apply IH|done].
Qed.

Lemma stochastic_loop_Ok (todo : nat) (nodeUsed : option Bitmap.t) (minP maxP : Z)
    (reserved dynamic : list Z) (rng rng' : Rng) (ports : list Z) :
  stochastic_loop todo nodeUsed minP maxP reserved dynamic rng = (Ok ports, rng') →
  ∃ chosen,
    ports = dynamic ++ chosen
    ∧ (NoDup dynamic → NoDup ports)
    ∧ Forall (λ v, check_opt nodeUsed (uint v) = false ∧ v ∉ reserved) chosen.
Proof.
  revert dynamic rng.
  induction todo as [|todo IH]; intros dynamic rng; cbn [stochastic_loop].
  - intros [= <- <-]. exists []. rewrite app_nil_r. by split; [|split].
  - destruct (stochastic_pick _ nodeUsed minP maxP reserved dynamic rng)
      as [[v|e|] rng1] eqn:Hp; [|done..].
    apply stochastic_pick_Ok in Hp as (Hused & Hres & Hdyn).
    intros H. apply IH in H as (chosen & -> & Hnodup & Hall).
    exists (v :: chosen). split; [by rewrite <- app_assoc|]. split.
    + intros Hd. apply Hnodup. apply NoDup_app. split; [done|]. split.
      * intros x Hx Hx'. apply list_elem_of_singleton in Hx'. by subst x.
      * apply NoDup_singleton.
    + by constructor.
Qed.

Lemma stochastic_loop_Err (todo : nat) (nodeUsed : option Bitmap.t) (minP maxP : Z)
    (reserved dynamic : list Z) (rng rng' : Rng) (e : string) :
  stochastic_loop todo nodeUsed minP maxP reserved dynamic rng = (Err e, rng') →
  e = "stochastic dynamic port selection failed".
Proof.
  revert dynamic rng.
  induction todo as [|todo IH]; intros dynamic rng; cbn [stochastic_loop]; [done|].
  destruct (stochastic_pick _ nodeUsed minP maxP reserved dynamic rng)
    as [[v|e'|] rng1] eqn:Hp; [apply IH| |done].
  intros [= <- <-]. by apply stochastic_pick_Err in Hp.
Qed.

(** What the ports of the stochastic selector are, without the count. *)
Lemma getDynamicPortsStochastic_free (nodeUsed : option Bitmap.t) (minP maxP : Z)
    (reservedPorts : list Port.t) (count : Z) (rng rng' : Rng) (ports : list Z) :
  getDynamicPortsStochastic nodeUsed minP maxP reservedPorts count rng = (Ok ports, rng') →
  NoDup ports
  ∧ Forall (λ v, check_opt nodeUsed (uint v) = false ∧ v ∉ map Port.Value reservedPorts) ports.
Proof.
  unfold getDynamicPortsStochastic. intros H.
  apply stochastic_loop_Ok in H as (chosen & -> & Hnodup & Hall).
  split; [apply Hnodup, NoDup_nil_2|exact Hall].
Qed.

(** X1. When the stochastic selector returns ports, it returns as many as
    were asked for (none for a count below one), all different, none of
    them set in the bitmap of used ports and none the value of a reserved
    port; with bounds that are non-negative Go ints every port is at
    least [minDynamicPort] and below [maxDynamicPort]. When it fails, the
    error is "stochastic dynamic port selection failed". *)
Theorem getDynamicPortsStochastic_sound
    (nodeUsed : option Bitmap.t) (minDynamicPort maxDynamicPort : Z)
    (reservedPorts : list Port.t) (count : Z) (rng : Rng) :
  match getDynamicPortsStochastic nodeUsed minDynamicPort maxDynamicPort
          reservedPorts count rng with
  | (Ok ports, _) =>
      length ports = Z.to_nat count
      ∧ NoDup ports
      ∧ Forall (λ v, check_opt nodeUsed (uint v) = false
                     ∧ v ∉ map Port.Value reservedPorts) ports
      ∧ (nonneg_int minDynamicPort → nonneg_int maxDynamicPort →
         Forall (λ v, minDynamicPort <= v < maxDynamicPort) ports)
  | (Err e, _) => e = "stochastic dynamic port selection failed"
  | (Panic, _) => True
  end.
Proof.
  destruct (getDynamicPortsStochastic _ _ _ _ _ _) as [[ports|e|] rng'] eqn:H; [| |done].
  - split; [by apply getDynamicPortsStochastic_length in H|].
    destruct (getDynamicPortsStochastic_free _ _ _ _ _ _ _ _ H) as [Hnodup Hfree].
    split; [done|]. split; [done|].
    intros Hmin Hmax. by eapply getDynamicPortsStochastic_bounds.
  - unfold getDynamicPortsStochastic in H. by apply stochastic_loop_Err in H.
Qed.

(** ** The fallback is at least as able as the fast path *)

Lemma NoDup_subset_length (l k : list Z) :
  NoDup l → (∀ x, x ∈ l → x ∈ k) → (length l ≤ length k)%nat.
Proof.
  intros Hl Hsub. apply submseteq_length. by apply NoDup_submseteq.
Qed.

(** X2. On the domain of the data model (bounds that are port numbers,
    a count that is not negative, reserved ports in range): when the
    stochastic selector finds ports, the precise selector, whatever it
    draws, returns ports for the same request. So a failure of the
    precise selector means that no run of the stochastic one could have
    succeeded. *)
Theorem precise_succeeds_where_stochastic_does
    (nodeUsed : option Bitmap.t) (minDynamicPort maxDynamicPort : Z)
    (reserved : list Port.t) (count : Z) (rng rng' rng2 : Rng) (ports : list Z) :
  nonneg_int minDynamicPort →
  0 <= maxDynamicPort <= MaxValidPort →
  0 <= count →
  Forall (λ q, 0 <= Port.Value q < MaxValidPort) reserved →
  getDynamicPortsStochastic nodeUsed minDynamicPort maxDynamicPort reserved count rng
  = (Ok ports, rng') →
  ∃ ports2, (getDynamicPortsPrecise nodeUsed minDynamicPort maxDynamicPort
               reserved count rng2).1 = Ok ports2.
Proof.
  intros Hmin Hmax Hcount Hres Hst.
  assert (nonneg_int maxDynamicPort) as Hmax'.
  { unfold nonneg_int, MaxValidPort in *. lia. }
  pose proof (getDynamicPortsStochastic_length _ _ _ _ _ _ _ _ Hst) as Hlen.
  pose proof (getDynamicPortsStochastic_bounds _ _ _ _ _ _ _ _ Hmin Hmax' Hst) as Hb.
  destruct (getDynamicPortsStochastic_free _ _ _ _ _ _ _ _ Hst) as [Hnodup Hfree].
  unfold getDynamicPortsPrecise.
  destruct (precise_available nodeUsed minDynamicPort maxDynamicPort reserved Hmin Hmax' Hres)
    as (usedSet & -> & Havail).
  cbv zeta.
  set (availablePorts :=
         Bitmap.IndexesInRange usedSet false (uint minDynamicPort) (uint maxDynamicPort)) in *.
  assert (length ports ≤ length availablePorts)%nat as Hle.
  { apply NoDup_subset_length; [done|]. intros v Hv. apply Havail.
    rewrite Forall_forall in Hb, Hfree.
    specialize (Hb v Hv). destruct (Hfree v Hv) as [Hu Hr].
    unfold nonneg_int, MaxValidPort in *.
    rewrite uint_small in Hu by lia.
    unfold free_port, MaxValidPort. repeat split; try lia; done. }
  destruct (Z.of_nat (length availablePorts) <? count) eqn:Hlt; [lia|].
  destruct (precise_shuffle_Permutation (Z.to_nat count) 0
              (Z.of_nat (length availablePorts)) availablePorts rng2)
    as (shuffled & rng3 & -> & _); [done|lia|].
  destruct (count <? 0) eqn:Hneg; [lia|]. by eexists.
Qed.

(** ** The next address *)

Lemma precise_succeeds_where_stochastic_does_witness :
  ∃ ports2, (getDynamicPortsPrecise (Some (Z.setbit 0 20000)) 20000 20003
               [Port.mk "r" 20001 0 "default"] 1 [7]).1 = Ok ports2.
Proof.
  apply (precise_succeeds_where_stochastic_does (Some (Z.setbit 0 20000)) 20000 20003
           [Port.mk "r" 20001 0 "default"] 1 [0; 1; 2] [] [7] [20002]).
  - unfold nonneg_int. lia.
  - unfold MaxValidPort. lia.
  - lia.
  - repeat constructor; simpl; unfold MaxValidPort; lia.
  - vm_compute. reflexivity.
Defined.

Lemma le_value_bound (octs : list Z) :
  Forall (λ o, 0 <= o < 256) octs → 0 <= le_value octs < 256 ^ Z.of_nat (length octs).
Proof.
  induction 1 as [|o rest Ho _ IH]; simpl le_value.
  - simpl. lia.
  - rewrite length_cons, Nat2Z.inj_succ, Z.pow_succ_r by lia. lia.
Qed.

Lemma incIP_rev_spec (octs : list Z) :
  Forall (λ o, 0 <= o < 256) octs →
  length (incIP_rev octs) = length octs
  ∧ Forall (λ o, 0 <= o < 256) (incIP_rev octs)
  ∧ le_value (incIP_rev octs) = (le_value octs + 1) mod 256 ^ Z.of_nat (length octs).
Proof.
  induction 1 as [|o rest Ho Hrest IH].
  - simpl. split; [done|]. split; [done|]. by rewrite Z.mod_1_r.
  - destruct IH as (Hlen & Hoct & Hval).
    pose proof (le_value_bound rest Hrest) as Hb.
    cbn [incIP_rev]. cbv zeta.
    rewrite length_cons, Nat2Z.inj_succ, Z.pow_succ_r by lia.
    destruct (decide (o = 255)) as [->|Hne].
    + replace ((255 + 1) mod 256) with 0 by done.
      replace (0 >? 0) with false by done.
      split; [simpl; by rewrite Hlen|]. split; [constructor; [lia|done]|].
      simpl le_value. rewrite Hval.
      replace (255 + 256 * le_value rest + 1) with (256 * (le_value rest + 1)) by lia.
      rewrite Z.mul_mod_distr_l by lia. lia.
    + rewrite (Z.mod_small (o + 1)) by lia.
      destruct (o + 1 >? 0) eqn:E; [|lia].
      split; [done|]. split; [constructor; [lia|done]|].
      simpl le_value. rewrite Z.mod_small; lia.
Qed.

Lemma ip_value_le_value (ip : IP) : ip_value ip = le_value (rev ip).
Proof.
  unfold ip_value. induction ip as [|o ip IH] using rev_ind; [done|].
  rewrite fold_left_app, rev_app_distr. simpl. rewrite IH. lia.
Qed.

(** X3. [incIP] adds one to the address read as a number, first octet
    first, and wraps to zero after the last address of its length; the
    length stays and the octets stay bytes. *)
Theorem incIP_adds_one (ip : IP) :
  octets ip →
  length (incIP ip) = length ip
  ∧ octets (incIP ip)
  ∧ ip_value (incIP ip) = (ip_value ip + 1) mod 256 ^ Z.of_nat (length ip).
Proof.
  unfold octets, incIP. intros Hoct.
  destruct (incIP_rev_spec (rev ip)) as (Hlen & Hoct' & Hval).
  { by apply Forall_rev. }
  rewrite !length_rev in *.
  split; [done|]. split; [by apply Forall_rev|].
  by rewrite !ip_value_le_value, rev_involutive.
Qed.

Lemma incIP_adds_one_witness :
  incIP [10; 0; 255; 255] = [10; 1; 0; 0]
  ∧ ip_value (incIP [255; 255; 255; 255])
    = (ip_value [255; 255; 255; 255] + 1) mod 256 ^ Z.of_nat (length [255; 255; 255; 255]).
Proof.
  split; [reflexivity|].
  apply (incIP_adds_one [255; 255; 255; 255]).
  unfold octets. repeat constructor; lia.
Defined.

(** ** Reserving ports for one address *)

Lemma AddReservedPortsForIP_ports_agrees (ports : list Z) (ip : string) (used : Bitmap.t)
    (collide : bool) (reasons : list string) (idx : NetworkIndex.t) :
  Forall (λ p, 0 <= p < 2 ^ 63) ports →
  (∀ p, Bitmap.Check used p = port_used idx ip p) →
  let one := AddReservedPortsForIP_ports ports used collide reasons in
  let other := AddReservedPorts_from (map (mapping_for ip) ports) collide reasons idx in
  match one.2 with
  | Next r | Return r => other.1 = Ok r
  | Panicked => other.1 = Panic
  end
  ∧ ∀ ip' p, port_used other.2 ip' p
             = if decide (ip' = ip) then Bitmap.Check one.1 p else port_used idx ip' p.
Proof.
  revert used collide reasons idx.
  induction ports as [|port rest IH]; intros used collide reasons idx Hok Hused; cbv zeta.
  - simpl. split; [done|]. intros ip' p. case_decide; [by subst|done].
  - apply Forall_cons in Hok as [Hport Hrest]. simpl.
    pose proof (getUsedPortsFor_frame idx ip) as Hf.
    pose proof (getUsedPortsFor_check idx ip) as Hc.
    destruct (getUsedPortsFor idx ip) as [used2 idx1]. simpl in Hf, Hc.
    assert (invalid_port port = (port >=? MaxValidPort)) as ->.
    { unfold invalid_port. destruct (port <? 0) eqn:E; [lia|done]. }
    destruct (port >=? MaxValidPort) eqn:Hv.
    + simpl. split; [done|]. intros ip' p. rewrite Hf. case_decide; [by subst|done].
    + assert (Bitmap.Check used2 (uint port) = Bitmap.Check used (uint port)) as ->.
      { by rewrite Hc, Hused. }
      destruct (Bitmap.Check used (uint port)).
      * cbv zeta in IH.
        destruct (IH used true (reasons ++ ["port " +:+ fmt_d port +:+ " already in use"])
                    idx1 Hrest) as [Hres Hports].
        { intros p. by rewrite Hused, Hf. }
        split; [exact Hres|]. intros ip' p. rewrite Hports.
        case_decide; [done|apply Hf].
      * assert (0 <= port < MaxValidPort) as Hr by lia.
        rewrite (uint_small port) by lia.
        rewrite (Set_Some used _ Hr), (Set_Some used2 _ Hr).
        cbv zeta in IH.
        destruct (IH (Z.setbit used port) collide reasons
                    (store_used idx1 ip (Z.setbit used2 port)) Hrest) as [Hres Hports].
        { intros p. rewrite port_used_store, decide_True by done.
          rewrite (Check_Set used _ port p (Set_Some used _ Hr)).
          rewrite (Check_Set used2 _ port p (Set_Some used2 _ Hr)).
          by rewrite Hc, Hused. }
        split; [exact Hres|]. intros ip' p. rewrite Hports.
        case_decide; [done|]. rewrite port_used_store, decide_False by done. apply Hf.
Qed.

(** X4. For ports that fit a Go int, [AddReservedPortsForIP] on an
    address returns what [AddReservedPorts] returns on the mappings that
    ask for the same ports on that address, and leaves the same ports in
    use. *)
Theorem AddReservedPortsForIP_agrees (idx : NetworkIndex.t) (ports : list Z) (ip : string) :
  Forall (λ p, 0 <= p < 2 ^ 63) ports →
  (AddReservedPortsForIP idx ports ip).1
  = (AddReservedPorts idx (map (mapping_for ip) ports)).1
  ∧ ∀ ip' p, port_used (AddReservedPortsForIP idx ports ip).2 ip' p
             = port_used (AddReservedPorts idx (map (mapping_for ip) ports)).2 ip' p.
Proof.
  intros Hok. unfold AddReservedPortsForIP, AddReservedPorts.
  pose proof (getUsedPortsFor_frame idx ip) as Hf.
  pose proof (getUsedPortsFor_check idx ip) as Hc.
  destruct (getUsedPortsFor idx ip) as [used idx1]. simpl in Hf, Hc.
  destruct (AddReservedPortsForIP_ports_agrees ports ip used false [] idx Hok Hc)
    as [Hres Hports].
  destruct (AddReservedPortsForIP_ports ports used false []) as [used' fl].
  simpl in Hres, Hports.
  assert (∀ ip' p, port_used (store_used idx1 ip used') ip' p
                   = port_used (AddReservedPorts_from (map (mapping_for ip) ports)
                                  false [] idx).2 ip' p) as Hsame.
  { intros ip' p. rewrite Hports, port_used_store.
    case_decide; [by rewrite decide_True|]. rewrite decide_False by done. apply Hf. }
  destruct fl as [r|r|]; by rewrite Hres.
Qed.

Lemma AddReservedPortsForIP_agrees_witness :
  (AddReservedPortsForIP index_http_taken [22; 80; 443] "10.0.0.1").1
  = (AddReservedPorts index_http_taken (map (mapping_for "10.0.0.1") [22; 80; 443])).1
  ∧ ∀ ip' p, port_used (AddReservedPortsForIP index_http_taken [22; 80; 443] "10.0.0.1").2 ip' p
             = port_used (AddReservedPorts index_http_taken
                            (map (mapping_for "10.0.0.1") [22; 80; 443])).2 ip' p.
Proof.
  apply (AddReservedPortsForIP_agrees index_http_taken [22; 80; 443] "10.0.0.1").
  repeat constructor; lia.
Defined.

(** ** When a collision is reported *)

(** X5. With port values in range, [AddReservedPorts] and [AddReserved]
    return without a collision exactly when the ports asked for are all
    different (per address) and none was in use before the call; and
    [collide] is false exactly when no reason is returned. *)
Theorem collision_reported_iff_reuse (idx : NetworkIndex.t) :
  (∀ ports : AllocatedPorts,
      Forall (λ m, 0 <= AllocatedPortMapping.Value m < MaxValidPort) ports →
      ∃ collide reasons,
        (AddReservedPorts idx ports).1 = Ok (collide, reasons)
        ∧ (collide = false
           ↔ NoDup (map mapping_key ports)
             ∧ ∀ m, m ∈ ports →
                    port_used idx (AllocatedPortMapping.HostIP m)
                      (AllocatedPortMapping.Value m) = false)
        ∧ (collide = false ↔ reasons = []))
  ∧ (∀ n : NetworkResource.t,
      Forall (λ q, 0 <= Port.Value q < MaxValidPort)
             (NetworkResource.ReservedPorts n ++ NetworkResource.DynamicPorts n) →
      ∃ collide reasons,
        (AddReserved idx n).1 = Ok (collide, reasons)
        ∧ (collide = false
           ↔ NoDup (map Port.Value
                      (NetworkResource.ReservedPorts n ++ NetworkResource.DynamicPorts n))
             ∧ ∀ q, q ∈ NetworkResource.ReservedPorts n ++ NetworkResource.DynamicPorts n →
                    port_used idx (NetworkResource.IP n) (Port.Value q) = false)
        ∧ (collide = false ↔ reasons = [])).
Proof.
  split.
  - intros ports Hok. unfold AddReservedPorts.
    destruct (AddReservedPorts_from_collide ports false [] idx Hok)
      as (c & rs & Hret & Hcol & Hrs).
    exists c, rs. split; [done|]. split; [rewrite Hcol; tauto|by apply Hrs].
  - intros n Hok. rewrite AddReserved_flat. cbv zeta.
    pose proof (getUsedPortsFor_check idx (NetworkResource.IP n)) as Hc.
    destruct (getUsedPortsFor idx (NetworkResource.IP n)) as [used idx1]. simpl in Hc.
    destruct (AddReserved_ports_collide _ used false [] Hok)
      as (used' & c & rs & -> & Hcol & Hrs).
    exists c, rs. split; [done|]. split; [|by apply Hrs].
    rewrite Hcol. split.
    + intros (_ & Hnd & Hfree). split; [done|]. intros q Hq. rewrite <- Hc. by apply Hfree.
    + intros (Hnd & Hfree). split; [done|]. split; [done|].
      intros q Hq. rewrite Hc. by apply Hfree.
Qed.

Lemma collision_reported_iff_reuse_witness :
  (∃ reasons,
      (AddReservedPorts index_http_taken
         [AllocatedPortMapping.mk "a" 443 0 "10.0.0.1";
          AllocatedPortMapping.mk "b" 443 0 "10.0.0.2"]).1 = Ok (false, reasons))
  ∧ (∃ reasons,
        (AddReserved index_http_taken network_two_ips_same_port).1 = Ok (true, reasons)).
Proof.
  destruct (collision_reported_iff_reuse index_http_taken) as [Hports Hnetwork].
  split.
  - destruct (Hports [AllocatedPortMapping.mk "a" 443 0 "10.0.0.1";
                      AllocatedPortMapping.mk "b" 443 0 "10.0.0.2"])
      as (c & rs & Hret & Hcol & Hrs).
    { repeat constructor; simpl; unfold MaxValidPort; lia. }
    exists rs. rewrite Hret. f_equal. f_equal. apply Hcol. split.
    + simpl. apply NoDup_cons. split; [|apply NoDup_singleton].
      rewrite list_elem_of_singleton. unfold mapping_key. simpl. intros [=].
    + intros m Hm. repeat (apply elem_of_cons in Hm as [->|Hm]; [reflexivity|]).
      by apply elem_of_nil in Hm.
  - destruct (Hnetwork network_two_ips_same_port) as (c & rs & Hret & Hcol & _).
    { repeat constructor; simpl; unfold MaxValidPort; lia. }
    exists rs. rewrite Hret. destruct c; [done|]. exfalso.
    destruct (proj1 Hcol eq_refl) as [Hnd _].
    apply NoDup_cons in Hnd as [Hnotin _]. apply Hnotin. by left.
Defined.

(** ** What the reserving methods leave alone *)

Lemma grows_refl (idx : NetworkIndex.t) : grows idx idx.
Proof. unfold grows. repeat split; auto. Qed.

Lemma grows_trans (idx1 idx2 idx3 : NetworkIndex.t) :
  grows idx1 idx2 → grows idx2 idx3 → grows idx1 idx3.
Proof.
  unfold grows.
  intros (H1 & H2 & H3 & H4 & H5 & H6 & H7) (K1 & K2 & K3 & K4 & K5 & K6 & K7).
  repeat split; try congruence. intros ip p Hp. apply K7, H7, Hp.
Qed.

Lemma grows_getUsedPortsFor (idx : NetworkIndex.t) (ip : string) :
  grows idx (getUsedPortsFor idx ip).2.
Proof.
  unfold grows. repeat split; try (unfold getUsedPortsFor; by destruct (_ !! _)).
  intros ip' p Hp. by rewrite getUsedPortsFor_frame.
Qed.

Lemma AddReserved_grows (idx : NetworkIndex.t) (n : NetworkResource.t) :
  grows idx (AddReserved idx n).2.
Proof.
  unfold grows.
  repeat split; try apply AddReserved_monotone;
    rewrite AddReserved_flat; unfold getUsedPortsFor; cbn zeta;
    destruct (NetworkIndex.UsedPorts idx !! NetworkResource.IP n);
    destruct (AddReserved_ports _ _ _ _) as [? [[? ?]|?|]]; reflexivity.
Qed.

Lemma AddReservedPorts_from_grows (ports : AllocatedPorts) (collide : bool)
    (reasons : list string) (idx : NetworkIndex.t) :
  grows idx (AddReservedPorts_from ports collide reasons idx).2
  ∧ NetworkIndex.UsedBandwidth (AddReservedPorts_from ports collide reasons idx).2
    = NetworkIndex.UsedBandwidth idx.
Proof.
  revert collide reasons idx.
  induction ports as [|port rest IH]; intros collide reasons idx.
  { split; [apply grows_refl|reflexivity]. }
  split; [|].
  - unfold grows.
    repeat split; try apply AddReservedPorts_from_monotone;
      cbn [AddReservedPorts_from]; unfold getUsedPortsFor;
      destruct (NetworkIndex.UsedPorts idx !! AllocatedPortMapping.HostIP port);
      destruct (invalid_port _); try reflexivity;
      destruct (Bitmap.Check _ _); try (destruct (Bitmap.Set_ _ _); try reflexivity);
      match goal with
      | |- context [AddReservedPorts_from rest ?c ?r ?i] =>
          destruct (IH c r i) as [(G1 & G2 & G3 & G4 & G5 & G6 & _) _];
          first [rewrite G1 | rewrite G2 | rewrite G3 | rewrite G4 | rewrite G5 | rewrite G6];
          reflexivity
      end.
  - cbn [AddReservedPorts_from]; unfold getUsedPortsFor;
      destruct (NetworkIndex.UsedPorts idx !! AllocatedPortMapping.HostIP port);
      destruct (invalid_port _); try reflexivity;
      destruct (Bitmap.Check _ _); try (destruct (Bitmap.Set_ _ _); try reflexivity);
      match goal with
      | |- context [AddReservedPorts_from rest ?c ?r ?i] =>
          destruct (IH c r i) as [_ G]; rewrite G; reflexivity
      end.
Qed.

(** X6. [AddReserved] books the bandwidth of the network on its device
    when every port is a port number, and books nothing when it returns
    at an invalid port; [AddReservedPorts] books no bandwidth. Both leave
    the networks, the available bandwidth and the dynamic range of the
    index as they were and take no port out of use. *)
Theorem reservations_book_bandwidth (idx : NetworkIndex.t) :
  (∀ n : NetworkResource.t,
      let dev := NetworkResource.Device n in
      NetworkIndex.UsedBandwidth (AddReserved idx n).2
      = (if forallb (λ q, negb (invalid_port (Port.Value q)))
                    (NetworkResource.ReservedPorts n ++ NetworkResource.DynamicPorts n)
         then <[dev := int_add (bandwidth (NetworkIndex.UsedBandwidth idx) dev)
                               (NetworkResource.MBits n)]> (NetworkIndex.UsedBandwidth idx)
         else NetworkIndex.UsedBandwidth idx)
      ∧ grows idx (AddReserved idx n).2)
  ∧ (∀ ports : AllocatedPorts,
      NetworkIndex.UsedBandwidth (AddReservedPorts idx ports).2 = NetworkIndex.UsedBandwidth idx
      ∧ grows idx (AddReservedPorts idx ports).2).
Proof.
  split.
  - intros n dev. split; [|apply AddReserved_grows].
    rewrite AddReserved_flat. cbn zeta.
    assert (∀ ports used collide reasons,
      match AddReserved_ports ports used collide reasons with
      | (_, Next _) => forallb (λ q, negb (invalid_port (Port.Value q))) ports = true
      | (_, Return _) => forallb (λ q, negb (invalid_port (Port.Value q))) ports = false
      | (_, Panicked) => True
      end) as Hshape.
    { induction ports as [|q rest IH]; intros used collide reasons; [reflexivity|].
      cbn [AddReserved_ports forallb].
      destruct (invalid_port (Port.Value q)) eqn:Hinv; [reflexivity|].
      cbn [negb andb].
      destruct (Bitmap.Check used (uint (Port.Value q))); [apply IH|].
      destruct (Bitmap.Set_ used (uint (Port.Value q))); [apply IH|exact I]. }
    destruct (getUsedPortsFor idx (NetworkResource.IP n)) as [used idx1] eqn:Hget.
    assert (NetworkIndex.UsedBandwidth idx1 = NetworkIndex.UsedBandwidth idx) as Hbw.
    { unfold getUsedPortsFor in Hget. destruct (_ !! _); inversion Hget; reflexivity. }
    specialize (Hshape (NetworkResource.ReservedPorts n ++ NetworkResource.DynamicPorts n)
                  used false []).
    pose proof (AddReserved_ports_no_panic
                  (NetworkResource.ReservedPorts n ++ NetworkResource.DynamicPorts n)
                  used false []) as Hnp.
    destruct (AddReserved_ports _ used false []) as [used' [cr|r|]]; cbn in *.
    + rewrite Hshape. unfold store_used. cbn. rewrite Hbw. reflexivity.
    + rewrite Hshape. exact Hbw.
    + done.
  - intros ports. unfold AddReservedPorts.
    destruct (AddReservedPorts_from_grows ports false [] idx) as [Hg Hb]. by split.
Qed.

Lemma AddAllocs_networks_grows (id : string) (networks : list NetworkResource.t)
    (collide : bool) (reason : string) (idx : NetworkIndex.t) :
  grows idx (AddAllocs_networks id networks collide reason idx).2.
Proof.
  revert collide reason idx.
  induction networks as [|network rest IH]; intros collide reason idx; [apply grows_refl|].
  cbn [AddAllocs_networks].
  pose proof (AddReserved_grows idx network) as Hg.
  destruct (AddReserved idx network) as [[[c r]|e|] idx1]; cbn [snd] in *; try exact Hg.
  destruct c; (eapply grows_trans; [exact Hg|apply IH]).
Qed.

Lemma AddAllocs_tasks_grows (prefix id : string)
    (tasks : list (string * list NetworkResource.t))
    (collide : bool) (reason : string) (idx : NetworkIndex.t) :
  grows idx (AddAllocs_tasks prefix id tasks collide reason idx).2.
Proof.
  revert collide reason idx.
  induction tasks as [|[task networks] rest IH]; intros collide reason idx; [apply grows_refl|].
  cbn [AddAllocs_tasks].
  destruct networks as [|n ?]; [apply IH|].
  pose proof (AddReserved_grows idx n) as Hg.
  destruct (AddReserved idx n) as [[[c r]|e|] idx1]; cbn [snd] in *; try exact Hg.
  destruct c; (eapply grows_trans; [exact Hg|apply IH]).
Qed.

Lemma AddAllocs_alloc_grows (alloc : Allocation.t)
    (collide : bool) (reason : string) (idx : NetworkIndex.t) :
  grows idx (AddAllocs_alloc alloc collide reason idx).2.
Proof.
  unfold AddAllocs_alloc.
  destruct (Allocation.AllocatedResources alloc) as [ar|]; [|apply AddAllocs_tasks_grows].
  destruct (0 <? _).
  - destruct (AddReservedPorts_from_grows
                (AllocatedSharedResources.Ports (AllocatedResources.Shared ar)) false [] idx)
      as [Hg _].
    unfold AddReservedPorts.
    destruct (AddReservedPorts_from _ false [] idx) as [[[c r]|e|] idx1]; cbn [snd] in *;
      try exact Hg.
    destruct c; exact Hg.
  - pose proof (AddAllocs_networks_grows (Allocation.ID alloc)
                  (AllocatedSharedResources.Networks (AllocatedResources.Shared ar))
                  collide reason idx) as Hg.
    destruct (AddAllocs_networks _ _ collide reason idx) as [[[c r]|e|] idx1]; cbn [snd] in *;
      try exact Hg.
    eapply grows_trans; [exact Hg|apply AddAllocs_tasks_grows].
Qed.

Lemma AddAllocs_from_grows (TerminalStatus : Allocation.t → bool) (allocs : list Allocation.t)
    (collide : bool) (reason : string) (idx : NetworkIndex.t) :
  grows idx (AddAllocs_from TerminalStatus allocs collide reason idx).2.
Proof.
  revert collide reason idx.
  induction allocs as [|alloc rest IH]; intros collide reason idx; [apply grows_refl|].
  cbn [AddAllocs_from].
  destruct (TerminalStatus alloc); [apply IH|].
  pose proof (AddAllocs_alloc_grows alloc collide reason idx) as Hg.
  destruct (AddAllocs_alloc alloc collide reason idx) as [[[c r]|e|] idx1]; cbn [snd] in *;
    try exact Hg.
  eapply grows_trans; [exact Hg|apply IH].
Qed.

(** X7. [AddAllocs] always returns its two named results (no allocation
    makes it panic), leaves the task, group and host networks, the
    available bandwidth and the dynamic range of the index as they were,
    and takes no port out of use: a port in use before the call is in use
    after it. *)
Theorem AddAllocs_grows (TerminalStatus : Allocation.t → bool)
    (idx : NetworkIndex.t) (allocs : list Allocation.t) :
  (∃ collide reason, (AddAllocs TerminalStatus idx allocs).1 = Ok (collide, reason))
  ∧ grows idx (AddAllocs TerminalStatus idx allocs).2.
Proof.
  split; [|apply AddAllocs_from_grows].
  unfold AddAllocs.
  destruct (AddAllocs_from_overwrite TerminalStatus allocs idx) as (last & idx' & Heq).
  rewrite Heq. destruct last; cbn; eauto.
Qed.

(** ** The ports that SetNode marks *)

Lemma map_uint_in_range (ports : list Z) :
  Forall (λ p, 0 <= p < MaxValidPort) ports → map uint ports = ports.
Proof.
  induction 1 as [|p rest Hp _ IH]; [done|].
  cbn [map]. rewrite IH, uint_small; [done|]. unfold MaxValidPort in Hp. lia.
Qed.

Lemma SetNode_taskNetworks_marks (taskNetworks : list NetworkResource.t)
    (globalResPorts : list Z) (idx : NetworkIndex.t) :
  Forall (λ p, 0 <= p < MaxValidPort) globalResPorts →
  ∃ idx',
    SetNode_taskNetworks taskNetworks globalResPorts idx = (Ok tt, idx')
    ∧ ∀ ip p, port_used idx' ip p = true
              ↔ port_used idx ip p = true
                ∨ (p ∈ globalResPorts
                   ∧ ∃ n, n ∈ taskNetworks ∧ NetworkResource.Device n ≠ ""
                          ∧ NetworkResource.IP n = ip).
Proof.
  intros Hg. revert idx. induction taskNetworks as [|n rest IH]; intros idx.
  - exists idx. split; [done|]. intros ip p. split; [by left|].
    intros [H|(_ & n & Hn & _)]; [done|]. by apply elem_of_nil in Hn.
  - cbn [SetNode_taskNetworks]. cbn zeta.
    destruct (String.eqb (NetworkResource.Device n) "") eqn:Hdev.
    + apply String.eqb_eq in Hdev. destruct (IH idx) as (idx' & Heq & Hm).
      exists idx'. split; [done|]. intros ip p. rewrite Hm. split.
      * intros [H|(Hp & n' & Hn' & Hd & Hip)]; [by left|]. right. split; [done|].
        exists n'. rewrite elem_of_cons. eauto.
      * intros [H|(Hp & n' & Hn' & Hd & Hip)]; [by left|].
        apply elem_of_cons in Hn' as [->|Hn']; [done|]. right. eauto.
    + apply String.eqb_neq in Hdev.
      set (idx1 := NetworkIndex.with_AvailBandwidth _ _).
      destruct (set_all_valid globalResPorts (getUsedPortsFor idx1 (NetworkResource.IP n)).1 Hg)
        as (used' & Hset & Hchk).
      pose proof (port_used_written_back idx1 (NetworkResource.IP n) used'
                    (λ p, p ∈ globalResPorts) Hchk) as Hwb.
      destruct (getUsedPortsFor idx1 (NetworkResource.IP n)) as [used idx2].
      cbn [fst snd] in *. rewrite Hset.
      destruct (IH (store_used idx2 (NetworkResource.IP n) used')) as (idx' & Heq & Hm).
      exists idx'. split; [done|]. intros ip p. rewrite Hm, Hwb.
      change (port_used idx1 ip p) with (port_used idx ip p). split.
      * intros [[H|[-> Hp]]|(Hp & n' & Hn' & Hd & Hip)]; [by left| |].
        -- right. split; [done|]. exists n. rewrite elem_of_cons. eauto.
        -- right. split; [done|]. exists n'. rewrite elem_of_cons. eauto.
      * intros [H|(Hp & n' & Hn' & Hd & Hip)]; [by left; left|].
        apply elem_of_cons in Hn' as [->|Hn']; [left; right; eauto|right; eauto].
Qed.

Lemma SetNode_addresses_marks (ParsePortRanges : string → result (list Z))
    (addrs : list NodeNetworkAddress.t) (globalResPorts : list Z) (idx : NetworkIndex.t) :
  Forall (λ p, 0 <= p < MaxValidPort) globalResPorts →
  Forall (address_ports_parse ParsePortRanges) addrs →
  ∃ idx',
    SetNode_addresses ParsePortRanges addrs globalResPorts idx = (Ok tt, idx')
    ∧ ∀ ip p, port_used idx' ip p = true
              ↔ port_used idx ip p = true
                ∨ ∃ a, a ∈ addrs ∧ NodeNetworkAddress.Address a = ip
                       ∧ (p ∈ globalResPorts ∨ address_reserves ParsePortRanges a p).
Proof.
  intros Hg Haddrs. revert idx.
  induction Haddrs as [|a rest Ha _ IH]; intros idx.
  - exists idx. split; [done|]. intros ip p. split; [by left|].
    intros [H|(a & Ha & _)]; [done|]. by apply elem_of_nil in Ha.
  - cbn [SetNode_addresses]. cbn zeta.
    set (idx1 := NetworkIndex.with_HostNetworks _ _).
    set (ip0 := NodeNetworkAddress.Address a).
    destruct (set_all_valid globalResPorts (getUsedPortsFor idx1 ip0).1 Hg)
      as (used1 & Hset1 & Hchk1).
    assert (∃ used2,
      (if String.eqb (NodeNetworkAddress.ReservedPorts a) ""
       then SetNode_addresses ParsePortRanges rest globalResPorts
              (store_used (getUsedPortsFor idx1 ip0).2 ip0 used1)
       else match ParsePortRanges (NodeNetworkAddress.ReservedPorts a) with
            | Ok rp =>
                match set_all used1 (map uint rp) with
                | Some used =>
                    SetNode_addresses ParsePortRanges rest globalResPorts
                      (store_used (getUsedPortsFor idx1 ip0).2 ip0 used)
                | None => (Panic, store_used (getUsedPortsFor idx1 ip0).2 ip0 used1)
                end
            | Err e =>
                (Err ("error parsing reserved_ports for network "
                      +:+ fmt_q (NodeNetworkAddress.Alias a) +:+ ": " +:+ e),
                 store_used (getUsedPortsFor idx1 ip0).2 ip0 used1)
            | Panic => (Panic, store_used (getUsedPortsFor idx1 ip0).2 ip0 used1)
            end)
      = SetNode_addresses ParsePortRanges rest globalResPorts
          (store_used (getUsedPortsFor idx1 ip0).2 ip0 used2)
      ∧ ∀ p, Bitmap.Check used2 p = true
             ↔ Bitmap.Check (getUsedPortsFor idx1 ip0).1 p = true
               ∨ (p ∈ globalResPorts ∨ address_reserves ParsePortRanges a p))
      as (used2 & Hstep & Hchk2).
    { unfold address_ports_parse in Ha. unfold address_reserves.
      destruct (String.eqb (NodeNetworkAddress.ReservedPorts a) "") eqn:Hres.
      - apply String.eqb_eq in Hres. exists used1. split; [done|].
        intros p. rewrite Hchk1. split; [intros [H|H]; auto|].
        intros [H|[H|[Hne _]]]; auto; done.
      - apply String.eqb_neq in Hres. destruct (Ha Hres) as (rp & Hparse & Hrp).
        rewrite Hparse, (map_uint_in_range rp Hrp).
        destruct (set_all_valid rp used1 Hrp) as (used2 & -> & Hchk2).
        exists used2. split; [done|]. intros p. rewrite Hchk2, Hchk1. split.
        + intros [[H|H]|H]; auto. right. right. split; [done|]. exists rp. eauto.
        + intros [H|[H|(_ & rp' & Hparse' & Hp)]]; auto.
          injection Hparse' as <-. auto. }
    pose proof (port_used_written_back idx1 ip0 used2 _ Hchk2) as Hwb.
    destruct (getUsedPortsFor idx1 ip0) as [used idx2]. cbn [fst snd] in *.
    rewrite Hset1, Hstep.
    destruct (IH (store_used idx2 ip0 used2)) as (idx' & Heq & Hm).
    exists idx'. split; [done|]. intros ip p. rewrite Hm, Hwb.
    change (port_used idx1 ip p) with (port_used idx ip p). split.
    + intros [[H|[-> Hp]]|(a' & Ha' & Hip & Hp)]; [by left| |].
      * right. exists a. rewrite elem_of_cons. eauto.
      * right. exists a'. rewrite elem_of_cons. eauto.
    + intros [H|(a' & Ha' & Hip & Hp)]; [by left; left|].
      apply elem_of_cons in Ha' as [->|Ha']; [left; right; eauto|right; eauto].
Qed.

Lemma SetNode_modern (ParsePortRanges : string → result (list Z))
    (idx : NetworkIndex.t) (node : Node.t) (resPorts : list Z) :
  global_ports_parse ParsePortRanges node resPorts →
  Forall (λ p, 0 <= p < MaxValidPort) resPorts →
  SetNode ParsePortRanges idx node
  = match SetNode_taskNetworks (node_task_networks node) resPorts idx with
    | (Ok _, idx1) =>
        match SetNode_addresses ParsePortRanges (node_addresses node) resPorts idx1 with
        | (Ok _, idx2) =>
            (Ok tt,
             match Node.NodeResources node with
             | Some nr =>
                 if NodeResources.MaxDynamicPort nr >? 0
                 then NetworkIndex.with_MaxDynamicPort (NodeResources.MaxDynamicPort nr)
                        (if NodeResources.MinDynamicPort nr >? 0
                         then NetworkIndex.with_MinDynamicPort
                                (NodeResources.MinDynamicPort nr) idx2
                         else idx2)
                 else if NodeResources.MinDynamicPort nr >? 0
                      then NetworkIndex.with_MinDynamicPort
                             (NodeResources.MinDynamicPort nr) idx2
                      else idx2
             | None => idx2
             end)
        | other => other
        end
    | other => other
    end.
Proof.
  intros Hglobal Hres.
  unfold SetNode, node_task_networks, node_addresses.
  unfold global_ports_parse, node_reserved_host_ports in Hglobal.
  destruct (Node.ReservedResources node) as [rr|].
  - destruct (String.eqb (NodeReservedResources.ReservedHostPorts rr) "") eqn:Hs.
    + apply String.eqb_eq in Hs. destruct Hglobal as [[Hne _]|(_ & -> & ->)]; [done|].
      destruct (SetNode_taskNetworks _ _ _) as [[[]| |] ?]; try done.
      destruct (Node.NodeResources node) as [nr|];
        destruct (SetNode_addresses _ _ _ _) as [[[]| |] ?]; try done.
    + apply String.eqb_neq in Hs. destruct Hglobal as [[_ Hp]|(He & _)]; [|done].
      rewrite Hp, (map_uint_in_range resPorts Hres).
      destruct (SetNode_taskNetworks _ _ _) as [[[]| |] ?]; try done.
      destruct (Node.NodeResources node) as [nr|];
        destruct (SetNode_addresses _ _ _ _) as [[[]| |] ?]; try done.
  - destruct Hglobal as [[Hne _]|(_ & -> & ->)]; [done|].
    destruct (SetNode_taskNetworks _ _ _) as [[[]| |] ?]; try done.
    destruct (Node.NodeResources node) as [nr|];
      destruct (SetNode_addresses _ _ _ _) as [[[]| |] ?]; try done.
Qed.

(** X8. Reserved ports are merged downward. For a node without legacy
    reservations whose port ranges parse to port numbers, [SetNode]
    returns no error, and a port is in use afterwards exactly when it was
    in use before, or it is a global reserved port and the address is that
    of a task network with a device or of a host network, or the host
    network address reserves it itself. *)
Theorem SetNode_merges_downward (ParsePortRanges : string → result (list Z))
    (idx : NetworkIndex.t) (node : Node.t) (resPorts : list Z) :
  global_ports_parse ParsePortRanges node resPorts →
  Forall (λ p, 0 <= p < MaxValidPort) resPorts →
  Forall (address_ports_parse ParsePortRanges) (node_addresses node) →
  (SetNode ParsePortRanges idx node).1 = Ok tt
  ∧ ∀ ip p, port_used (SetNode ParsePortRanges idx node).2 ip p = true
            ↔ port_used idx ip p = true
              ∨ (p ∈ resPorts
                 ∧ ∃ n, n ∈ node_task_networks node ∧ NetworkResource.Device n ≠ ""
                        ∧ NetworkResource.IP n = ip)
              ∨ ∃ a, a ∈ node_addresses node ∧ NodeNetworkAddress.Address a = ip
                     ∧ (p ∈ resPorts ∨ address_reserves ParsePortRanges a p).
Proof.
  intros Hglobal Hres Haddrs.
  pose proof (SetNode_modern ParsePortRanges idx node resPorts Hglobal Hres) as Hflat.
  rewrite Hflat.
  destruct (SetNode_taskNetworks_marks (node_task_networks node) resPorts idx Hres)
    as (idx1 & -> & Hm1).
  destruct (SetNode_addresses_marks ParsePortRanges (node_addresses node) resPorts idx1
              Hres Haddrs) as (idx2 & -> & Hm2).
  split; [done|]. intros ip p.
  transitivity (port_used idx2 ip p = true).
  { cbn [snd]. destruct (Node.NodeResources node) as [nr|]; [|done].
    destruct (NodeResources.MaxDynamicPort nr >? 0), (NodeResources.MinDynamicPort nr >? 0);
      done. }
  rewrite Hm2, Hm1. tauto.
Qed.

Lemma SetNode_merges_downward_witness :
  (SetNode parse_table NewNetworkIndex node_two_networks).1 = Ok tt
  ∧ ∀ ip p, port_used (SetNode parse_table NewNetworkIndex node_two_networks).2 ip p = true
            ↔ port_used NewNetworkIndex ip p = true
              ∨ (p ∈ [22]
                 ∧ ∃ n, n ∈ node_task_networks node_two_networks
                        ∧ NetworkResource.Device n ≠ "" ∧ NetworkResource.IP n = ip)
              ∨ ∃ a, a ∈ node_addresses node_two_networks ∧ NodeNetworkAddress.Address a = ip
                     ∧ (p ∈ [22] ∨ address_reserves parse_table a p).
Proof.
  apply (SetNode_merges_downward parse_table NewNetworkIndex node_two_networks [22]).
  - left. split; [discriminate|reflexivity].
  - constructor; [unfold MaxValidPort; lia|constructor].
  - constructor; [|constructor; [|constructor]].
    + intros _. exists [80; 443]. split; [reflexivity|].
      repeat constructor; unfold MaxValidPort; lia.
    + intros _. exists [1; 2; 3]. split; [reflexivity|].
      repeat constructor; unfold MaxValidPort; lia.
Defined.

(** ** What SetNode appends *)

Ltac index_fields :=
  cbn [NetworkIndex.TaskNetworks NetworkIndex.GroupNetworks NetworkIndex.HostNetworks
       NetworkIndex.UsedPorts NetworkIndex.AvailBandwidth NetworkIndex.UsedBandwidth
       NetworkIndex.MinDynamicPort NetworkIndex.MaxDynamicPort
       NetworkIndex.with_TaskNetworks NetworkIndex.with_HostNetworks
       NetworkIndex.with_UsedPorts NetworkIndex.with_AvailBandwidth
       NetworkIndex.with_UsedBandwidth NetworkIndex.with_MinDynamicPort
       NetworkIndex.with_MaxDynamicPort store_used] in *.

Lemma getUsedPortsFor_same (idx : NetworkIndex.t) (ip : string) :
  let idx' := (getUsedPortsFor idx ip).2 in
  NetworkIndex.TaskNetworks idx' = NetworkIndex.TaskNetworks idx
  ∧ NetworkIndex.GroupNetworks idx' = NetworkIndex.GroupNetworks idx
  ∧ NetworkIndex.HostNetworks idx' = NetworkIndex.HostNetworks idx
  ∧ NetworkIndex.AvailBandwidth idx' = NetworkIndex.AvailBandwidth idx
  ∧ NetworkIndex.UsedBandwidth idx' = NetworkIndex.UsedBandwidth idx
  ∧ NetworkIndex.MinDynamicPort idx' = NetworkIndex.MinDynamicPort idx
  ∧ NetworkIndex.MaxDynamicPort idx' = NetworkIndex.MaxDynamicPort idx.
Proof. unfold getUsedPortsFor. destruct (_ !! _); repeat split. Qed.

Lemma SetNode_legacy_same (networks : list NetworkResource.t) (globalResPorts : list Z)
    (idx : NetworkIndex.t) :
  let idx' := (SetNode_legacy networks globalResPorts idx).2 in
  NetworkIndex.TaskNetworks idx' = NetworkIndex.TaskNetworks idx
  ∧ NetworkIndex.GroupNetworks idx' = NetworkIndex.GroupNetworks idx
  ∧ NetworkIndex.HostNetworks idx' = NetworkIndex.HostNetworks idx
  ∧ NetworkIndex.AvailBandwidth idx' = NetworkIndex.AvailBandwidth idx
  ∧ NetworkIndex.MinDynamicPort idx' = NetworkIndex.MinDynamicPort idx
  ∧ NetworkIndex.MaxDynamicPort idx' = NetworkIndex.MaxDynamicPort idx.
Proof.
  revert globalResPorts idx.
  induction networks as [|n rest IH]; intros globalResPorts idx; [by repeat split|].
  cbn [SetNode_legacy]. cbn zeta.
  destruct (getUsedPortsFor_same idx (NetworkResource.IP n))
    as (G1 & G2 & G3 & G4 & _ & G6 & G7).
  destruct (getUsedPortsFor idx (NetworkResource.IP n)) as [used idx1]. cbn [snd] in *.
  destruct (SetNode_legacy_ports _ used globalResPorts) as [used1 [g1|e|]];
    [|by repeat split..].
  destruct (SetNode_legacy_ports _ used1 g1) as [used2 [g2|e|]]; [|by repeat split..].
  match goal with
  | |- context [SetNode_legacy rest g2 ?i] =>
      destruct (IH g2 i) as (K1 & K2 & K3 & K4 & K6 & K7);
      rewrite K1, K2, K3, K4, K6, K7
  end.
  destruct (String.eqb _ _); by repeat split.
Qed.

Lemma SetNode_taskNetworks_appends (taskNetworks : list NetworkResource.t)
    (globalResPorts : list Z) (idx idx' : NetworkIndex.t) :
  SetNode_taskNetworks taskNetworks globalResPorts idx = (Ok tt, idx') →
  NetworkIndex.TaskNetworks idx'
  = NetworkIndex.TaskNetworks idx ++ filter (λ n, NetworkResource.Device n ≠ "") taskNetworks
  ∧ (∀ dev, bandwidth (NetworkIndex.AvailBandwidth idx') dev
            = match last (filter (λ n, NetworkResource.Device n = dev ∧ dev ≠ "")
                                 taskNetworks) with
              | Some n => NetworkResource.MBits n
              | None => bandwidth (NetworkIndex.AvailBandwidth idx) dev
              end)
  ∧ NetworkIndex.GroupNetworks idx' = NetworkIndex.GroupNetworks idx
  ∧ NetworkIndex.HostNetworks idx' = NetworkIndex.HostNetworks idx
  ∧ NetworkIndex.MinDynamicPort idx' = NetworkIndex.MinDynamicPort idx
  ∧ NetworkIndex.MaxDynamicPort idx' = NetworkIndex.MaxDynamicPort idx.
Proof.
  revert idx. induction taskNetworks as [|n rest IH]; intros idx Hrun.
  { injection Hrun as <-. rewrite app_nil_r. by repeat split. }
  cbn [SetNode_taskNetworks] in Hrun. cbn zeta in Hrun.
  destruct (String.eqb (NetworkResource.Device n) "") eqn:Hdev.
  - apply String.eqb_eq in Hdev.
    destruct (IH idx Hrun) as (K1 & K2 & K3 & K4 & K5 & K6).
    rewrite filter_cons_False by (intros Hne; by apply Hne).
    repeat split; try done. intros dev. rewrite K2.
    rewrite filter_cons_False; [done|]. intros [He Hne]. congruence.
  - apply String.eqb_neq in Hdev.
    set (idx1 := NetworkIndex.with_AvailBandwidth _ _) in Hrun.
    destruct (getUsedPortsFor_same idx1 (NetworkResource.IP n))
      as (G1 & G2 & G3 & G4 & _ & G6 & G7).
    destruct (getUsedPortsFor idx1 (NetworkResource.IP n)) as [used idx2]. cbn [snd] in *.
    destruct (set_all used globalResPorts) as [used'|]; [|discriminate].
    destruct (IH _ Hrun) as (K1 & K2 & K3 & K4 & K5 & K6).
    index_fields.
    rewrite G1 in K1. rewrite G2 in K3. rewrite G3 in K4. rewrite G6 in K5. rewrite G7 in K6.
    rewrite filter_cons_True by done.
    repeat split; try done.
    + rewrite K1. subst idx1. index_fields. by rewrite <- app_assoc.
    + intros dev. rewrite K2, G4. subst idx1. index_fields.
      rewrite filter_cons. case_decide as Hd.
      * destruct Hd as [<- _]. rewrite last_cons.
        destruct (last _); [done|]. unfold bandwidth. by rewrite lookup_insert_eq.
      * destruct (last _); [done|]. unfold bandwidth. rewrite lookup_insert_ne; [done|].
        intros He. apply Hd. split; [done|]. by rewrite <- He.
Qed.

Lemma SetNode_addresses_appends (ParsePortRanges : string → result (list Z))
    (addrs : list NodeNetworkAddress.t) (globalResPorts : list Z) (idx idx' : NetworkIndex.t) :
  SetNode_addresses ParsePortRanges addrs globalResPorts idx = (Ok tt, idx') →
  (∀ alias, addresses idx' alias
            = addresses idx alias ++ filter (λ a, NodeNetworkAddress.Alias a = alias) addrs)
  ∧ NetworkIndex.TaskNetworks idx' = NetworkIndex.TaskNetworks idx
  ∧ NetworkIndex.GroupNetworks idx' = NetworkIndex.GroupNetworks idx
  ∧ NetworkIndex.AvailBandwidth idx' = NetworkIndex.AvailBandwidth idx
  ∧ NetworkIndex.MinDynamicPort idx' = NetworkIndex.MinDynamicPort idx
  ∧ NetworkIndex.MaxDynamicPort idx' = NetworkIndex.MaxDynamicPort idx.
Proof.
  revert idx. induction addrs as [|a rest IH]; intros idx Hrun.
  { injection Hrun as <-. split; [|by repeat split]. intros alias. by rewrite app_nil_r. }
  cbn [SetNode_addresses] in Hrun. cbn zeta in Hrun.
  set (idx1 := NetworkIndex.with_HostNetworks _ _) in Hrun.
  destruct (getUsedPortsFor_same idx1 (NodeNetworkAddress.Address a))
    as (G1 & G2 & G3 & G4 & _ & G6 & G7).
  destruct (getUsedPortsFor idx1 (NodeNetworkAddress.Address a)) as [used idx2].
  cbn [snd] in *.
  destruct (set_all used globalResPorts) as [used1|]; [|discriminate].
  assert (∃ used2, SetNode_addresses ParsePortRanges rest globalResPorts
                     (store_used idx2 (NodeNetworkAddress.Address a) used2) = (Ok tt, idx'))
    as [used2 Hrest].
  { destruct (String.eqb _ _); [by exists used1|].
    destruct (ParsePortRanges _) as [rp|e|]; try discriminate.
    destruct (set_all used1 (map uint rp)) as [used2|]; [by exists used2|discriminate]. }
  destruct (IH _ Hrest) as (K1 & K2 & K3 & K4 & K5 & K6).
  index_fields.
  rewrite G1 in K2. rewrite G2 in K3. rewrite G4 in K4. rewrite G6 in K5. rewrite G7 in K6.
  split; [|by repeat split].
  intros alias. rewrite K1.
  assert (addresses (store_used idx2 (NodeNetworkAddress.Address a) used2) alias
          = addresses idx1 alias) as ->.
  { unfold addresses. index_fields. by rewrite G3. }
  subst idx1. unfold addresses at 1. index_fields.
  rewrite filter_cons. case_decide as Ha.
  - subst alias. rewrite lookup_insert_eq. cbn. by rewrite <- app_assoc.
  - rewrite lookup_insert_ne by done. reflexivity.
Qed.

(** X9. When [SetNode] returns no error it has appended to the index: the
    task networks of the node that have a device after the task networks
    the index had, and under each alias the addresses of the node with
    that alias after the addresses the index had. The available bandwidth
    of a device is that of the last task network of the node on it, the
    dynamic range is overridden by each bound of the node that is above
    zero, and the group networks are not written. So a second call on the
    same index lists every network and address of the node twice. *)
Theorem SetNode_appends (ParsePortRanges : string → result (list Z))
    (idx idx' : NetworkIndex.t) (node : Node.t) :
  SetNode ParsePortRanges idx node = (Ok tt, idx') →
  NetworkIndex.TaskNetworks idx'
  = NetworkIndex.TaskNetworks idx
    ++ filter (λ n, NetworkResource.Device n ≠ "") (node_task_networks node)
  ∧ (∀ alias, addresses idx' alias
              = addresses idx alias
                ++ filter (λ a, NodeNetworkAddress.Alias a = alias) (node_addresses node))
  ∧ (∀ dev, bandwidth (NetworkIndex.AvailBandwidth idx') dev
            = match last (filter (λ n, NetworkResource.Device n = dev ∧ dev ≠ "")
                                 (node_task_networks node)) with
              | Some n => NetworkResource.MBits n
              | None => bandwidth (NetworkIndex.AvailBandwidth idx) dev
              end)
  ∧ NetworkIndex.GroupNetworks idx' = NetworkIndex.GroupNetworks idx
  ∧ NetworkIndex.MinDynamicPort idx'
    = match Node.NodeResources node with
      | Some nr => if NodeResources.MinDynamicPort nr >? 0
                   then NodeResources.MinDynamicPort nr
                   else NetworkIndex.MinDynamicPort idx
      | None => NetworkIndex.MinDynamicPort idx
      end
  ∧ NetworkIndex.MaxDynamicPort idx'
    = match Node.NodeResources node with
      | Some nr => if NodeResources.MaxDynamicPort nr >? 0
                   then NodeResources.MaxDynamicPort nr
                   else NetworkIndex.MaxDynamicPort idx
      | None => NetworkIndex.MaxDynamicPort idx
      end.
Proof.
  intros Hrun.
  assert (∃ globalResPorts idx0 idx1 idx2,
    NetworkIndex.TaskNetworks idx0 = NetworkIndex.TaskNetworks idx
    ∧ NetworkIndex.GroupNetworks idx0 = NetworkIndex.GroupNetworks idx
    ∧ NetworkIndex.HostNetworks idx0 = NetworkIndex.HostNetworks idx
    ∧ NetworkIndex.AvailBandwidth idx0 = NetworkIndex.AvailBandwidth idx
    ∧ NetworkIndex.MinDynamicPort idx0 = NetworkIndex.MinDynamicPort idx
    ∧ NetworkIndex.MaxDynamicPort idx0 = NetworkIndex.MaxDynamicPort idx
    ∧ SetNode_taskNetworks (node_task_networks node) globalResPorts idx0 = (Ok tt, idx1)
    ∧ SetNode_addresses ParsePortRanges (node_addresses node) globalResPorts idx1
      = (Ok tt, idx2)
    ∧ idx' = match Node.NodeResources node with
             | Some nr =>
                 let idx3 := if NodeResources.MinDynamicPort nr >? 0
                             then NetworkIndex.with_MinDynamicPort
                                    (NodeResources.MinDynamicPort nr) idx2
                             else idx2 in
                 if NodeResources.MaxDynamicPort nr >? 0
                 then NetworkIndex.with_MaxDynamicPort (NodeResources.MaxDynamicPort nr) idx3
                 else idx3
             | None => idx2
             end)
    as (g & idx0 & idx1 & idx2 & E1 & E2 & E3 & E4 & E5 & E6 & Htn & Haddr & ->).
  { unfold SetNode in Hrun. fold (node_task_networks node) in Hrun.
    match type of Hrun with
    | match ?r with _ => _ end = _ => destruct r as [[g|e|] idx0] eqn:Hres; try discriminate
    end.
    assert (NetworkIndex.TaskNetworks idx0 = NetworkIndex.TaskNetworks idx
            ∧ NetworkIndex.GroupNetworks idx0 = NetworkIndex.GroupNetworks idx
            ∧ NetworkIndex.HostNetworks idx0 = NetworkIndex.HostNetworks idx
            ∧ NetworkIndex.AvailBandwidth idx0 = NetworkIndex.AvailBandwidth idx
            ∧ NetworkIndex.MinDynamicPort idx0 = NetworkIndex.MinDynamicPort idx
            ∧ NetworkIndex.MaxDynamicPort idx0 = NetworkIndex.MaxDynamicPort idx)
      as (E1 & E2 & E3 & E4 & E5 & E6).
    { assert (∀ r, (match Node.Reserved node with
                    | Some r => SetNode_legacy (Resources.Networks r) [] idx
                    | None => (Next [], idx)
                    end) = r →
                   NetworkIndex.TaskNetworks r.2 = NetworkIndex.TaskNetworks idx
                   ∧ NetworkIndex.GroupNetworks r.2 = NetworkIndex.GroupNetworks idx
                   ∧ NetworkIndex.HostNetworks r.2 = NetworkIndex.HostNetworks idx
                   ∧ NetworkIndex.AvailBandwidth r.2 = NetworkIndex.AvailBandwidth idx
                   ∧ NetworkIndex.MinDynamicPort r.2 = NetworkIndex.MinDynamicPort idx
                   ∧ NetworkIndex.MaxDynamicPort r.2 = NetworkIndex.MaxDynamicPort idx)
        as Hlegacy.
      { intros r <-. destruct (Node.Reserved node) as [rs|]; [|by repeat split].
        apply SetNode_legacy_same. }
      destruct (Node.ReservedResources node) as [rr|].
      - destruct (String.eqb _ _); [exact (Hlegacy _ Hres)|].
        destruct (ParsePortRanges _); inversion Hres; by repeat split.
      - exact (Hlegacy _ Hres). }
    destruct (SetNode_taskNetworks (node_task_networks node) g idx0)
      as [[[]|e|] idx1] eqn:Htn; try discriminate.
    fold (node_addresses node) in Hrun.
    assert (flat_map NodeNetworkResource.Addresses
              match Node.NodeResources node with
              | Some nr => NodeResources.NodeNetworks nr
              | None => []
              end = node_addresses node) as Hna.
    { unfold node_addresses. by destruct (Node.NodeResources node). }
    rewrite Hna in Hrun.
    destruct (SetNode_addresses ParsePortRanges (node_addresses node) g idx1)
      as [[[]|e|] idx2] eqn:Haddr; try discriminate.
    exists g, idx0, idx1, idx2. repeat split; try done.
    injection Hrun as <-. by destruct (Node.NodeResources node). }
  destruct (SetNode_taskNetworks_appends _ _ _ _ Htn) as (T1 & T2 & T3 & T4 & T5 & T6).
  destruct (SetNode_addresses_appends _ _ _ _ _ Haddr) as (A1 & A2 & A3 & A4 & A5 & A6).
  assert (∀ alias, addresses idx1 alias = addresses idx alias) as Hal.
  { intros alias. unfold addresses. by rewrite T4, E3. }
  destruct (Node.NodeResources node) as [nr|]; cbn zeta.
  - destruct (NodeResources.MaxDynamicPort nr >? 0), (NodeResources.MinDynamicPort nr >? 0);
      index_fields; repeat split; try congruence;
      try (intros alias; change (addresses _ alias) with (addresses idx2 alias) at 1;
           by rewrite A1, Hal);
      intros dev; rewrite A4, T2, E4; reflexivity.
  - repeat split; try congruence.
    + intros alias. by rewrite A1, Hal.
    + intros dev. rewrite A4, T2, E4. reflexivity.
Qed.

Lemma SetNode_appends_witness :
  let idx := (SetNode parse_table NewNetworkIndex node_two_networks).2 in
  let idx' := (SetNode parse_table idx node_two_networks).2 in
  NetworkIndex.TaskNetworks idx'
  = NetworkIndex.TaskNetworks idx
    ++ filter (λ n, NetworkResource.Device n ≠ "") (node_task_networks node_two_networks)
  ∧ (∀ alias, addresses idx' alias
              = addresses idx alias
                ++ filter (λ a, NodeNetworkAddress.Alias a = alias)
                          (node_addresses node_two_networks))
  ∧ (∀ dev, bandwidth (NetworkIndex.AvailBandwidth idx') dev
            = match last (filter (λ n, NetworkResource.Device n = dev ∧ dev ≠ "")
                                 (node_task_networks node_two_networks)) with
              | Some n => NetworkResource.MBits n
              | None => bandwidth (NetworkIndex.AvailBandwidth idx) dev
              end)
  ∧ NetworkIndex.GroupNetworks idx' = NetworkIndex.GroupNetworks idx
  ∧ NetworkIndex.MinDynamicPort idx'
    = match Node.NodeResources node_two_networks with
      | Some nr => if NodeResources.MinDynamicPort nr >? 0
                   then NodeResources.MinDynamicPort nr
                   else NetworkIndex.MinDynamicPort idx
      | None => NetworkIndex.MinDynamicPort idx
      end
  ∧ NetworkIndex.MaxDynamicPort idx'
    = match Node.NodeResources node_two_networks with
      | Some nr => if NodeResources.MaxDynamicPort nr >? 0
                   then NodeResources.MaxDynamicPort nr
                   else NetworkIndex.MaxDynamicPort idx
      | None => NetworkIndex.MaxDynamicPort idx
      end.
Proof.
  apply (SetNode_appends parse_table
           (SetNode parse_table NewNetworkIndex node_two_networks).2
           (SetNode parse_table (SetNode parse_table NewNetworkIndex node_two_networks).2
              node_two_networks).2
           node_two_networks).
  vm_compute. reflexivity.
Defined.

(** ** The guard of the legacy reservations *)

Lemma SetNode_legacy_ports_app (ports1 ports2 : list Port.t) (used : Bitmap.t)
    (globalResPorts : list Z) :
  SetNode_legacy_ports (ports1 ++ ports2) used globalResPorts
  = match SetNode_legacy_ports ports1 used globalResPorts with
    | (used', Next g) => SetNode_legacy_ports ports2 used' g
    | other => other
    end.
Proof.
  revert used globalResPorts.
  induction ports1 as [|p rest IH]; intros used globalResPorts; [done|].
  cbn [app SetNode_legacy_ports].
  destruct (_ || _); [done|].
  destruct (Bitmap.Set_ _ _); [apply IH|done].
Qed.

Lemma SetNode_legacy_ports_valid (ports : list Port.t) (used : Bitmap.t)
    (globalResPorts : list Z) :
  Forall (λ q, port_ok q) ports →
  ∃ used' g, SetNode_legacy_ports ports used globalResPorts = (used', Next g).
Proof.
  intros Hok. revert used globalResPorts.
  induction Hok as [|p rest Hp _ IH]; intros used globalResPorts; [by eexists _, _|].
  cbn [SetNode_legacy_ports].
  replace ((Port.Value p >? MaxValidPort) || (Port.Value p <? 0)) with false by lia.
  rewrite uint_small by (unfold MaxValidPort in Hp; lia).
  rewrite (Set_Some used _ Hp). apply IH.
Qed.

Lemma SetNode_legacy_flat (n : NetworkResource.t) (rest : list NetworkResource.t)
    (globalResPorts : list Z) (idx : NetworkIndex.t) :
  (SetNode_legacy (n :: rest) globalResPorts idx).1
  = match SetNode_legacy_ports (NetworkResource.ReservedPorts n ++ NetworkResource.DynamicPorts n)
            (getUsedPortsFor idx (NetworkResource.IP n)).1 globalResPorts with
    | (used, Next g) =>
        let idx1 := store_used (getUsedPortsFor idx (NetworkResource.IP n)).2
                      (NetworkResource.IP n) used in
        (SetNode_legacy rest g
           (if String.eqb (NetworkResource.Device n) "" then idx1
            else NetworkIndex.with_UsedBandwidth
                   (<[NetworkResource.Device n :=
                        int_add (bandwidth (NetworkIndex.UsedBandwidth idx1)
                                   (NetworkResource.Device n))
                                (NetworkResource.MBits n)]>
                      (NetworkIndex.UsedBandwidth idx1)) idx1)).1
    | (_, other) => other
    end.
Proof.
  cbn [SetNode_legacy]. cbn zeta. rewrite SetNode_legacy_ports_app.
  destruct (getUsedPortsFor idx (NetworkResource.IP n)) as [used idx1]. cbn [fst snd].
  destruct (SetNode_legacy_ports (NetworkResource.ReservedPorts n) used globalResPorts)
    as [used1 [g1|e|]]; [|done..].
  destruct (SetNode_legacy_ports (NetworkResource.DynamicPorts n) used1 g1)
    as [used2 [g2|e|]]; done.
Qed.

Lemma SetNode_legacy_valid (pre rest : list NetworkResource.t) (globalResPorts : list Z)
    (idx : NetworkIndex.t) :
  Forall (λ n, Forall (λ q, port_ok q)
                 (NetworkResource.ReservedPorts n ++ NetworkResource.DynamicPorts n)) pre →
  ∃ g idx', (SetNode_legacy (pre ++ rest) globalResPorts idx).1
            = (SetNode_legacy rest g idx').1.
Proof.
  intros Hok. revert globalResPorts idx.
  induction Hok as [|n pre Hn _ IH]; intros globalResPorts idx; [by eexists _, _|].
  rewrite <- app_comm_cons, SetNode_legacy_flat.
  destruct (SetNode_legacy_ports_valid _ (getUsedPortsFor idx (NetworkResource.IP n)).1
              globalResPorts Hn) as (used' & g & ->).
  cbn zeta. apply IH.
Qed.

(** X10. The guard of the legacy reservations of [SetNode] is off by one.
    For a node that reports its reservations under [node.Reserved], with
    valid ports up to some port: a value below zero or above
    [MaxValidPort] at that port makes [SetNode] return the error
    "invalid port ... for reserved_ports", but the value [MaxValidPort]
    itself passes the guard and setting its bit, which the bitmap does
    not have, panics. *)
Theorem SetNode_legacy_guard_off_by_one (ParsePortRanges : string → result (list Z))
    (idx : NetworkIndex.t) (node : Node.t) (r : Resources.t)
    (before after : list NetworkResource.t) (n : NetworkResource.t)
    (pre post : list Port.t) (bad : Port.t) :
  node_reserved_host_ports node = "" →
  Node.Reserved node = Some r →
  Resources.Networks r = before ++ n :: after →
  Forall (λ n, Forall (λ q, 0 <= Port.Value q < MaxValidPort)
                 (NetworkResource.ReservedPorts n ++ NetworkResource.DynamicPorts n)) before →
  NetworkResource.ReservedPorts n ++ NetworkResource.DynamicPorts n = pre ++ bad :: post →
  Forall (λ q, 0 <= Port.Value q < MaxValidPort) pre →
  (Port.Value bad = MaxValidPort → (SetNode ParsePortRanges idx node).1 = Panic)
  ∧ (Port.Value bad < 0 ∨ MaxValidPort < Port.Value bad →
     (SetNode ParsePortRanges idx node).1
     = Err ("invalid port " +:+ fmt_d (Port.Value bad) +:+ " for reserved_ports")).
Proof.
  intros Hnone Hres Hnets Hbefore Hports Hpre.
  assert (∀ out,
    (∀ used g, (SetNode_legacy_ports (bad :: post) used g).2 = out) →
    (∀ g, out ≠ Next g) →
    (SetNode_legacy (Resources.Networks r) [] idx).1 = out) as Hlegacy.
  { intros out Hout Hnot. rewrite Hnets.
    destruct (SetNode_legacy_valid before (n :: after) [] idx Hbefore) as (g & idx' & ->).
    rewrite SetNode_legacy_flat, Hports, SetNode_legacy_ports_app.
    destruct (SetNode_legacy_ports_valid pre (getUsedPortsFor idx' (NetworkResource.IP n)).1
                g Hpre) as (used' & g' & ->).
    specialize (Hout used' g').
    destruct (SetNode_legacy_ports (bad :: post) used' g') as [used2 [g2|e|]];
      cbn [snd] in Hout; subst out; try done. by destruct (Hnot g2). }
  assert (∀ out, (∀ g, out ≠ Next g) →
    (SetNode_legacy (Resources.Networks r) [] idx).1 = out →
    (SetNode ParsePortRanges idx node).1
    = match out with
      | Return e => Err e
      | _ => Panic
      end) as Hset.
  { intros out Hnot Hout. unfold SetNode. unfold node_reserved_host_ports in Hnone.
    rewrite Hres.
    destruct (SetNode_legacy (Resources.Networks r) [] idx) as [r1 idx1]. cbn [fst] in Hout.
    subst r1.
    destruct (Node.ReservedResources node) as [rr|].
    - rewrite Hnone. cbn [String.eqb]. destruct out as [g| |]; [by destruct (Hnot g)|done..].
    - destruct out as [g| |]; [by destruct (Hnot g)|done..]. }
  split.
  - intros Hbad. rewrite (Hset Panicked); [done..|]. apply Hlegacy; [|done].
    intros used g. cbn [SetNode_legacy_ports]. rewrite Hbad.
    replace ((MaxValidPort >? MaxValidPort) || (MaxValidPort <? 0)) with false
      by (unfold MaxValidPort; lia).
    replace (Bitmap.Set_ used (uint MaxValidPort)) with (@None Bitmap.t); [done|].
    unfold Bitmap.Set_, Bitmap.in_range, Bitmap.Size, uint, MaxValidPort. reflexivity.
  - intros Hbad.
    rewrite (Hset (Return ("invalid port " +:+ fmt_d (Port.Value bad)
                           +:+ " for reserved_ports"))); [done..|].
    apply Hlegacy; [|done].
    intros used g. cbn [SetNode_legacy_ports].
    replace ((Port.Value bad >? MaxValidPort) || (Port.Value bad <? 0)) with true by lia.
    reflexivity.
Qed.

Lemma SetNode_legacy_guard_off_by_one_witness :
  (SetNode parse_table NewNetworkIndex (legacy_node [] 65536)).1 = Panic
  ∧ (SetNode parse_table NewNetworkIndex (legacy_node [] 65537)).1
    = Err "invalid port 65537 for reserved_ports".
Proof.
  split.
  - apply (SetNode_legacy_guard_off_by_one parse_table NewNetworkIndex (legacy_node [] 65536)
             (Resources.mk [NetworkResource.mk "host" "eth0" "" "10.0.0.1" 0 None
                              [Port.mk "p" 65536 0 ""] []])
             [] [] (NetworkResource.mk "host" "eth0" "" "10.0.0.1" 0 None
                      [Port.mk "p" 65536 0 ""] [])
             [] [] (Port.mk "p" 65536 0 "")); try reflexivity; apply Forall_nil_2.
  - apply (SetNode_legacy_guard_off_by_one parse_table NewNetworkIndex (legacy_node [] 65537)
             (Resources.mk [NetworkResource.mk "host" "eth0" "" "10.0.0.1" 0 None
                              [Port.mk "p" 65537 0 ""] []])
             [] [] (NetworkResource.mk "host" "eth0" "" "10.0.0.1" 0 None
                      [Port.mk "p" 65537 0 ""] [])
             [] [] (Port.mk "p" 65537 0 "")); try reflexivity; try apply Forall_nil_2.
    right. unfold MaxValidPort. cbn. lia.
Defined.

(** ** The ports of an offer are free *)

Lemma set_all_Some (ports : list Z) (b b' : Bitmap.t) :
  set_all b ports = Some b' →
  ∀ p, Bitmap.Check b' p = true ↔ Bitmap.Check b p = true ∨ p ∈ ports.
Proof.
  revert b. induction ports as [|q rest IH]; intros b Hset p.
  - injection Hset as <-. rewrite elem_of_nil. tauto.
  - cbn [set_all] in Hset. destruct (Bitmap.Set_ b q) as [b1|] eqn:Hq; [|done].
    rewrite (IH _ Hset), (Check_Set b b1 q p Hq), orb_true_iff, Z.eqb_eq, elem_of_cons.
    intuition congruence.
Qed.

Lemma precise_shuffle_Ok (todo i : nat) (numAvailable : Z) (availablePorts shuffled : list Z)
    (rng rng' : Rng) :
  precise_shuffle todo i numAvailable availablePorts rng = (Ok shuffled, rng') →
  shuffled ≡ₚ availablePorts.
Proof.
  revert i availablePorts rng.
  induction todo as [|todo IH]; intros i availablePorts rng; cbn [precise_shuffle].
  - by intros [= <- <-].
  - destruct (rand_Intn numAvailable rng) as [[j|e|] rng1]; [|done..].
    destruct (availablePorts !! i) as [xi|] eqn:Hi; [|done].
    destruct (availablePorts !! Z.to_nat j) as [xj|] eqn:Hj; [|done].
    intros Hrun. rewrite (IH _ _ _ Hrun). by apply swap_Permutation.
Qed.

Lemma getDynamicPortsPrecise_free (nodeUsed : option Bitmap.t) (minP maxP : Z)
    (reserved : list Port.t) (numDyn : Z) (rng rng' : Rng) (ports : list Z) :
  getDynamicPortsPrecise nodeUsed minP maxP reserved numDyn rng = (Ok ports, rng') →
  NoDup ports
  ∧ Forall (λ p, check_opt nodeUsed p = false
                 ∧ p ∉ map (λ port, uint (Port.Value port)) reserved) ports.
Proof.
  unfold getDynamicPortsPrecise.
  destruct (set_all _ _) as [usedSet|] eqn:Hset; [|done]. cbv zeta.
  set (availablePorts := Bitmap.IndexesInRange usedSet false (uint minP) (uint maxP)).
  destruct (Z.of_nat (length availablePorts) <? numDyn) eqn:Hlt; [done|].
  destruct (precise_shuffle _ 0 _ availablePorts rng) as [[shuffled|e|] rng1] eqn:Hs; [|done..].
  destruct (numDyn <? 0) eqn:Hneg; [done|].
  intros [= <- <-].
  apply precise_shuffle_Ok in Hs.
  split.
  - apply (sublist_NoDup _ shuffled); [|apply sublist_take].
    rewrite Hs. apply NoDup_IndexesInRange.
  - apply Forall_forall. intros p Hp. apply subseteq_take in Hp.
    rewrite Hs in Hp. apply elem_of_IndexesInRange in Hp as (_ & _ & Hfree).
    pose proof (set_all_Some _ _ _ Hset p) as Hiff.
    assert (check_opt nodeUsed p
            = Bitmap.Check match nodeUsed with
                           | Some b => Bitmap.Copy b
                           | None => Bitmap.NewBitmap MaxValidPort
                           end p) as ->.
    { destruct nodeUsed; [done|]. by rewrite Check_new. }
    split.
    + apply not_true_is_false. intros Hc.
      assert (Bitmap.Check usedSet p = true) by (apply Hiff; by left). congruence.
    + intros Hin. assert (Bitmap.Check usedSet p = true) by (apply Hiff; by right).
      congruence.
Qed.

Lemma map_uint_Value (reserved : list Port.t) :
  Forall (λ q, port_ok q) reserved →
  map (λ port, uint (Port.Value port)) reserved = map Port.Value reserved.
Proof.
  induction 1 as [|q rest Hq _ IH]; [done|].
  cbn [map]. rewrite IH, uint_small; [done|]. unfold MaxValidPort in Hq. lia.
Qed.

Lemma AssignPorts_dynamic_port_free (addrs : list NodeNetworkAddress.t)
    (addrErr : option string) (port : Port.t) (reserved : list Port.t)
    (idx idx' : NetworkIndex.t) (rng rng' : Rng) (m : AllocatedPortMapping.t) :
  nonneg_int (NetworkIndex.MinDynamicPort idx) →
  nonneg_int (NetworkIndex.MaxDynamicPort idx) →
  Forall (λ q, port_ok q) reserved →
  AssignPorts_dynamic_port addrs addrErr port reserved idx rng = (Ok m, idx', rng') →
  (∃ addr, addr ∈ addrs ∧ AllocatedPortMapping.HostIP m = NodeNetworkAddress.Address addr)
  ∧ port_used idx (AllocatedPortMapping.HostIP m) (AllocatedPortMapping.Value m) = false
  ∧ AllocatedPortMapping.Value m ∉ map Port.Value reserved.
Proof.
  intros Hmin Hmax Hres. revert addrErr idx rng Hmin Hmax.
  induction addrs as [|addr rest IH]; intros addrErr idx rng Hmin Hmax;
    cbn [AssignPorts_dynamic_port].
  - by destruct addrErr.
  - pose proof (getUsedPortsFor_fields idx (NodeNetworkAddress.Address addr)) as Hg.
    pose proof (getUsedPortsFor_check idx (NodeNetworkAddress.Address addr)) as Hchk.
    pose proof (getUsedPortsFor_frame idx (NodeNetworkAddress.Address addr)) as Hfr.
    destruct (getUsedPortsFor idx (NodeNetworkAddress.Address addr)) as [used idx1].
    cbv zeta in Hg. cbn [fst snd] in Hg, Hchk, Hfr. destruct Hg as (_ & Emin & Emax).
    rewrite Emin, Emax.
    destruct (getDynamicPortsStochastic _ _ _ _ _ _) as [[dyn|e|] rng1] eqn:Hs.
    + destruct dyn as [|v dyn]; [done|]. intros [= <- <- <-].
      cbn [AllocatedPortMapping.HostIP AllocatedPortMapping.Value].
      pose proof (getDynamicPortsStochastic_bounds _ _ _ _ _ _ _ _ Hmin Hmax Hs) as Hb.
      apply getDynamicPortsStochastic_free in Hs as [_ Hfree].
      apply Forall_cons in Hb as [Hv _]. apply Forall_cons in Hfree as [[Hu Hr] _].
      rewrite uint_small in Hu by (unfold nonneg_int in *; lia).
      split; [exists addr; split; [by left|done]|].
      split; [|done]. rewrite <- Hchk. exact Hu.
    + destruct (getDynamicPortsPrecise _ _ _ _ _ _) as [[dyn|e'|] rng2] eqn:Hp.
      * destruct dyn as [|v dyn]; [done|]. intros [= <- <- <-].
        cbn [AllocatedPortMapping.HostIP AllocatedPortMapping.Value].
        apply getDynamicPortsPrecise_free in Hp as [_ Hfree].
        apply Forall_cons in Hfree as [[Hu Hr] _].
        rewrite (map_uint_Value reserved Hres) in Hr.
        split; [exists addr; split; [by left|done]|].
        split; [|done]. rewrite <- Hchk. exact Hu.
      * intros Hrun.
        destruct (IH (Some e') idx1 rng2) as ((a & Ha & Hip) & Hfree & Hr); try done.
        { by rewrite Emin. } { by rewrite Emax. }
        split; [exists a; split; [by right|done]|].
        split; [|done]. by rewrite <- Hfr.
      * done.
    + done.
Qed.

Lemma AssignPorts_reserved_port_passes (port : Port.t) (idx idx' : NetworkIndex.t)
    (m : AllocatedPortMapping.t) :
  AssignPorts_reserved_port port idx = (Ok m, idx') → reserved_port_accepted idx port.
Proof.
  unfold AssignPorts_reserved_port, reserved_port_accepted.
  destruct (addresses idx (Port.HostNetwork port)) as [|addr rest]; [done|].
  pose proof (getUsedPortsFor_check idx (NodeNetworkAddress.Address addr)) as Hchk.
  destruct (getUsedPortsFor idx (NodeNetworkAddress.Address addr)) as [used idx1].
  cbn [fst] in Hchk.
  destruct (invalid_port (Port.Value port)) eqn:Hinv; [done|].
  apply invalid_port_false in Hinv as [Hv Hu]. rewrite Hu.
  destruct (Bitmap.Check used (Port.Value port)) eqn:Hc; [done|].
  intros _. exists addr. split; [done|]. split; [done|]. by rewrite <- Hchk.
Qed.

Lemma AssignPorts_reserved_passes (ports : list Port.t) (offer offer' : AllocatedPorts)
    (reservedIdx reservedIdx' : gmap string (list Port.t)) (idx idx' : NetworkIndex.t) :
  AssignPorts_reserved ports offer reservedIdx idx = (Ok (offer', reservedIdx'), idx') →
  Forall (reserved_port_accepted idx) ports
  ∧ ∀ hn, default [] (reservedIdx' !! hn)
          = default [] (reservedIdx !! hn) ++ filter (λ q, Port.HostNetwork q = hn) ports.
Proof.
  revert offer reservedIdx idx.
  induction ports as [|port rest IH]; intros offer reservedIdx idx; cbn [AssignPorts_reserved].
  - intros [= <- <- <-]. split; [done|]. intros hn. by rewrite app_nil_r.
  - cbv zeta.
    pose proof (AssignPorts_reserved_port_fields port idx) as Hf.
    pose proof (AssignPorts_reserved_port_frame port idx) as Hfr.
    destruct (AssignPorts_reserved_port port idx) as [[m|e|] idx1] eqn:Hp; [|done..].
    cbv zeta in Hf. cbn [snd] in Hf, Hfr. destruct Hf as (Hhn & _ & _).
    intros Hrun. apply IH in Hrun as [Hacc Hidx].
    split.
    + constructor; [by apply AssignPorts_reserved_port_passes in Hp|].
      eapply Forall_impl; [exact Hacc|]. intros q Hq.
      apply (reserved_port_accepted_same idx1 idx); [done| |done].
      intros ip p. by rewrite Hfr.
    + intros hn. rewrite Hidx, filter_cons. case_decide as Hq.
      * subst hn. rewrite lookup_insert_eq. cbn. by rewrite <- app_assoc.
      * by rewrite lookup_insert_ne.
Qed.

Lemma AssignPorts_dynamic_free (reserved ports : list Port.t) (offer offer' : AllocatedPorts)
    (reservedIdx : gmap string (list Port.t)) (idx0 idx idx' : NetworkIndex.t)
    (rng rng' : Rng) :
  nonneg_int (NetworkIndex.MinDynamicPort idx) →
  nonneg_int (NetworkIndex.MaxDynamicPort idx) →
  Forall (λ q, port_ok q) reserved →
  (∀ hn, default [] (reservedIdx !! hn) = filter (λ q, Port.HostNetwork q = hn) reserved) →
  NetworkIndex.HostNetworks idx = NetworkIndex.HostNetworks idx0 →
  (∀ ip p, port_used idx ip p = port_used idx0 ip p) →
  AssignPorts_dynamic ports offer reservedIdx idx rng = (Ok offer', idx', rng') →
  ∃ emitted, offer' = offer ++ emitted ∧ Forall2 (free_mapping idx0 reserved) ports emitted.
Proof.
  intros Hmin Hmax Hres Hidx. revert offer idx rng Hmin Hmax.
  induction ports as [|port rest IH]; intros offer idx rng Hmin Hmax Hhn Hused;
    cbn [AssignPorts_dynamic].
  - intros [= <- <- <-]. exists []. by rewrite app_nil_r.
  - cbv zeta.
    pose proof (AssignPorts_dynamic_port_fields (addresses idx (Port.HostNetwork port)) None
                  port (default [] (reservedIdx !! Port.HostNetwork port)) idx rng) as Hf.
    pose proof (AssignPorts_dynamic_port_frame (addresses idx (Port.HostNetwork port)) None
                  port (default [] (reservedIdx !! Port.HostNetwork port)) idx rng) as Hfr.
    destruct (AssignPorts_dynamic_port _ None port _ idx rng) as [[[m|e|] idx1] rng1] eqn:Hp;
      [|done..].
    cbv zeta in Hf. cbn [fst snd] in Hf, Hfr. destruct Hf as (Hhn1 & Emin & Emax).
    apply AssignPorts_dynamic_port_free in Hp as ((addr & Haddr & Hip) & Hfree & Hnot);
      [|done|done|].
    2:{ rewrite Hidx. apply Forall_forall. intros q Hq.
        apply list_elem_of_filter in Hq as [_ Hq].
        by apply (proj1 (Forall_forall _ _) Hres). }
    intros Hrun. apply IH in Hrun as (emitted & -> & Hrest).
    + exists (m :: emitted). split; [by rewrite <- app_assoc|]. constructor; [|done].
      split; [|split].
      * exists addr. split; [|done]. by rewrite <- (addresses_fields idx0 idx).
      * by rewrite <- Hused.
      * intros r Hr Hsame Heq. apply Hnot. rewrite Hidx, <- Heq.
        apply list_elem_of_fmap. exists r. split; [done|].
        apply list_elem_of_filter. by split.
    + by rewrite Emin.
    + by rewrite Emax.
    + by rewrite Hhn1.
    + intros ip p. by rewrite Hfr.
Qed.

(** X11. The ports of an offer of [AssignPorts] are free. With a dynamic
    range of non-negative Go ints, every reserved port of the ask has
    passed the checks (a port number, not in use on the first address of
    its host network) and is answered by the mapping to that address, and
    every dynamic port is answered by a mapping to an address of its host
    network on which the value is not in use and which no reserved port
    of the ask on that host network has. *)
Theorem AssignPorts_offers_free_ports
    (idx : NetworkIndex.t) (ask : NetworkResource.t) (rng : Rng) (offer : AllocatedPorts) :
  nonneg_int (NetworkIndex.MinDynamicPort idx) →
  nonneg_int (NetworkIndex.MaxDynamicPort idx) →
  (AssignPorts idx ask rng).1.1 = Ok offer →
  ∃ reserved dynamic,
    offer = reserved ++ dynamic
    ∧ Forall (reserved_port_accepted idx) (NetworkResource.ReservedPorts ask)
    ∧ Forall2 (reserved_mapping idx) (NetworkResource.ReservedPorts ask) reserved
    ∧ Forall2 (free_mapping idx (NetworkResource.ReservedPorts ask))
              (NetworkResource.DynamicPorts ask) dynamic.
Proof.
  intros Hmin Hmax. unfold AssignPorts.
  pose proof (AssignPorts_reserved_fields (NetworkResource.ReservedPorts ask) [] ∅ idx) as Hf.
  pose proof (AssignPorts_reserved_frame (NetworkResource.ReservedPorts ask) [] ∅ idx) as Hfr.
  destruct (AssignPorts_reserved _ [] ∅ idx) as [[[reserved reservedIdx]|e|] idx1] eqn:Hr;
    [|done..].
  cbv zeta in Hf. cbn [snd] in Hf, Hfr. destruct Hf as (Hhn & Emin & Emax).
  pose proof (AssignPorts_reserved_Ok _ _ _ _ _ _ _ Hr) as (emitted & -> & Hmap).
  apply AssignPorts_reserved_passes in Hr as [Hacc Hidx].
  destruct (AssignPorts_dynamic _ _ reservedIdx idx1 rng) as [[[offer'|e|] idx2] rng2] eqn:Hd;
    [|done..].
  cbn [fst]. intros [= <-].
  apply (AssignPorts_dynamic_free (NetworkResource.ReservedPorts ask) _ _ _ _ idx) in Hd
    as (dynamic & -> & Hdyn).
  - exists emitted, dynamic. by repeat split.
  - by rewrite Emin.
  - by rewrite Emax.
  - eapply Forall_impl; [exact Hacc|]. intros q (addr & _ & Hq & _). exact Hq.
  - intros hn. rewrite Hidx. by rewrite lookup_empty.
  - done.
  - exact Hfr.
Qed.

Lemma AssignPorts_offers_free_ports_witness :
  ∃ reserved dynamic,
    [AllocatedPortMapping.mk "r" 20001 0 "10.0.0.1";
     AllocatedPortMapping.mk "x" 20002 20002 "10.0.0.1"] = reserved ++ dynamic
    ∧ Forall (reserved_port_accepted index_tight) (NetworkResource.ReservedPorts ask_tight)
    ∧ Forall2 (reserved_mapping index_tight) (NetworkResource.ReservedPorts ask_tight) reserved
    ∧ Forall2 (free_mapping index_tight (NetworkResource.ReservedPorts ask_tight))
              (NetworkResource.DynamicPorts ask_tight) dynamic.
Proof.
  apply (AssignPorts_offers_free_ports index_tight ask_tight []).
  - change (nonneg_int 20000). unfold nonneg_int. lia.
  - change (nonneg_int 20002). unfold nonneg_int. lia.
  - vm_compute. reflexivity.
Defined.

(** ** Dynamic ports of one offer are drawn independently *)

Lemma stochastic_pick_single (left : nat) (nodeUsed : option Bitmap.t) (m : Z)
    (reserved dynamic : list Z) (rng : Rng) :
  0 <= m < MaxValidPort →
  check_opt nodeUsed m = false →
  m ∉ reserved → m ∉ dynamic →
  ∃ rng', stochastic_pick (S left) nodeUsed m (m + 1) reserved dynamic rng = (Ok m, rng').
Proof.
  intros Hm Hfree Hres Hdyn. cbn [stochastic_pick].
  assert (int_sub (m + 1) m = 1) as ->.
  { unfold int_sub. replace (m + 1 - m) with 1 by lia. by apply int_wrap_small. }
  assert (∃ rng', rand_Intn 1 rng = (Ok 0, rng')) as [rng' ->].
  { unfold rand_Intn. cbn [Z.leb Z.compare]. destruct rng as [|r rng']; [by eexists|].
    rewrite Z.mod_1_r. by eexists. }
  assert (int_add m 0 = m) as ->.
  { unfold int_add. rewrite Z.add_0_r. apply int_wrap_small.
    unfold MaxValidPort in Hm. lia. }
  rewrite uint_small by (unfold MaxValidPort in Hm; lia).
  rewrite Hfree.
  destruct (isPortReserved reserved m) eqn:Hr.
  { apply isPortReserved_elem_of in Hr. done. }
  destruct (isPortReserved dynamic m) eqn:Hd.
  { apply isPortReserved_elem_of in Hd. done. }
  by exists rng'.
Qed.

Lemma AssignPorts_dynamic_single_port (ports : list Port.t) (offer : AllocatedPorts)
    (idx : NetworkIndex.t) (rng : Rng) (alias : string)
    (addr : NodeNetworkAddress.t) (rest : list NodeNetworkAddress.t) (m : Z) :
  NetworkIndex.MinDynamicPort idx = m →
  NetworkIndex.MaxDynamicPort idx = m + 1 →
  0 <= m < MaxValidPort →
  addresses idx alias = addr :: rest →
  port_used idx (NodeNetworkAddress.Address addr) m = false →
  Forall (λ d, Port.HostNetwork d = alias) ports →
  (AssignPorts_dynamic ports offer ∅ idx rng).1.1
  = Ok (offer ++ map (λ d, AllocatedPortMapping.mk (Port.Label d) m
                             (if Port.To d =? -1 then m else Port.To d)
                             (NodeNetworkAddress.Address addr)) ports).
Proof.
  intros Hmin Hmax Hm Haddr Hfree Hports. revert offer idx rng Hmin Hmax Haddr Hfree.
  induction Hports as [|d ports Hd _ IH]; intros offer idx rng Hmin Hmax Haddr Hfree.
  { cbn. by rewrite app_nil_r. }
  cbn [AssignPorts_dynamic]. cbv zeta. rewrite Hd, Haddr, lookup_empty.
  cbn [default AssignPorts_dynamic_port].
  pose proof (getUsedPortsFor_fields idx (NodeNetworkAddress.Address addr)) as Hf.
  pose proof (getUsedPortsFor_check idx (NodeNetworkAddress.Address addr)) as Hchk.
  pose proof (getUsedPortsFor_frame idx (NodeNetworkAddress.Address addr)) as Hfr.
  destruct (getUsedPortsFor idx (NodeNetworkAddress.Address addr)) as [used idx1].
  cbv zeta in Hf. cbn [fst snd] in Hf, Hchk, Hfr. destruct Hf as (Hhn & Emin & Emax).
  rewrite Emin, Emax, Hmin, Hmax.
  unfold getDynamicPortsStochastic. change (Z.to_nat 1) with 1%nat.
  cbn [stochastic_loop map]. change (Z.to_nat maxRandPortAttempts) with 20%nat.
  assert (check_opt (Some used) m = false) as Hu by (cbn [check_opt]; by rewrite Hchk).
  destruct (stochastic_pick_single 19 (Some used) m [] [] rng Hm Hu
              (not_elem_of_nil m) (not_elem_of_nil m)) as [rng1 ->].
  cbn [app]. rewrite IH.
  - rewrite <- app_assoc. reflexivity.
  - by rewrite Emin.
  - by rewrite Emax.
  - by rewrite (addresses_fields idx idx1).
  - by rewrite Hfr.
Qed.

(** X12. [AssignPorts] draws each dynamic port without looking at the
    dynamic ports it has already put in the offer. When the dynamic range
    holds the single port [m] (that is [MaxDynamicPort = m + 1]), free on
    the first address of a host network, and the ask has no reserved
    ports, every dynamic port the ask wants on that host network is given
    port [m] on that address: an ask for two of them gets the same host
    port twice. *)
Theorem AssignPorts_repeats_dynamic_port
    (idx : NetworkIndex.t) (ask : NetworkResource.t) (rng : Rng) (alias : string)
    (addr : NodeNetworkAddress.t) (rest : list NodeNetworkAddress.t) (m : Z) :
  NetworkIndex.MinDynamicPort idx = m →
  NetworkIndex.MaxDynamicPort idx = m + 1 →
  0 <= m < MaxValidPort →
  addresses idx alias = addr :: rest →
  port_used idx (NodeNetworkAddress.Address addr) m = false →
  NetworkResource.ReservedPorts ask = [] →
  Forall (λ d, Port.HostNetwork d = alias) (NetworkResource.DynamicPorts ask) →
  (AssignPorts idx ask rng).1.1
  = Ok (map (λ d, AllocatedPortMapping.mk (Port.Label d) m
                    (if Port.To d =? -1 then m else Port.To d)
                    (NodeNetworkAddress.Address addr))
            (NetworkResource.DynamicPorts ask)).
Proof.
  intros Hmin Hmax Hm Haddr Hfree Hres Hports.
  unfold AssignPorts. rewrite Hres. cbn [AssignPorts_reserved].
  by rewrite (AssignPorts_dynamic_single_port _ [] idx rng alias addr rest m).
Qed.

Lemma AssignPorts_repeats_dynamic_port_witness :
  (AssignPorts (index_with [default_address] 30000 30001)
     (ask_of [] [Port.mk "a" 0 (-1) "default"; Port.mk "b" 0 (-1) "default"]) [4; 9]).1.1
  = Ok [AllocatedPortMapping.mk "a" 30000 30000 "10.0.0.1";
        AllocatedPortMapping.mk "b" 30000 30000 "10.0.0.1"].
Proof.
  apply (AssignPorts_repeats_dynamic_port (index_with [default_address] 30000 30001)
           (ask_of [] [Port.mk "a" 0 (-1) "default"; Port.mk "b" 0 (-1) "default"])
           [4; 9] "default" default_address [] 30000).
  - reflexivity.
  - reflexivity.
  - unfold MaxValidPort. lia.
  - reflexivity.
  - reflexivity.
  - reflexivity.
  - repeat constructor.
Defined.

(** ** The offers of AssignTaskNetwork *)

Lemma AssignTaskNetwork_reserved_None (ports : list Port.t) (used : option Bitmap.t) :
  AssignTaskNetwork_reserved ports used = None →
  Forall (λ q, 0 <= Port.Value q < MaxValidPort ∧ check_opt used (Port.Value q) = false) ports.
Proof.
  induction ports as [|q rest IH]; cbn [AssignTaskNetwork_reserved]; [done|].
  destruct (invalid_port (Port.Value q)) eqn:Hinv; [done|].
  apply invalid_port_false in Hinv as [Hv Hu]. rewrite Hu.
  destruct (check_opt used (Port.Value q)) eqn:Hc; [done|].
  intros Hrest. constructor; [done|]. by apply IH.
Qed.

Lemma build_offer_values (dynPorts : list Z) (ports ports' : list Port.t) :
  length dynPorts = length ports →
  build_offer 0 dynPorts ports = Some ports' →
  map Port.Value ports' = dynPorts.
Proof.
  intros Hlen Hb. apply build_offer_spec in Hb as [Hlen' Hk].
  apply list_eq. intros k. rewrite list_lookup_fmap, Hk.
  case_decide as Hin.
  - rewrite Nat.sub_0_r.
    destruct (lookup_lt_is_Some_2 ports k) as [p ->]; [lia|].
    destruct (lookup_lt_is_Some_2 dynPorts k) as [v Hv]; [lia|].
    rewrite Hv. done.
  - rewrite (lookup_ge_None_2 ports) by lia. rewrite (lookup_ge_None_2 dynPorts) by lia.
    done.
Qed.

Section AssignTaskNetwork_offers.

Variable net_ParseCIDR : string → option (IP * IPNet.t).
Variable net_IP_Mask : IP → list Z → IP.
Variable net_IPNet_Contains : IPNet.t → IP → bool.
Variable net_IP_String : IP → string.

Lemma AssignTaskNetwork_cb_step (idx : NetworkIndex.t) (ask n : NetworkResource.t)
    (offerIP : IP) (s : AssignTaskNetwork_vars) :
  nonneg_int (NetworkIndex.MinDynamicPort idx) →
  nonneg_int (NetworkIndex.MaxDynamicPort idx) →
  n ∈ NetworkIndex.TaskNetworks idx →
  no_offer_yet s →
  match AssignTaskNetwork_cb net_IP_String idx ask n offerIP s with
  | (Ok true, s') => offer_found net_IP_String idx ask s'
  | (Ok false, s') => no_offer_yet s'
  | _ => True
  end.
Proof.
  intros Hmin Hmax Hn [Hout Herr]. unfold AssignTaskNetwork_cb. cbv zeta.
  destruct (_ >? _) eqn:Hbw; [by split|].
  destruct (AssignTaskNetwork_reserved _ _) as [e|] eqn:Hres; [by split|].
  apply AssignTaskNetwork_reserved_None in Hres.
  set (used := NetworkIndex.UsedPorts idx !! net_IP_String offerIP) in *.
  assert (∀ dynPorts rng,
    length dynPorts = length (NetworkResource.DynamicPorts ask) →
    NoDup dynPorts →
    Forall (λ v, check_opt used v = false
                 ∧ v ∉ map Port.Value (NetworkResource.ReservedPorts ask)) dynPorts →
    match
      match build_offer 0 dynPorts (NetworkResource.DynamicPorts ask) with
      | Some ports =>
          (Ok true,
           mk_vars
             (Some (NetworkResource.mk (NetworkResource.Mode ask)
                      (NetworkResource.Device n) "" (net_IP_String offerIP)
                      (NetworkResource.MBits ask) (NetworkResource.DNS ask)
                      (NetworkResource.ReservedPorts ask) ports)) None rng)
      | None => (Panic, mk_vars (out s) (err s) rng)
      end
    with
    | (Ok true, s') => offer_found net_IP_String idx ask s'
    | (Ok false, s') => no_offer_yet s'
    | _ => True
    end) as Hbuild.
  { intros dynPorts rng Hlen Hnd Hfree.
    destruct (build_offer 0 dynPorts _) as [ports|] eqn:Hb; [|done].
    apply build_offer_values in Hb; [|done].
    eexists. split; [reflexivity|]. split; [reflexivity|].
    unfold sound_offer.
    cbn [NetworkResource.Device NetworkResource.IP NetworkResource.Mode
         NetworkResource.MBits NetworkResource.DNS NetworkResource.CIDR
         NetworkResource.DynamicPorts].
    split; [by exists n, offerIP|].
    do 4 (split; [reflexivity|]).
    split; [lia|]. split; [exact Hres|]. rewrite Hb. split; [exact Hnd|].
    apply Forall_forall. intros q Hq.
    apply (proj1 (Forall_forall _ _) Hfree). rewrite <- Hb.
    apply list_elem_of_fmap. by exists q. }
  destruct (getDynamicPortsStochastic _ _ _ _ _ _) as [[dynPorts|e|] rng1] eqn:Hst.
  - pose proof (getDynamicPortsStochastic_bounds _ _ _ _ _ _ _ _ Hmin Hmax Hst) as Hb.
    pose proof (getDynamicPortsStochastic_length _ _ _ _ _ _ _ _ Hst) as Hlen.
    apply getDynamicPortsStochastic_free in Hst as [Hnd Hfree].
    apply Hbuild; [lia|done|].
    apply Forall_forall. intros v Hv.
    pose proof (proj1 (Forall_forall _ _) Hb v Hv) as Hrange.
    pose proof (proj1 (Forall_forall _ _) Hfree v Hv) as [Hu Hr].
    rewrite uint_small in Hu by (unfold nonneg_int in *; lia). done.
  - destruct (getDynamicPortsPrecise _ _ _ _ _ _) as [[dynPorts|e'|] rng2] eqn:Hpr.
    + pose proof (getDynamicPortsPrecise_Ok _ _ _ _ _ _ _ _ Hpr) as [Hlen _].
      apply getDynamicPortsPrecise_free in Hpr as [Hnd Hfree].
      apply Hbuild; [lia|done|].
      rewrite map_uint_Value in Hfree; [done|].
      eapply Forall_impl; [exact Hres|]. by intros q [Hq _].
    + by split.
    + done.
  - done.
Qed.

Lemma yieldIP_addresses_stops {S : Type} (P Q : S → Prop)
    (cb : NetworkResource.t → IP → S → result bool * S) (n : NetworkResource.t) :
  (∀ ip s, P s → match cb n ip s with
                 | (Ok true, s') => Q s'
                 | (Ok false, s') => P s'
                 | _ => True
                 end) →
  ∀ fuel ipnet ip s r s',
    P s → yieldIP_addresses net_IPNet_Contains fuel cb n ipnet ip s = Some (r, s') →
    match r with
    | Ok true => Q s'
    | Ok false => P s'
    | _ => True
    end.
Proof.
  intros Hcb fuel. induction fuel as [|fuel IH]; intros ipnet ip s r s' Hs; [done|].
  cbn [yieldIP_addresses].
  destruct (net_IPNet_Contains ipnet ip); [|by intros [= <- <-]].
  pose proof (Hcb ip s Hs) as Hs1.
  destruct (cb n ip s) as [[[]|e|] s1].
  - by intros [= <- <-].
  - by apply IH.
  - by intros [= <- <-].
  - by intros [= <- <-].
Qed.

Lemma yieldIP_networks_stops {S : Type} (P Q : S → Prop)
    (cb : NetworkResource.t → IP → S → result bool * S) (networks : list NetworkResource.t) :
  (∀ n ip s, n ∈ networks → P s → match cb n ip s with
                                  | (Ok true, s') => Q s'
                                  | (Ok false, s') => P s'
                                  | _ => True
                                  end) →
  ∀ fuel s s',
    P s →
    yieldIP_networks net_ParseCIDR net_IP_Mask net_IPNet_Contains fuel cb networks s
    = Some (Ok tt, s') →
    P s' ∨ Q s'.
Proof.
  intros Hcb fuel.
  induction networks as [|n rest IH]; intros s s' Hs; cbn [yieldIP_networks].
  - intros [= <-]. by left.
  - assert (∀ s0, P s0 →
              yieldIP_networks net_ParseCIDR net_IP_Mask net_IPNet_Contains fuel cb rest s0
              = Some (Ok tt, s') → P s' ∨ Q s') as IH'.
    { intros s0 Hs0. apply IH; [|done]. intros n' ip' s1 Hn'. apply Hcb. by right. }
    destruct (net_ParseCIDR (NetworkResource.CIDR n)) as [[ip ipnet]|]; [|by apply IH'].
    destruct (yieldIP_addresses net_IPNet_Contains fuel cb n ipnet _ s) as [[r1 s1]|] eqn:Ha;
      [|done].
    apply (yieldIP_addresses_stops P Q cb n) in Ha; [| |done].
    2:{ intros ip' s0. apply Hcb. by left. }
    destruct r1 as [[]|e|].
    + intros [= <-]. by right.
    + by apply IH'.
    + done.
    + done.
Qed.

(** X13. When [AssignTaskNetwork] returns with a dynamic range of
    non-negative Go ints, exactly one of its two results is set. Either
    there is no offer and an error, or there is an offer and no error,
    and then the offer is on the device of a task network of the index,
    copies mode, bandwidth and DNS of the ask, fits the bandwidth left on
    the device, and all its ports are free on the offered address: the
    reserved ports are port numbers not in use there, the dynamic ports
    are different from one another, not in use there and not among the
    reserved ports of the ask. *)
Theorem AssignTaskNetwork_offer_or_error
    (fuel : nat) (idx : NetworkIndex.t) (ask : NetworkResource.t) (rng rng' : Rng)
    (o : option NetworkResource.t) (e : option string) :
  nonneg_int (NetworkIndex.MinDynamicPort idx) →
  nonneg_int (NetworkIndex.MaxDynamicPort idx) →
  AssignTaskNetwork net_ParseCIDR net_IP_Mask net_IPNet_Contains net_IP_String
    fuel idx ask rng = Some (Ok (o, e), rng') →
  (o = None ∧ is_Some e)
  ∨ (∃ offer, o = Some offer ∧ e = None ∧ sound_offer net_IP_String idx ask offer).
Proof.
  intros Hmin Hmax. unfold AssignTaskNetwork, yieldIP.
  destruct (yieldIP_networks net_ParseCIDR net_IP_Mask net_IPNet_Contains fuel _ _ _)
    as [[r s]|] eqn:Hy; [|done].
  destruct r as [[]|msg|]; [|done..].
  intros [= <- <- _].
  apply (yieldIP_networks_stops no_offer_yet (offer_found net_IP_String idx ask)) in Hy.
  - exact Hy.
  - intros n ip s0 Hn Hs0. by apply AssignTaskNetwork_cb_step.
  - split; [done|]. by eexists.
Qed.

End AssignTaskNetwork_offers.

Lemma AssignTaskNetwork_offer_or_error_witness :
  (Some offer_task = None ∧ is_Some (@None string))
  ∨ (∃ offer, Some offer_task = Some offer ∧ @None string = None
              ∧ sound_offer ipv4_String index_task_network ask_task offer).
Proof.
  apply (AssignTaskNetwork_offer_or_error ipv4_ParseCIDR ipv4_Mask ipv4_Contains ipv4_String
           5 index_task_network ask_task [3; 7; 11] [11]).
  - change (nonneg_int 20000). unfold nonneg_int. lia.
  - change (nonneg_int 32000). unfold nonneg_int. lia.
  - vm_compute. reflexivity.
Defined.

(** ** AssignTaskNetwork returns *)

Section Termination.

Variable net_ParseCIDR : string → option (IP * IPNet.t).
Variable net_IP_Mask : IP → list Z → IP.
Variable net_IPNet_Contains : IPNet.t → IP → bool.
Variable net_IP_String : IP → string.

Lemma yieldIP_addresses_returns {S : Type}
    (cb : NetworkResource.t → IP → S → result bool * S) (n : NetworkResource.t)
    (ipnet : IPNet.t) (k fuel : nat) (ip : IP) (s : S) :
  (k < fuel)%nat →
  net_IPNet_Contains ipnet (Nat.iter k incIP ip) = false →
  ∃ r, yieldIP_addresses net_IPNet_Contains fuel cb n ipnet ip s = Some r.
Proof.
  revert fuel ip s. induction k as [|k IH]; intros fuel ip s Hlt Hout.
  - destruct fuel as [|fuel]; [lia|]. cbn [yieldIP_addresses].
    change (Nat.iter 0 incIP ip) with ip in Hout. rewrite Hout. by eexists.
  - destruct fuel as [|fuel]; [lia|]. cbn [yieldIP_addresses].
    destruct (net_IPNet_Contains ipnet ip); [|by eexists].
    destruct (cb n ip s) as [[[]|e|] s1]; try by eexists.
    apply IH; [lia|]. by rewrite <- Nat.iter_succ_r.
Qed.

Lemma yieldIP_networks_returns {S : Type} (fuel : nat)
    (cb : NetworkResource.t → IP → S → result bool * S)
    (networks : list NetworkResource.t) (s : S) :
  (∀ n ip ipnet, n ∈ networks → net_ParseCIDR (NetworkResource.CIDR n) = Some (ip, ipnet) →
     leaves_network net_IPNet_Contains fuel ipnet (net_IP_Mask ip (IPNet.Mask ipnet))) →
  ∃ r, yieldIP_networks net_ParseCIDR net_IP_Mask net_IPNet_Contains fuel cb networks s
       = Some r.
Proof.
  revert s. induction networks as [|n rest IH]; intros s Hleave; cbn [yieldIP_networks].
  - by eexists.
  - assert (∀ s0, ∃ r, yieldIP_networks net_ParseCIDR net_IP_Mask net_IPNet_Contains fuel cb
                         rest s0 = Some r) as IH'.
    { intros s0. apply IH. intros n' ip' ipnet' Hn'. apply Hleave. by right. }
    destruct (net_ParseCIDR (NetworkResource.CIDR n)) as [[ip ipnet]|] eqn:Hparse;
      [|apply IH'].
    destruct (Hleave n ip ipnet) as (k & Hk & Hout); [by left|done|].
    destruct (yieldIP_addresses_returns cb n ipnet k fuel
                (net_IP_Mask ip (IPNet.Mask ipnet)) s Hk Hout) as [[r1 s1] ->].
    destruct r1 as [[]|e|]; try by eexists. apply IH'.
Qed.

(** X14. [AssignTaskNetwork] returns: when the walk over the addresses of
    every task network whose CIDR parses leaves the network within the
    number of steps allowed, the call ends with its two named results or
    with a panic; it does not run on. *)
Theorem AssignTaskNetwork_returns
    (fuel : nat) (idx : NetworkIndex.t) (ask : NetworkResource.t) (rng : Rng) :
  (∀ n ip ipnet, n ∈ NetworkIndex.TaskNetworks idx →
     net_ParseCIDR (NetworkResource.CIDR n) = Some (ip, ipnet) →
     leaves_network net_IPNet_Contains fuel ipnet (net_IP_Mask ip (IPNet.Mask ipnet))) →
  ∃ r, AssignTaskNetwork net_ParseCIDR net_IP_Mask net_IPNet_Contains net_IP_String
         fuel idx ask rng = Some r.
Proof.
  intros Hleave. unfold AssignTaskNetwork, yieldIP.
  destruct (yieldIP_networks_returns fuel (AssignTaskNetwork_cb net_IP_String idx ask)
              (NetworkIndex.TaskNetworks idx)
              (mk_vars None (Some "no networks available") rng) Hleave) as [[r s] ->].
  destruct r as [u|e|]; by eexists.
Qed.

End Termination.

Lemma AssignTaskNetwork_returns_witness :
  ∃ r, AssignTaskNetwork ipv4_ParseCIDR ipv4_Mask ipv4_Contains ipv4_String
         5 index_task_network ask_task [3; 7; 11] = Some r.
Proof.
  apply (AssignTaskNetwork_returns ipv4_ParseCIDR ipv4_Mask ipv4_Contains ipv4_String
           5 index_task_network ask_task [3; 7; 11]).
  intros n ip ipnet Hn Hparse.
  apply list_elem_of_singleton in Hn. subst n.
  injection Hparse as <- <-. exists 2%nat. split; [lia|reflexivity].
Defined.

(** ** The copy of the host networks *)

(** X15. [copyAvailAddresses] keeps under every alias the addresses it
    had, so the copy reads like the original wherever an absent alias
    reads as no address; but the copy is not the same map: an alias
    without an address is not a key of the copy. Copying the copy
    changes nothing. *)
Theorem copyAvailAddresses_drops_empty_aliases (a : gmap string (list NodeNetworkAddress.t)) :
  (∀ alias, default [] (copyAvailAddresses a !! alias) = default [] (a !! alias))
  ∧ (∀ alias addrs, copyAvailAddresses a !! alias = Some addrs
                    ↔ a !! alias = Some addrs ∧ addrs ≠ [])
  ∧ (∀ alias, a !! alias = Some [] → copyAvailAddresses a !! alias = None)
  ∧ copyAvailAddresses (copyAvailAddresses a) = copyAvailAddresses a.
Proof.
  assert (∀ (m : gmap string (list NodeNetworkAddress.t)) alias addrs,
            copyAvailAddresses m !! alias = Some addrs ↔ m !! alias = Some addrs ∧ addrs ≠ [])
    as Hsome.
  { intros m alias addrs. unfold copyAvailAddresses. by rewrite map_lookup_filter_Some. }
  assert (∀ alias, a !! alias = Some [] → copyAvailAddresses a !! alias = None) as Hnone.
  { intros alias Ha. destruct (copyAvailAddresses a !! alias) as [addrs|] eqn:Hc; [|done].
    apply Hsome in Hc as [Hc Hne]. congruence. }
  split; [|split; [apply Hsome|split; [exact Hnone|]]].
  - intros alias. destruct (copyAvailAddresses a !! alias) as [addrs|] eqn:Hc.
    + apply Hsome in Hc as [-> _]. done.
    + destruct (a !! alias) as [[|addr addrs]|] eqn:Ha; [done| |done].
      assert (copyAvailAddresses a !! alias = Some (addr :: addrs)) as Hc'
        by (by apply Hsome). congruence.
  - apply map_eq. intros alias. apply option_eq. intros addrs.
    rewrite !Hsome. tauto.
Qed.

(** ** A dynamic range without a port below its upper bound *)

Lemma stochastic_pick_empty_range (left : nat) (nodeUsed : option Bitmap.t) (minP maxP : Z)
    (reserved dynamic : list Z) (rng : Rng) :
  nonneg_int minP → nonneg_int maxP → maxP <= minP →
  stochastic_pick (S left) nodeUsed minP maxP reserved dynamic rng = (Panic, rng).
Proof.
  intros Hmin Hmax Hle. cbn [stochastic_pick].
  assert (int_sub maxP minP = maxP - minP) as ->.
  { unfold int_sub. apply int_wrap_small. unfold nonneg_int in *. lia. }
  unfold rand_Intn. destruct (maxP - minP <=? 0) eqn:Hn; [done|lia].
Qed.

Lemma stochastic_empty_range (nodeUsed : option Bitmap.t) (minP maxP : Z)
    (reservedPorts : list Port.t) (count : Z) (rng : Rng) :
  nonneg_int minP → nonneg_int maxP → maxP <= minP →
  getDynamicPortsStochastic nodeUsed minP maxP reservedPorts count rng
  = (if 0 <? count then Panic else Ok [], rng).
Proof.
  intros Hmin Hmax Hle. unfold getDynamicPortsStochastic.
  destruct (0 <? count) eqn:Hcount.
  - destruct (Z.to_nat count) as [|todo] eqn:Htodo; [lia|].
    cbn [stochastic_loop]. change (Z.to_nat maxRandPortAttempts) with 20%nat.
    by rewrite stochastic_pick_empty_range.
  - replace (Z.to_nat count) with 0%nat by lia. reflexivity.
Qed.

(** X16. With a dynamic range whose upper bound is not above its lower
    bound (both non-negative Go ints), the stochastic selector panics as
    soon as one port is asked for, in [rand.Intn] of a number that is not
    positive; asked for no port it returns none. So [AssignPorts] panics
    on an ask whose reserved ports are accepted and whose first dynamic
    port names a host network with an address. *)
Theorem empty_dynamic_range_panics (idx : NetworkIndex.t) :
  nonneg_int (NetworkIndex.MinDynamicPort idx) →
  nonneg_int (NetworkIndex.MaxDynamicPort idx) →
  NetworkIndex.MaxDynamicPort idx <= NetworkIndex.MinDynamicPort idx →
  (∀ nodeUsed reservedPorts count rng,
      getDynamicPortsStochastic nodeUsed (NetworkIndex.MinDynamicPort idx)
        (NetworkIndex.MaxDynamicPort idx) reservedPorts count rng
      = (if 0 <? count then Panic else Ok [], rng))
  ∧ (∀ ask rng d rest,
      Forall (reserved_port_accepted idx) (NetworkResource.ReservedPorts ask) →
      NetworkResource.DynamicPorts ask = d :: rest →
      addresses idx (Port.HostNetwork d) ≠ [] →
      (AssignPorts idx ask rng).1.1 = Panic).
Proof.
  intros Hmin Hmax Hle. split.
  { intros nodeUsed reservedPorts count rng. by apply stochastic_empty_range. }
  intros ask rng d rest Hacc Hdyn Haddr. unfold AssignPorts.
  destruct (AssignPorts_reserved_accepted _ [] ∅ idx Hacc) as (offer' & reservedIdx' & Hok & _).
  pose proof (AssignPorts_reserved_fields (NetworkResource.ReservedPorts ask) [] ∅ idx) as Hf.
  destruct (AssignPorts_reserved _ [] ∅ idx) as [r idx1]. cbn [fst] in Hok. subst r.
  cbv zeta in Hf. cbn [snd] in Hf. destruct Hf as (Hhn & Emin & Emax).
  rewrite Hdyn. cbn [AssignPorts_dynamic]. cbv zeta.
  rewrite (addresses_fields idx idx1 _ Hhn).
  destruct (addresses idx (Port.HostNetwork d)) as [|addr addrs]; [done|].
  cbn [AssignPorts_dynamic_port].
  pose proof (getUsedPortsFor_fields idx1 (NodeNetworkAddress.Address addr)) as Hg.
  destruct (getUsedPortsFor idx1 (NodeNetworkAddress.Address addr)) as [used idx2].
  cbv zeta in Hg. cbn [snd] in Hg. destruct Hg as (_ & Emin2 & Emax2).
  rewrite stochastic_empty_range; [done|rewrite Emin2, Emin|rewrite Emax2, Emax|]; try done.
  by rewrite Emin2, Emax2, Emin, Emax.
Qed.

Lemma empty_dynamic_range_panics_witness :
  (AssignPorts (index_with [default_address] 30000 30000)
     (ask_of [] [Port.mk "api" 0 (-1) "default"]) [4]).1.1 = Panic.
Proof.
  destruct (empty_dynamic_range_panics (index_with [default_address] 30000 30000))
    as [_ Hpanic].
  - change (nonneg_int 30000). unfold nonneg_int. lia.
  - change (nonneg_int 30000). unfold nonneg_int. lia.
  - change (30000 <= 30000). lia.
  - apply (Hpanic (ask_of [] [Port.mk "api" 0 (-1) "default"]) [4]
             (Port.mk "api" 0 (-1) "default") []).
    + apply Forall_nil_2.
    + reflexivity.
    + discriminate.
Defined.

(** ** AssignPorts finds the ports that are there *)

Lemma stochastic_pick_no_panic (left : nat) (nodeUsed : option Bitmap.t) (minP maxP : Z)
    (reserved dynamic : list Z) (rng : Rng) :
  nonneg_int minP → nonneg_int maxP → minP < maxP →
  (stochastic_pick left nodeUsed minP maxP reserved dynamic rng).1 ≠ Panic.
Proof.
  intros Hmin Hmax Hlt. revert rng.
  induction left as [|left IH]; intros rng; cbn [stochastic_pick]; [done|].
  assert (int_sub maxP minP = maxP - minP) as ->.
  { unfold int_sub. apply int_wrap_small. unfold nonneg_int in *. lia. }
  destruct (rand_Intn_pos (maxP - minP) rng) as (j & rng1 & -> & _); [lia|].
  destruct (check_opt _ _); [apply IH|].
  destruct (_ || _); [apply IH|done].
Qed.

Lemma stochastic_one (nodeUsed : option Bitmap.t) (minP maxP : Z)
    (reservedPorts : list Port.t) (rng : Rng) :
  nonneg_int minP → nonneg_int maxP → minP < maxP →
  (∃ v rng', getDynamicPortsStochastic nodeUsed minP maxP reservedPorts 1 rng
             = (Ok [v], rng'))
  ∨ (∃ e rng', getDynamicPortsStochastic nodeUsed minP maxP reservedPorts 1 rng
               = (Err e, rng')).
Proof.
  intros Hmin Hmax Hlt. unfold getDynamicPortsStochastic.
  change (Z.to_nat 1) with 1%nat. cbn [stochastic_loop].
  pose proof (stochastic_pick_no_panic (Z.to_nat maxRandPortAttempts) nodeUsed minP maxP
                (map Port.Value reservedPorts) [] rng Hmin Hmax Hlt) as Hnp.
  destruct (stochastic_pick _ _ _ _ _ _ _) as [[v|e|] rng1]; [| |done].
  - left. by exists v, rng1.
  - right. by exists e, rng1.
Qed.

Lemma precise_one (nodeUsed : option Bitmap.t) (minP maxP : Z)
    (reserved : list Port.t) (rng : Rng) :
  nonneg_int minP → nonneg_int maxP →
  Forall (λ q, port_ok q) reserved →
  (∃ v rest rng', getDynamicPortsPrecise nodeUsed minP maxP reserved 1 rng
                  = (Ok (v :: rest), rng')
                  ∧ free_port nodeUsed minP maxP reserved v)
  ∨ ((∃ rng', getDynamicPortsPrecise nodeUsed minP maxP reserved 1 rng
              = (Err "dynamic port selection failed", rng'))
     ∧ ∀ p, ¬ free_port nodeUsed minP maxP reserved p).
Proof.
  intros Hmin Hmax Hres. unfold getDynamicPortsPrecise.
  destruct (precise_available nodeUsed minP maxP reserved Hmin Hmax Hres)
    as (usedSet & -> & Havail).
  cbv zeta.
  set (availablePorts := Bitmap.IndexesInRange usedSet false (uint minP) (uint maxP)) in *.
  destruct (Z.of_nat (length availablePorts) <? 1) eqn:Hlen.
  - right. split; [by eexists|]. intros p Hp. apply Havail in Hp.
    apply list_elem_of_lookup in Hp as [i Hi]. apply lookup_lt_Some in Hi. lia.
  - left.
    destruct (precise_shuffle_Permutation (Z.to_nat 1) 0
                (Z.of_nat (length availablePorts)) availablePorts rng)
      as (shuffled & rng1 & -> & Hperm); [done|lia|].
    cbn [Z.ltb Z.compare].
    pose proof (Permutation_length Hperm) as Hlen'.
    destruct shuffled as [|v rest]; [cbn [length] in Hlen'; lia|].
    exists v, [], rng1. split; [done|]. apply Havail. rewrite <- Hperm. by left.
Qed.

Lemma AssignPorts_dynamic_port_finds (addrs : list NodeNetworkAddress.t)
    (addrErr : option string) (port : Port.t) (reserved : list Port.t)
    (idx : NetworkIndex.t) (rng : Rng) :
  nonneg_int (NetworkIndex.MinDynamicPort idx) →
  nonneg_int (NetworkIndex.MaxDynamicPort idx) →
  NetworkIndex.MinDynamicPort idx < NetworkIndex.MaxDynamicPort idx →
  Forall (λ q, port_ok q) reserved →
  (∃ addr p, addr ∈ addrs
             ∧ NetworkIndex.MinDynamicPort idx <= p <= NetworkIndex.MaxDynamicPort idx
             ∧ 0 <= p < MaxValidPort
             ∧ port_used idx (NodeNetworkAddress.Address addr) p = false
             ∧ p ∉ map Port.Value reserved) →
  ∃ m, (AssignPorts_dynamic_port addrs addrErr port reserved idx rng).1.1 = Ok m.
Proof.
  intros Hmin Hmax Hlt Hres. revert addrErr idx rng Hmin Hmax Hlt.
  induction addrs as [|addr rest IH]; intros addrErr idx rng Hmin Hmax Hlt Hfree.
  { destruct Hfree as (a & p & Ha & _). by apply elem_of_nil in Ha. }
  cbn [AssignPorts_dynamic_port].
  pose proof (getUsedPortsFor_fields idx (NodeNetworkAddress.Address addr)) as Hg.
  pose proof (getUsedPortsFor_check idx (NodeNetworkAddress.Address addr)) as Hchk.
  pose proof (getUsedPortsFor_frame idx (NodeNetworkAddress.Address addr)) as Hfr.
  destruct (getUsedPortsFor idx (NodeNetworkAddress.Address addr)) as [used idx1].
  cbv zeta in Hg. cbn [fst snd] in Hg, Hchk, Hfr. destruct Hg as (_ & Emin & Emax).
  rewrite Emin, Emax.
  destruct (stochastic_one (Some used) _ _ reserved rng Hmin Hmax Hlt)
    as [(v & rng1 & ->)|(e & rng1 & ->)]; [by eexists|].
  destruct (precise_one (Some used) _ _ reserved rng1 Hmin Hmax Hres)
    as [(v & vs & rng2 & -> & _)|[(rng2 & ->) Hnone]]; [by eexists|].
  apply IH; [by rewrite Emin|by rewrite Emax|by rewrite Emin, Emax|].
  destruct Hfree as (a & p & Ha & Hrange & Hport & Hunused & Hnot).
  apply elem_of_cons in Ha as [->|Ha].
  - destruct (Hnone p). unfold free_port. cbn [check_opt]. by rewrite Hchk.
  - exists a, p. rewrite Emin, Emax, Hfr. done.
Qed.

Lemma AssignPorts_dynamic_finds (reserved ports : list Port.t) (offer : AllocatedPorts)
    (reservedIdx : gmap string (list Port.t)) (idx0 idx : NetworkIndex.t) (rng : Rng) :
  nonneg_int (NetworkIndex.MinDynamicPort idx0) →
  nonneg_int (NetworkIndex.MaxDynamicPort idx0) →
  NetworkIndex.MinDynamicPort idx0 < NetworkIndex.MaxDynamicPort idx0 →
  Forall (λ q, port_ok q) reserved →
  (∀ hn, default [] (reservedIdx !! hn) = filter (λ q, Port.HostNetwork q = hn) reserved) →
  Forall (dynamic_port_available idx0 reserved) ports →
  NetworkIndex.HostNetworks idx = NetworkIndex.HostNetworks idx0 →
  NetworkIndex.MinDynamicPort idx = NetworkIndex.MinDynamicPort idx0 →
  NetworkIndex.MaxDynamicPort idx = NetworkIndex.MaxDynamicPort idx0 →
  (∀ ip p, port_used idx ip p = port_used idx0 ip p) →
  ∃ offer', (AssignPorts_dynamic ports offer reservedIdx idx rng).1.1 = Ok offer'.
Proof.
  intros Hmin Hmax Hlt Hres Hidx Hports. revert offer idx rng.
  induction Hports as [|d ports Hd _ IH]; intros offer idx rng Hhn Emin Emax Hused;
    cbn [AssignPorts_dynamic]; [by eexists|].
  cbv zeta.
  pose proof (AssignPorts_dynamic_port_fields (addresses idx (Port.HostNetwork d)) None
                d (default [] (reservedIdx !! Port.HostNetwork d)) idx rng) as Hf.
  pose proof (AssignPorts_dynamic_port_frame (addresses idx (Port.HostNetwork d)) None
                d (default [] (reservedIdx !! Port.HostNetwork d)) idx rng) as Hfr.
  destruct (AssignPorts_dynamic_port_finds (addresses idx (Port.HostNetwork d)) None
              d (default [] (reservedIdx !! Port.HostNetwork d)) idx rng) as [m Hm].
  - by rewrite Emin.
  - by rewrite Emax.
  - by rewrite Emin, Emax.
  - rewrite Hidx. apply Forall_forall. intros q Hq.
    apply list_elem_of_filter in Hq as [_ Hq]. by apply (proj1 (Forall_forall _ _) Hres).
  - destruct Hd as (addr & p & Haddr & Hrange & Hport & Hunused & Hnot).
    exists addr, p. rewrite Emin, Emax, Hused, (addresses_fields idx0 idx _ Hhn).
    repeat split; try done; try lia.
    rewrite Hidx. intros Hin. apply list_elem_of_fmap in Hin as (r & -> & Hr).
    apply list_elem_of_filter in Hr as [Hsame Hr]. by apply (Hnot r).
  - destruct (AssignPorts_dynamic_port _ None d _ idx rng) as [[r idx1] rng1].
    cbv zeta in Hf. cbn [fst snd] in Hf, Hfr, Hm. subst r.
    destruct Hf as (Hhn1 & Emin1 & Emax1).
    apply IH; [by rewrite Hhn1|by rewrite Emin1|by rewrite Emax1|].
    intros ip p. by rewrite Hfr.
Qed.

(** X17. [AssignPorts] makes an offer whenever the ports are there. With
    a dynamic range whose bounds are non-negative Go ints, the lower
    below the upper, the call returns an offer, whatever the random
    numbers, if every reserved port of the ask passes its checks on the
    first address of its host network and every dynamic port of the ask
    has, on some address of its host network, a port number of the
    dynamic range that is not in use and not reserved by the ask. *)
Theorem AssignPorts_finds_the_ports
    (idx : NetworkIndex.t) (ask : NetworkResource.t) (rng : Rng) :
  nonneg_int (NetworkIndex.MinDynamicPort idx) →
  nonneg_int (NetworkIndex.MaxDynamicPort idx) →
  NetworkIndex.MinDynamicPort idx < NetworkIndex.MaxDynamicPort idx →
  Forall (reserved_port_accepted idx) (NetworkResource.ReservedPorts ask) →
  Forall (dynamic_port_available idx (NetworkResource.ReservedPorts ask))
         (NetworkResource.DynamicPorts ask) →
  ∃ offer, (AssignPorts idx ask rng).1.1 = Ok offer.
Proof.
  intros Hmin Hmax Hlt Hacc Hdyn. unfold AssignPorts.
  destruct (AssignPorts_reserved_accepted _ [] ∅ idx Hacc) as (offer' & reservedIdx' & Hok & _).
  pose proof (AssignPorts_reserved_fields (NetworkResource.ReservedPorts ask) [] ∅ idx) as Hf.
  pose proof (AssignPorts_reserved_frame (NetworkResource.ReservedPorts ask) [] ∅ idx) as Hfr.
  destruct (AssignPorts_reserved _ [] ∅ idx) as [r idx1] eqn:Hr. cbn [fst] in Hok. subst r.
  cbv zeta in Hf. cbn [snd] in Hf, Hfr. destruct Hf as (Hhn & Emin & Emax).
  apply AssignPorts_reserved_passes in Hr as [_ Hidx].
  apply (AssignPorts_dynamic_finds (NetworkResource.ReservedPorts ask) _ _ _ idx);
    try done.
  eapply Forall_impl; [exact Hacc|]. intros q (addr & _ & Hq & _). exact Hq.
Qed.

Lemma AssignPorts_finds_the_ports_witness :
  ∃ offer, (AssignPorts index_tight ask_tight [1; 1; 1]).1.1 = Ok offer.
Proof.
  apply (AssignPorts_finds_the_ports index_tight ask_tight [1; 1; 1]).
  - change (nonneg_int 20000). unfold nonneg_int. lia.
  - change (nonneg_int 20002). unfold nonneg_int. lia.
  - change (20000 < 20002). lia.
  - constructor; [|constructor]. exists default_address.
    split; [reflexivity|]. split; [cbn; unfold MaxValidPort; lia|]. vm_compute. reflexivity.
  - constructor; [|constructor]. exists default_address, 20002.
    split; [left|].
    split; [change (20000 <= 20002 <= 20002); lia|].
    split; [unfold MaxValidPort; lia|]. split; [vm_compute; reflexivity|].
    intros r Hr _. apply list_elem_of_singleton in Hr. subst r. cbn. lia.
Defined.

(** ** The legacy view of allocated ports *)

Lemma AllocatedPortsToNetworkResouce_ports_map
    (Get : AllocatedPorts → string → option AllocatedPortMapping.t)
    (askPorts : list Port.t) (ports : AllocatedPorts) (written : list Port.t) :
  AllocatedPortsToNetworkResouce_ports Get askPorts ports (length written) (written ++ askPorts)
  = Some (written ++ map (legacy_view Get ports) askPorts).
Proof.
  revert written. induction askPorts as [|port rest IH]; intros written; [done|].
  cbn [AllocatedPortsToNetworkResouce_ports map].
  specialize (IH (written ++ [legacy_view Get ports port])).
  rewrite length_app, Nat.add_1_r, <- !app_assoc in IH. cbn [app] in IH.
  rewrite <- IH. clear IH. unfold legacy_view.
  destruct (Get ports (Port.Label port)) as [p|]; [|done].
  rewrite list_lookup_middle by done.
  rewrite insert_app_r_alt by lia. by rewrite Nat.sub_diag.
Qed.

Lemma AllocatedPortsToNetworkResouce_node_head (nodeNetworks : list NodeNetworkResource.t)
    (ip : string) :
  AllocatedPortsToNetworkResouce_node nodeNetworks ip
  = match head (filter (λ nw, NodeNetworkResource.Mode nw = "host") nodeNetworks) with
    | Some nw =>
        match NodeNetworkResource.Addresses nw with
        | a :: _ => Ok (NodeNetworkAddress.Address a)
        | [] => Panic
        end
    | None => Ok ip
    end.
Proof.
  induction nodeNetworks as [|nw rest IH]; [done|].
  cbn [AllocatedPortsToNetworkResouce_node]. rewrite filter_cons.
  destruct (String.eqb (NodeNetworkResource.Mode nw) "host") eqn:Hmode.
  - apply String.eqb_eq in Hmode. by rewrite decide_True.
  - apply String.eqb_neq in Hmode. by rewrite decide_False.
Qed.

Lemma AllocatedPortsToNetworkResouce_legacy_last (networks : list NetworkResource.t)
    (ip : string) :
  AllocatedPortsToNetworkResouce_legacy networks ip
  = match last (filter (λ nw, NetworkResource.Mode nw = "host") networks) with
    | Some nw => NetworkResource.IP nw
    | None => ip
    end.
Proof.
  revert ip. induction networks as [|nw rest IH]; intros ip; [done|].
  cbn [AllocatedPortsToNetworkResouce_legacy]. rewrite IH, filter_cons.
  destruct (String.eqb (NetworkResource.Mode nw) "host") eqn:Hmode.
  - apply String.eqb_eq in Hmode. rewrite decide_True by done. rewrite last_cons.
    by destruct (last _).
  - apply String.eqb_neq in Hmode. by rewrite decide_False.
Qed.

(** X18. [AllocatedPortsToNetworkResouce] returns the ask with each
    dynamic port that has an allocated port of its label given the value
    and the mapped port of that allocated port, the other dynamic ports
    and all other fields but the address kept. The address is the first
    address of the first node network in host mode when the node has node
    networks, and otherwise the address of the last legacy network in
    host mode; without a network in host mode it is the address of the
    ask. The call panics exactly when that first node network in host
    mode has no address: it panics then, and in no other case, and it
    never returns an error. *)
Theorem AllocatedPortsToNetworkResouce_view
    (Get : AllocatedPorts → string → option AllocatedPortMapping.t)
    (ask : NetworkResource.t) (ports : AllocatedPorts) (node : NodeResources.t) :
  let hosts := filter (λ nw, NodeNetworkResource.Mode nw = "host")
                      (NodeResources.NodeNetworks node) in
  let legacy := filter (λ nw, NetworkResource.Mode nw = "host") (NodeResources.Networks node) in
  (AllocatedPortsToNetworkResouce Get ask ports node = Panic
   ↔ ∃ nw, head hosts = Some nw ∧ NodeNetworkResource.Addresses nw = [])
  ∧ match AllocatedPortsToNetworkResouce Get ask ports node with
    | Ok out =>
        NetworkResource.DynamicPorts out
        = map (legacy_view Get ports) (NetworkResource.DynamicPorts ask)
        ∧ NetworkResource.ReservedPorts out = NetworkResource.ReservedPorts ask
        ∧ NetworkResource.Mode out = NetworkResource.Mode ask
        ∧ NetworkResource.Device out = NetworkResource.Device ask
        ∧ NetworkResource.CIDR out = NetworkResource.CIDR ask
        ∧ NetworkResource.MBits out = NetworkResource.MBits ask
        ∧ NetworkResource.DNS out = NetworkResource.DNS ask
        ∧ match NodeResources.NodeNetworks node with
          | [] =>
              NetworkResource.IP out
              = default (NetworkResource.IP ask) (NetworkResource.IP <$> last legacy)
          | _ =>
              match head hosts with
              | Some nw =>
                  ∃ a rest, NodeNetworkResource.Addresses nw = a :: rest
                            ∧ NetworkResource.IP out = NodeNetworkAddress.Address a
              | None => NetworkResource.IP out = NetworkResource.IP ask
              end
          end
    | Err _ => False
    | Panic => True
    end.
Proof.
  intros hosts legacy. unfold AllocatedPortsToNetworkResouce.
  pose proof (AllocatedPortsToNetworkResouce_ports_map Get
                (NetworkResource.DynamicPorts ask) ports []) as Hports.
  cbn [length app] in Hports. rewrite Hports. clear Hports.
  rewrite AllocatedPortsToNetworkResouce_node_head, AllocatedPortsToNetworkResouce_legacy_last.
  fold hosts. fold legacy.
  destruct (NodeResources.NodeNetworks node) as [|nw0 nws] eqn:Hnn.
  - change (0 <? Z.of_nat (length (@nil NodeNetworkResource.t))) with false. cbv iota.
    split.
    + split; [done|]. intros (nw & Hhead & _). done.
    + cbn [NetworkResource.DynamicPorts NetworkResource.ReservedPorts NetworkResource.Mode
           NetworkResource.Device NetworkResource.CIDR NetworkResource.MBits
           NetworkResource.DNS NetworkResource.IP].
      repeat split. by destruct (last legacy).
  - cbn [length]. destruct (0 <? Z.of_nat (S (length nws))) eqn:Hpos;
      [|apply Z.ltb_ge in Hpos; lia].
    destruct (head hosts) as [nw|] eqn:Hhead.
    + destruct (NodeNetworkResource.Addresses nw) as [|a addrs] eqn:Ha.
      * split; [|done]. split; [|done]. intros _. by exists nw.
      * split.
        -- split; [done|]. intros (nw' & [= <-] & Hnone). congruence.
        -- cbn [NetworkResource.DynamicPorts NetworkResource.ReservedPorts
                NetworkResource.Mode NetworkResource.Device NetworkResource.CIDR
                NetworkResource.MBits NetworkResource.DNS NetworkResource.IP].
           repeat split. by exists a, addrs.
    + split.
      * split; [done|]. intros (nw & [=] & _).
      * by repeat split.
Qed.

(** ** AssignPorts fails where the ports are not there *)

Lemma stochastic_one_free (nodeUsed : option Bitmap.t) (minP maxP : Z)
    (reservedPorts : list Port.t) (rng : Rng) :
  nonneg_int minP → nonneg_int maxP → minP < maxP → maxP <= MaxValidPort →
  (∃ v rng', getDynamicPortsStochastic nodeUsed minP maxP reservedPorts 1 rng
             = (Ok [v], rng')
             ∧ free_port nodeUsed minP maxP reservedPorts v)
  ∨ (∃ e rng', getDynamicPortsStochastic nodeUsed minP maxP reservedPorts 1 rng
               = (Err e, rng')).
Proof.
  intros Hmin Hmax Hlt Hle.
  destruct (stochastic_one nodeUsed minP maxP reservedPorts rng Hmin Hmax Hlt)
    as [(v & rng1 & Hst)|Herr]; [left|by right].
  exists v, rng1. split; [done|].
  pose proof (getDynamicPortsStochastic_bounds _ _ _ _ _ _ _ _ Hmin Hmax Hst) as Hb.
  apply getDynamicPortsStochastic_free in Hst as [_ Hfree].
  apply Forall_cons in Hb as [Hv _]. apply Forall_cons in Hfree as [[Hu Hr] _].
  rewrite uint_small in Hu by (unfold nonneg_int in *; lia).
  unfold free_port, nonneg_int in *. repeat split; try done; lia.
Qed.

Lemma AssignPorts_dynamic_port_fails (addrs : list NodeNetworkAddress.t)
    (addrErr : option string) (port : Port.t) (reserved : list Port.t)
    (idx : NetworkIndex.t) (rng : Rng) :
  nonneg_int (NetworkIndex.MinDynamicPort idx) →
  nonneg_int (NetworkIndex.MaxDynamicPort idx) →
  NetworkIndex.MinDynamicPort idx < NetworkIndex.MaxDynamicPort idx →
  NetworkIndex.MaxDynamicPort idx <= MaxValidPort →
  Forall (λ q, port_ok q) reserved →
  (∀ addr p, addr ∈ addrs →
     ¬ free_port (NetworkIndex.UsedPorts idx !! NodeNetworkAddress.Address addr)
         (NetworkIndex.MinDynamicPort idx) (NetworkIndex.MaxDynamicPort idx) reserved p) →
  (AssignPorts_dynamic_port addrs addrErr port reserved idx rng).1.1
  = Err match addrs with
        | [] => default ("no addresses available for " +:+ Port.HostNetwork port
                         +:+ " network") addrErr
        | _ => "dynamic port selection failed"
        end.
Proof.
  intros Hmin Hmax Hlt Hle Hres. revert addrErr idx rng Hmin Hmax Hlt Hle.
  induction addrs as [|addr rest IH]; intros addrErr idx rng Hmin Hmax Hlt Hle Hnone;
    cbn [AssignPorts_dynamic_port].
  { by destruct addrErr. }
  pose proof (getUsedPortsFor_fields idx (NodeNetworkAddress.Address addr)) as Hg.
  pose proof (getUsedPortsFor_check idx (NodeNetworkAddress.Address addr)) as Hchk.
  pose proof (getUsedPortsFor_frame idx (NodeNetworkAddress.Address addr)) as Hfr.
  destruct (getUsedPortsFor idx (NodeNetworkAddress.Address addr)) as [used idx1].
  cbv zeta in Hg. cbn [fst snd] in Hg, Hchk, Hfr. destruct Hg as (_ & Emin & Emax).
  rewrite Emin, Emax.
  assert (∀ p, ¬ free_port (Some used) (NetworkIndex.MinDynamicPort idx)
                   (NetworkIndex.MaxDynamicPort idx) reserved p) as Hhere.
  { intros p (H1 & H2 & H3 & H4). apply (Hnone addr p); [by left|].
    split; [done|]. split; [done|]. split; [|done].
    change (port_used idx (NodeNetworkAddress.Address addr) p = false).
    by rewrite <- Hchk. }
  destruct (stochastic_one_free (Some used) _ _ reserved rng Hmin Hmax Hlt Hle)
    as [(v & rng1 & _ & Hv)|(e & rng1 & ->)]; [by destruct (Hhere v)|].
  destruct (precise_one (Some used) _ _ reserved rng1 Hmin Hmax Hres)
    as [(v & vs & rng2 & _ & Hv)|[(rng2 & ->) _]]; [by destruct (Hhere v)|].
  rewrite IH.
  - by destruct rest.
  - by rewrite Emin.
  - by rewrite Emax.
  - by rewrite Emin, Emax.
  - by rewrite Emax.
  - intros a p Ha. rewrite Emin, Emax. intros (H1 & H2 & H3 & H4).
    apply (Hnone a p); [by right|].
    split; [done|]. split; [done|]. split; [|done].
    change (port_used idx (NodeNetworkAddress.Address a) p = false).
    by rewrite <- Hfr.
Qed.

Lemma AssignPorts_dynamic_app (ports1 ports2 : list Port.t) (offer : AllocatedPorts)
    (reservedIdx : gmap string (list Port.t)) (idx : NetworkIndex.t) (rng : Rng) :
  AssignPorts_dynamic (ports1 ++ ports2) offer reservedIdx idx rng
  = match AssignPorts_dynamic ports1 offer reservedIdx idx rng with
    | (Ok offer', idx', rng') => AssignPorts_dynamic ports2 offer' reservedIdx idx' rng'
    | other => other
    end.
Proof.
  revert offer idx rng.
  induction ports1 as [|port rest IH]; intros offer idx rng; [done|].
  cbn [app AssignPorts_dynamic]. cbv zeta.
  destruct (AssignPorts_dynamic_port _ _ _ _ _ _) as [[[m|e|] idx1] rng1]; [apply IH|done..].
Qed.

Lemma AssignPorts_dynamic_fields (ports : list Port.t) (offer : AllocatedPorts)
    (reservedIdx : gmap string (list Port.t)) (idx : NetworkIndex.t) (rng : Rng) :
  let idx' := (AssignPorts_dynamic ports offer reservedIdx idx rng).1.2 in
  NetworkIndex.HostNetworks idx' = NetworkIndex.HostNetworks idx
  ∧ NetworkIndex.MinDynamicPort idx' = NetworkIndex.MinDynamicPort idx
  ∧ NetworkIndex.MaxDynamicPort idx' = NetworkIndex.MaxDynamicPort idx.
Proof.
  revert offer idx rng.
  induction ports as [|port rest IH]; intros offer idx rng; [done|].
  cbn [AssignPorts_dynamic]. cbv zeta.
  pose proof (AssignPorts_dynamic_port_fields (addresses idx (Port.HostNetwork port)) None
                port (default [] (reservedIdx !! Port.HostNetwork port)) idx rng) as Hf.
  destruct (AssignPorts_dynamic_port _ _ _ _ _ _) as [[[m|e|] idx1] rng1];
    cbv zeta in Hf; cbn [fst snd] in Hf; [|done..].
  destruct Hf as (H1 & H2 & H3).
  destruct (IH (offer ++ [m]) idx1 rng1) as (K1 & K2 & K3).
  cbv zeta. by rewrite K1, K2, K3.
Qed.

(** X19. [AssignPorts] fails where the ports are not there. With a
    dynamic range of port numbers, the lower bound below the upper, and
    an ask whose reserved ports are accepted: at the first dynamic port
    that has no free port on any address of its host network the call
    fails, with "no addresses available for <alias> network" when the
    host network has no address and with "dynamic port selection failed"
    otherwise. *)
Theorem AssignPorts_fails_without_ports
    (idx : NetworkIndex.t) (ask : NetworkResource.t) (rng : Rng)
    (pre post : list Port.t) (d : Port.t) :
  nonneg_int (NetworkIndex.MinDynamicPort idx) →
  NetworkIndex.MinDynamicPort idx < NetworkIndex.MaxDynamicPort idx →
  NetworkIndex.MaxDynamicPort idx <= MaxValidPort →
  Forall (reserved_port_accepted idx) (NetworkResource.ReservedPorts ask) →
  NetworkResource.DynamicPorts ask = pre ++ d :: post →
  Forall (dynamic_port_available idx (NetworkResource.ReservedPorts ask)) pre →
  ¬ dynamic_port_available idx (NetworkResource.ReservedPorts ask) d →
  (AssignPorts idx ask rng).1.1
  = Err match addresses idx (Port.HostNetwork d) with
        | [] => "no addresses available for " +:+ Port.HostNetwork d +:+ " network"
        | _ => "dynamic port selection failed"
        end.
Proof.
  intros Hmin Hlt Hle Hacc Hdyn Hpre Hnone.
  assert (nonneg_int (NetworkIndex.MaxDynamicPort idx)) as Hmax.
  { unfold nonneg_int, MaxValidPort in *. lia. }
  assert (Forall (λ q, port_ok q) (NetworkResource.ReservedPorts ask)) as Hres.
  { eapply Forall_impl; [exact Hacc|]. intros q (addr & _ & Hq & _). exact Hq. }
  unfold AssignPorts.
  destruct (AssignPorts_reserved_accepted _ [] ∅ idx Hacc) as (offer1 & reservedIdx & Hok & _).
  pose proof (AssignPorts_reserved_fields (NetworkResource.ReservedPorts ask) [] ∅ idx) as Hf.
  pose proof (AssignPorts_reserved_frame (NetworkResource.ReservedPorts ask) [] ∅ idx) as Hfr.
  destruct (AssignPorts_reserved _ [] ∅ idx) as [r idx1] eqn:Hr. cbn [fst] in Hok. subst r.
  cbv zeta in Hf. cbn [snd] in Hf, Hfr. destruct Hf as (Hhn & Emin & Emax).
  apply AssignPorts_reserved_passes in Hr as [_ Hidx].
  assert (∀ hn, default [] (reservedIdx !! hn)
                = filter (λ q, Port.HostNetwork q = hn) (NetworkResource.ReservedPorts ask))
    as Hidx'.
  { intros hn. rewrite Hidx. by rewrite lookup_empty. }
  rewrite Hdyn, AssignPorts_dynamic_app.
  destruct (AssignPorts_dynamic_finds (NetworkResource.ReservedPorts ask) pre offer1
              reservedIdx idx idx1 rng) as [offer2 Hpre_ok]; try done.
  pose proof (AssignPorts_dynamic_fields pre offer1 reservedIdx idx1 rng) as Hf2.
  pose proof (AssignPorts_dynamic_frame pre offer1 reservedIdx idx1 rng) as Hfr2.
  destruct (AssignPorts_dynamic pre offer1 reservedIdx idx1 rng) as [[r idx2] rng2].
  cbn [fst snd] in Hpre_ok, Hf2, Hfr2. subst r. cbv zeta in Hf2.
  destruct Hf2 as (Hhn2 & Emin2 & Emax2).
  cbn [AssignPorts_dynamic]. cbv zeta.
  pose proof (AssignPorts_dynamic_port_fails (addresses idx2 (Port.HostNetwork d)) None d
                (default [] (reservedIdx !! Port.HostNetwork d)) idx2 rng2) as Hfail.
  rewrite (addresses_fields idx1 idx2 _ Hhn2), (addresses_fields idx idx1 _ Hhn) in Hfail |- *.
  rewrite Emin2, Emax2, Emin, Emax in Hfail.
  destruct (AssignPorts_dynamic_port _ None d _ idx2 rng2) as [[r idx3] rng3].
  cbn [fst] in Hfail. rewrite Hfail; try done.
  - rewrite Hidx'. apply Forall_forall. intros q Hq.
    apply list_elem_of_filter in Hq as [_ Hq]. by apply (proj1 (Forall_forall _ _) Hres).
  - intros addr p Haddr (H1 & H2 & H3 & H4). apply Hnone.
    exists addr, p. repeat split; try done; try lia.
    + change (port_used idx2 (NodeNetworkAddress.Address addr) p = false) in H3.
      by rewrite Hfr2, Hfr in H3.
    + intros q Hq Hsame Heq. apply H4. rewrite Hidx', <- Heq.
      apply list_elem_of_fmap. exists q. split; [done|].
      apply list_elem_of_filter. by split.
Qed.

Lemma AssignPorts_fails_without_ports_witness :
  (AssignPorts (index_with [default_address] 20000 20002)
     (ask_of [] [Port.mk "x" 0 0 "ghost"]) [1]).1.1
  = Err match addresses (index_with [default_address] 20000 20002) "ghost" with
        | [] => "no addresses available for " +:+ "ghost" +:+ " network"
        | _ => "dynamic port selection failed"
        end.
Proof.
  apply (AssignPorts_fails_without_ports (index_with [default_address] 20000 20002)
           (ask_of [] [Port.mk "x" 0 0 "ghost"]) [1] [] [] (Port.mk "x" 0 0 "ghost")).
  - change (nonneg_int 20000). unfold nonneg_int. lia.
  - change (20000 < 20002). lia.
  - change (20002 <= MaxValidPort). unfold MaxValidPort. lia.
  - apply Forall_nil_2.
  - reflexivity.
  - apply Forall_nil_2.
  - intros (addr & p & Haddr & _). vm_compute in Haddr. by apply elem_of_nil in Haddr.
Defined.

(** ** The errors of SetNode *)

Lemma SetNode_addresses_parse_error (ParsePortRanges : string → result (list Z))
    (pre post : list NodeNetworkAddress.t) (a : NodeNetworkAddress.t)
    (globalResPorts : list Z) (idx : NetworkIndex.t) (e : string) :
  Forall (λ p, 0 <= p < MaxValidPort) globalResPorts →
  Forall (address_ports_parse ParsePortRanges) pre →
  NodeNetworkAddress.ReservedPorts a ≠ "" →
  ParsePortRanges (NodeNetworkAddress.ReservedPorts a) = Err e →
  (SetNode_addresses ParsePortRanges (pre ++ a :: post) globalResPorts idx).1
  = Err ("error parsing reserved_ports for network "
         +:+ fmt_q (NodeNetworkAddress.Alias a) +:+ ": " +:+ e).
Proof.
  intros Hg Hpre Hne Hparse. revert idx.
  induction Hpre as [|b pre Hb _ IH]; intros idx.
  - cbn [app SetNode_addresses]. cbn zeta.
    set (idx1 := NetworkIndex.with_HostNetworks _ _).
    destruct (set_all_valid globalResPorts
                (getUsedPortsFor idx1 (NodeNetworkAddress.Address a)).1 Hg)
      as (used1 & Hset & _).
    destruct (getUsedPortsFor idx1 (NodeNetworkAddress.Address a)) as [used idx2].
    cbn [fst] in Hset. rewrite Hset.
    apply String.eqb_neq in Hne. rewrite Hne, Hparse. reflexivity.
  - cbn [app SetNode_addresses]. cbn zeta.
    set (idx1 := NetworkIndex.with_HostNetworks _ _).
    destruct (set_all_valid globalResPorts
                (getUsedPortsFor idx1 (NodeNetworkAddress.Address b)).1 Hg)
      as (used1 & Hset & _).
    destruct (getUsedPortsFor idx1 (NodeNetworkAddress.Address b)) as [used idx2].
    cbn [fst] in Hset. rewrite Hset.
    destruct (String.eqb (NodeNetworkAddress.ReservedPorts b) "") eqn:Hres; [apply IH|].
    apply String.eqb_neq in Hres. destruct (Hb Hres) as (rp & -> & Hrp).
    rewrite (map_uint_in_range rp Hrp).
    destruct (set_all_valid rp used1 Hrp) as (used2 & -> & _). apply IH.
Qed.

(** X20. The two parse errors of [SetNode]. When the global reserved
    ports of the node do not parse, [SetNode] returns "error parsing
    reserved_ports: ..." and has not touched the index. When the reserved
    ports of a host network address do not parse (the global ones and
    those of the addresses before it being port numbers), it returns
    "error parsing reserved_ports for network <alias>: ..." where the
    alias, an ASCII string, is quoted as [%q] quotes it: between double
    quotes, with its quotes, backslashes and control characters
    escaped. *)
Theorem SetNode_parse_errors (ParsePortRanges : string → result (list Z))
    (idx : NetworkIndex.t) (node : Node.t) (e : string) :
  (node_reserved_host_ports node ≠ "" →
   ParsePortRanges (node_reserved_host_ports node) = Err e →
   SetNode ParsePortRanges idx node = (Err ("error parsing reserved_ports: " +:+ e), idx))
  ∧ (∀ resPorts pre a post,
      global_ports_parse ParsePortRanges node resPorts →
      Forall (λ p, 0 <= p < MaxValidPort) resPorts →
      node_addresses node = pre ++ a :: post →
      Forall (address_ports_parse ParsePortRanges) pre →
      NodeNetworkAddress.ReservedPorts a ≠ "" →
      ParsePortRanges (NodeNetworkAddress.ReservedPorts a) = Err e →
      is_ascii (NodeNetworkAddress.Alias a) = true →
      (SetNode ParsePortRanges idx node).1
      = Err ("error parsing reserved_ports for network "
             +:+ fmt_q (NodeNetworkAddress.Alias a) +:+ ": " +:+ e)).
Proof.
  split.
  - unfold node_reserved_host_ports, SetNode. intros Hne Hparse.
    destruct (Node.ReservedResources node) as [rr|]; [|done].
    apply String.eqb_neq in Hne. by rewrite Hne, Hparse.
  - intros resPorts pre a post Hglobal Hres Haddrs Hpre Hne Hparse _.
    rewrite (SetNode_modern ParsePortRanges idx node resPorts Hglobal Hres).
    destruct (SetNode_taskNetworks_marks (node_task_networks node) resPorts idx Hres)
      as (idx1 & -> & _).
    pose proof (SetNode_addresses_parse_error ParsePortRanges pre post a resPorts idx1 e
                  Hres Hpre Hne Hparse) as Herr.
    rewrite <- Haddrs in Herr.
    destruct (SetNode_addresses _ _ _ _) as [r idx2]. cbn [fst] in Herr. by subst r.
Qed.

Lemma SetNode_parse_errors_witness :
  SetNode parse_table NewNetworkIndex node_bad_ranges
  = (Err "error parsing reserved_ports: unexpected range 22-", NewNetworkIndex)
  ∧ (SetNode parse_table NewNetworkIndex node_bad_address).1
    = Err ("error parsing reserved_ports for network "
           +:+ String "034"%char ("lan\\1" +:+ String "034"%char "")
           +:+ ": " +:+ "unexpected range 1-").
Proof.
  split.
  - apply (SetNode_parse_errors parse_table NewNetworkIndex node_bad_ranges
             "unexpected range 22-"); [discriminate|reflexivity].
  - apply (SetNode_parse_errors parse_table NewNetworkIndex node_bad_address
             "unexpected range 1-")
      with (resPorts := [22])
           (pre := [NodeNetworkAddress.mk "eth0" "10.0.0.2" "80,443"])
           (a := NodeNetworkAddress.mk "lan\1" "10.0.0.3" "1-")
           (post := []).
    + left. split; [discriminate|reflexivity].
    + constructor; [unfold MaxValidPort; lia|constructor].
    + reflexivity.
    + constructor; [|constructor]. intros _. exists [80; 443]. split; [reflexivity|].
      repeat constructor; unfold MaxValidPort; lia.
    + discriminate.
    + reflexivity.
    + reflexivity.
Defined.

(** ** The bitmap of an address is made on first use *)

(** X21. [getUsedPortsFor] returns the bitmap the index has for the
    address and, when it has none, stores an empty one under the address
    and returns it. Either way no port is in use afterwards that was not
    before, the other addresses keep their entry, the address has an
    entry afterwards, and a second call returns the same bitmap and
    changes nothing. *)
Theorem getUsedPortsFor_makes_an_empty_bitmap (idx : NetworkIndex.t) (ip : string) :
  let used := (getUsedPortsFor idx ip).1 in
  let idx' := (getUsedPortsFor idx ip).2 in
  NetworkIndex.UsedPorts idx' !! ip = Some used
  ∧ (NetworkIndex.UsedPorts idx !! ip = None → ∀ p, Bitmap.Check used p = false)
  ∧ (∀ p, Bitmap.Check used p = port_used idx ip p)
  ∧ (∀ ip' p, port_used idx' ip' p = port_used idx ip' p)
  ∧ (∀ ip', ip' ≠ ip → NetworkIndex.UsedPorts idx' !! ip' = NetworkIndex.UsedPorts idx !! ip')
  ∧ getUsedPortsFor idx' ip = (used, idx').
Proof.
  cbv zeta. split; [|split; [|split; [|split; [|split]]]].
  - unfold getUsedPortsFor. destruct (NetworkIndex.UsedPorts idx !! ip) eqn:Hip;
      cbn [fst snd]; [done|].
    index_fields. by rewrite lookup_insert_eq.
  - intros Hnone p. unfold getUsedPortsFor. rewrite Hnone. apply Check_new.
  - apply getUsedPortsFor_check.
  - apply getUsedPortsFor_frame.
  - intros ip' Hne. unfold getUsedPortsFor. destruct (NetworkIndex.UsedPorts idx !! ip) eqn:Hip;
      cbn [fst snd]; [done|].
    index_fields. by rewrite lookup_insert_ne.
  - unfold getUsedPortsFor. destruct (NetworkIndex.UsedPorts idx !! ip) eqn:Hip.
    + cbn [fst snd]. by rewrite Hip.
    + cbn [fst snd]. index_fields. by rewrite lookup_insert_eq.
Qed.
